(** * Caspio MCP server: authorization, sessions and the command executor

    A shallow embedding of the remote HTTP server (OAuth endpoints, session
    persistence, janitor, dispatch gate, tool executor) and of the tool
    executor of the local stdio server, with the properties of the
    specification stated and proved over it.

    Conventions of the embedding:
    - a JavaScript [Map] is an association list in insertion order
      ([JsMap]); [set] overwrites in place or appends, as [Map.prototype.set];
    - [Date.now()] and [crypto.randomBytes(32)] are inputs of the handler
      that calls them, one argument per call site;
    - the outcome of an awaited backend call is an input as well (the
      connection test of the submission handler), or is supplied by a
      backend oracle (the tool executor, written as a tree of calls);
    - an HTTP reply is a value of type [Response];
    - [req.headers.authorization] is the value of the header line as
      the HTTP parser delivers it, without the blanks around it
      ([fieldValue]);
    - the submission handler, which awaits the connection test, is given
      both as a whole ([handleAuthorizeSubmit], nothing else running
      during the await) and in its two steps ([submitBegin],
      [submitResume]), each on the state it meets. *)

From Stdlib Require Import String Ascii List ZArith Bool Lia.
From Stdlib Require Import Init.Byte.
Import ListNotations.

Local Open Scope string_scope.
Local Open Scope Z_scope.
Local Set Warnings "-register-all".

(* ================================================================== *)
(** ** JavaScript [Map] with string keys *)

Module JsMap.

Definition t (V : Type) : Type := list (string * V).

Section Ops.
Context {V : Type}.

Definition empty : t V := [].

Fixpoint get (k : string) (m : t V) : option V :=
  match m with
  | [] => None
  | (k', v) :: r => if String.eqb k' k then Some v else get k r
  end.

Definition has (k : string) (m : t V) : bool :=
  match get k m with Some _ => true | None => false end.

(** [Map.prototype.set]: an existing key keeps its position. *)
Fixpoint set (k : string) (v : V) (m : t V) : t V :=
  match m with
  | [] => [(k, v)]
  | (k', v') :: r =>
      if String.eqb k' k then (k', v) :: r else (k', v') :: set k v r
  end.

(** [Map.prototype.delete]. *)
Definition delete (k : string) (m : t V) : t V :=
  filter (fun e => negb (String.eqb (fst e) k)) m.

Definition keys (m : t V) : list string := map fst m.
Definition values (m : t V) : list V := map snd m.

(** [for (const [k, v] of m) if (p(k, v)) { ...; break; }]: the first
    entry in insertion order that satisfies [p]. *)
Definition findEntry (p : string -> V -> bool) (m : t V)
  : option (string * V) :=
  find (fun e => p (fst e) (snd e)) m.

(** [for (const [k, v] of m) if (dead(v)) { m.delete(k); n++; }]:
    the map that is left and the number of deletions. *)
Definition sweepStep (dead : V -> bool) (acc : t V * nat) (e : string * V)
  : t V * nat :=
  if dead (snd e) then (delete (fst e) (fst acc), S (snd acc)) else acc.

Definition sweep (dead : V -> bool) (m : t V) : t V * nat :=
  fold_left (sweepStep dead) m (m, O).

(** The keys of the entries of [l] that a sweep finds dead. *)
Definition deadKeys (dead : V -> bool) (l : t V) : list string :=
  keys (filter (fun e => dead (snd e)) l).

End Ops.

End JsMap.

(* ================================================================== *)
(** ** Identifiers: [crypto.randomBytes(32).toString('hex')] *)

Definition hexDigit (n : N) : ascii :=
  match n with
  | 0%N => "0" | 1%N => "1" | 2%N => "2" | 3%N => "3"
  | 4%N => "4" | 5%N => "5" | 6%N => "6" | 7%N => "7"
  | 8%N => "8" | 9%N => "9" | 10%N => "a" | 11%N => "b"
  | 12%N => "c" | 13%N => "d" | 14%N => "e" | _ => "f"
  end%char.

Definition hexOfByte (b : byte) : string :=
  let n := Byte.to_N b in
  String (hexDigit (N.div n 16)) (String (hexDigit (N.modulo n 16)) "").

Fixpoint toHex (bs : list byte) : string :=
  match bs with
  | [] => ""
  | b :: r => hexOfByte b ++ toHex r
  end.

(** [generateId()]; the argument is the result of [crypto.randomBytes(32)]. *)
Definition generateId (randomBytes : list byte) : string := toHex randomBytes.

(* ================================================================== *)
(** ** Data model *)

Record OAuthSession : Type := mkSession {
  caspioBaseUrl : string;
  caspioClientId : string;
  caspioClientSecret : string;
  accessToken : string;
  refreshToken : string;
  expiresAt : Z;
  createdAt : Z
}.

Record PendingAuth : Type := mkPending {
  codeChallenge : string;
  codeChallengeMethod : string;
  redirectUri : string;
  state : string;
  pendingBaseUrl : option string;
  pendingClientId : option string;
  pendingClientSecret : option string;
  pendingCreatedAt : Z
}.

Record AuthCode : Type := mkAuthCode {
  sessionId : string;
  codeExpiresAt : Z
}.

(** The sessions file.  [saveSessions] writes [JSON.stringify(data)] for an
    object [data] from session id to session record, and [loadSessions]
    reads it back with [JSON.parse]; a record holds strings and integer
    timestamps only, which JSON text carries unchanged, so the file is
    represented by the document it holds.  [Corrupt] is a file on which
    [JSON.parse] throws. *)
Inductive FileContent : Type :=
| Missing
| Corrupt
| Document (data : JsMap.t OAuthSession).

Record Disk : Type := mkDisk {
  sessionsFile : FileContent;
  (** whether [ensureDataDir] and [fs.writeFileSync] go through *)
  writable : bool
}.

(** The three module-level registries and the disk. *)
Record State : Type := mkState {
  sessions : JsMap.t OAuthSession;
  pendingAuths : JsMap.t PendingAuth;
  authCodes : JsMap.t AuthCode;
  disk : Disk
}.

Definition withSessions (st : State) (m : JsMap.t OAuthSession) : State :=
  mkState m (pendingAuths st) (authCodes st) (disk st).
Definition withPending (st : State) (m : JsMap.t PendingAuth) : State :=
  mkState (sessions st) m (authCodes st) (disk st).
Definition withCodes (st : State) (m : JsMap.t AuthCode) : State :=
  mkState (sessions st) (pendingAuths st) m (disk st).
Definition withDisk (st : State) (d : Disk) : State :=
  mkState (sessions st) (pendingAuths st) (authCodes st) d.

(** The state of a process that has not loaded anything yet. *)
Definition freshProcess (d : Disk) : State :=
  mkState JsMap.empty JsMap.empty JsMap.empty d.

(* ================================================================== *)
(** ** Session persistence *)

(** [saveSessions]: copy the map into an object, entry by entry, and write
    it; a failure of the write is caught and logged.  The keys are session
    ids, strings of hex digits made by [generateId]; for such keys an
    object keeps its properties in insertion order, as the association
    list does. *)
Definition saveSessions (st : State) : State :=
  if writable (disk st) then
    let data :=
      fold_left (fun data e => JsMap.set (fst e) (snd e) data)
                (sessions st) JsMap.empty in
    withDisk st (mkDisk (Document data) true)
  else st.

(** [loadSessions]: only sessions with [expiresAt > now] are put in the
    map; a missing file leaves it as it is, and so does a file that does
    not parse (the exception is caught). *)
Definition loadSessions (now : Z) (st : State) : State :=
  match sessionsFile (disk st) with
  | Document parsed =>
      withSessions st
        (fold_left
           (fun m e =>
              if expiresAt (snd e) >? now then JsMap.set (fst e) (snd e) m
              else m)
           parsed (sessions st))
  | Missing | Corrupt => st
  end.

Definition setSession (sid : string) (s : OAuthSession) (st : State) : State :=
  saveSessions (withSessions st (JsMap.set sid s (sessions st))).

Definition deleteSession (sid : string) (st : State) : State * bool :=
  if JsMap.has sid (sessions st) then
    (saveSessions (withSessions st (JsMap.delete sid (sessions st))), true)
  else (st, false).

(** Process start: empty registries, then [loadSessions()]. *)
Definition startup (now : Z) (d : Disk) : State :=
  loadSessions now (freshProcess d).

(** ** Janitor: the [setInterval] callback *)

Definition janitor (now : Z) (st : State) : State :=
  let '(live, sessionsDeleted) :=
    JsMap.sweep (fun s => expiresAt s <? now) (sessions st) in
  let st1 := withSessions st live in
  let st2 := if (0 <? sessionsDeleted)%nat then saveSessions st1 else st1 in
  let st3 :=
    withPending st2
      (fst (JsMap.sweep (fun p => pendingCreatedAt p + 600000 <? now)
                        (pendingAuths st2))) in
  withCodes st3
    (fst (JsMap.sweep (fun c => codeExpiresAt c <? now) (authCodes st3))).

(* ================================================================== *)
(** ** Values, requests and replies *)

(** JavaScript values as they come out of [JSON.parse] or are put together
    by the handlers; [VUndefined] is a property that is not there.  Numbers
    are the integers. *)
Inductive JsVal : Type :=
| VUndefined
| VNull
| VBool (b : bool)
| VNum (n : Z)
| VStr (s : string)
| VArr (items : list JsVal)
| VObj (fields : list (string * JsVal)).

(** [!!v]. *)
Definition truthy (v : JsVal) : bool :=
  match v with
  | VUndefined | VNull => false
  | VBool b => b
  | VNum n => negb (n =? 0)
  | VStr s => negb (String.eqb s "")
  | VArr _ | VObj _ => true
  end.

(** [obj.name] on the fields of an object. *)
Fixpoint prop (name : string) (fields : list (string * JsVal)) : JsVal :=
  match fields with
  | [] => VUndefined
  | (k, v) :: r => if String.eqb k name then v else prop name r
  end.

(** What a [throw] carries: an [Error] (or an object of a subclass) with
    its message, or any other value. *)
Inductive Thrown : Type :=
| ErrorObj (message : string)
| ThrownValue (v : JsVal).

(** [URLSearchParams]: the pairs in the order of the query or body. *)
Definition Params : Type := list (string * string).

(** [params.get(name)]: the first value, or [null]. *)
Fixpoint paramGet (name : string) (ps : Params) : option string :=
  match ps with
  | [] => None
  | (k, v) :: r => if String.eqb k name then Some v else paramGet name r
  end.

(** [!!s] for a [string | null]. *)
Definition present (s : option string) : bool :=
  match s with
  | Some v => negb (String.eqb v "")
  | None => false
  end.

(** [s === lit] for a [string | null]. *)
Definition strictEq (s : option string) (lit : string) : bool :=
  match s with
  | Some v => String.eqb v lit
  | None => false
  end.

(** [s || ''] for a [string | null]. *)
Definition orEmpty (s : option string) : string :=
  match s with Some v => v | None => "" end.

(** [s.replace(/\/$/, '')]: one slash at the end is dropped. *)
Fixpoint stripTrailingSlash (s : string) : string :=
  match s with
  | EmptyString => EmptyString
  | String c EmptyString =>
      if Ascii.eqb c "/"%char then EmptyString else s
  | String c r => String c (stripTrailingSlash r)
  end.

(** The arguments of [getAuthorizationPageHtml]; the page is a fixed
    template around them. *)
Record AuthPage : Type := mkAuthPage {
  pageAuthId : string;
  pageClientId : string;
  pageRedirectUri : string;
  pageState : string;
  pageError : option string
}.

(** [new URL(redirectUri)] after [searchParams.set('code', ...)] and, when
    the state is not empty, [searchParams.set('state', ...)]. *)
Record RedirectUrl : Type := mkRedirectUrl {
  redirectTarget : string;
  redirectCode : string;
  redirectState : option string
}.

Inductive Response : Type :=
| SendJson (status : Z) (body : JsVal)
| SendHtml (status : Z) (page : AuthPage)
| Redirect302 (location : RedirectUrl)
(** status 401 with [WWW-Authenticate: Bearer resource_metadata=...] *)
| Unauthorized401 (resourceMetadata : string) (body : JsVal).

Definition oauthError (code : string) (description : string) : Response :=
  SendJson 400
    (VObj [("error", VStr code); ("error_description", VStr description)]).

(** The reply of the request listener when a handler throws. *)
Definition internalError : Response :=
  SendJson 500 (VObj [("error", VStr "internal_error")]).

Definition tokenResponse (access refresh : string) : Response :=
  SendJson 200
    (VObj [("access_token", VStr access);
           ("token_type", VStr "Bearer");
           ("expires_in", VNum 86400);
           ("refresh_token", VStr refresh);
           ("scope", VStr "caspio:read caspio:write caspio:admin")]).

(** The [error] member of a JSON reply, when it is a string. *)
Definition errorCode (r : Response) : option string :=
  match r with
  | SendJson _ (VObj fields) | Unauthorized401 _ (VObj fields) =>
      match prop "error" fields with
      | VStr code => Some code
      | _ => None
      end
  | _ => None
  end.

(** Outcome of [await client.testConnection()] in the submission handler. *)
Inductive ConnResult : Type :=
| Connected
| NotConnected
| ConnThrew (e : Thrown).

(** [error instanceof Error ? error.message : fallback]. *)
Definition messageOr (fallback : string) (e : Thrown) : string :=
  match e with
  | ErrorObj m => m
  | ThrownValue _ => fallback
  end.

(* ================================================================== *)
(** ** OAuth endpoints *)

Section OAuth.

(** Whether [new URL(s)] accepts [s] (it throws otherwise). *)
Variable urlParses : string -> bool.
(** [crypto.createHash('sha256').update(v).digest('base64url')]. *)
Variable sha256Base64Url : string -> string.

Definition verifyCodeChallenge (verifier challenge method : string) : bool :=
  if String.eqb method "plain" then String.eqb verifier challenge
  else if String.eqb method "S256" then
    String.eqb (sha256Base64Url verifier) challenge
  else false.

(** [handleAuthorize]; [query] are the search parameters of the request. *)
Definition handleAuthorize (query : Params) (randomBytes : list byte)
  (now : Z) (st : State) : State * Response :=
  let responseType := paramGet "response_type" query in
  let clientId := paramGet "client_id" query in
  let redirectUri := paramGet "redirect_uri" query in
  let state := paramGet "state" query in
  let codeChallenge := paramGet "code_challenge" query in
  let codeChallengeMethod :=
    if present (paramGet "code_challenge_method" query)
    then orEmpty (paramGet "code_challenge_method" query) else "plain" in
  if negb (strictEq responseType "code") then
    (st, SendJson 400 (VObj [("error", VStr "unsupported_response_type")]))
  else if negb (present redirectUri) then
    (st, oauthError "invalid_request" "redirect_uri required")
  else
    let authId := generateId randomBytes in
    (withPending st
       (JsMap.set authId
          (mkPending (orEmpty codeChallenge) codeChallengeMethod
             (orEmpty redirectUri) (orEmpty state) None None None now)
          (pendingAuths st)),
     SendHtml 200
       (mkAuthPage authId (orEmpty clientId) (orEmpty redirectUri)
          (orEmpty state) None)).

Definition formError (authId : string) (message : string) : Response :=
  SendHtml 400 (mkAuthPage authId "" "" "" (Some message)).

(** [handleAuthorizeSubmit], for a run in which no other handler and no
    tick of the janitor comes between its two tests and the point where it
    resumes after [await client.testConnection()].  [conn] is the outcome
    of the awaited connection test; the three times are the three
    [Date.now()] calls (session expiry, session creation, code expiry).
    Nothing before the await writes to the registries.  The two steps of
    the handler, each on the state it meets, are [submitBegin] and
    [submitResume] below. *)
Definition handleAuthorizeSubmit (body : Params) (conn : ConnResult)
  (codeBytes sessionBytes : list byte) (nowExpiry nowCreated nowCode : Z)
  (st : State) : State * Response :=
  let authId := paramGet "auth_id" body in
  let caspioBaseUrl :=
    option_map stripTrailingSlash (paramGet "caspio_base_url" body) in
  let caspioClientId := paramGet "caspio_client_id" body in
  let caspioClientSecret := paramGet "caspio_client_secret" body in
  if negb (present authId) || negb (JsMap.has (orEmpty authId) (pendingAuths st))
  then (st, oauthError "invalid_request" "Invalid or expired authorization")
  else if negb (present caspioBaseUrl) || negb (present caspioClientId)
          || negb (present caspioClientSecret)
  then (st, formError (orEmpty authId) "Please fill in all fields")
  else
    match conn with
    | NotConnected =>
        (st, formError (orEmpty authId)
               "Failed to connect to Caspio. Please check your credentials.")
    | ConnThrew e =>
        (st, formError (orEmpty authId)
               ("Connection failed: " ++ messageOr "Unknown error" e))
    | Connected =>
        match JsMap.get (orEmpty authId) (pendingAuths st) with
        | None => (st, internalError)
        | Some pending0 =>
            let pending :=
              mkPending (codeChallenge pending0) (codeChallengeMethod pending0)
                (redirectUri pending0) (state pending0)
                caspioBaseUrl caspioClientId caspioClientSecret
                (pendingCreatedAt pending0) in
            let st1 :=
              withPending st
                (JsMap.set (orEmpty authId) pending (pendingAuths st)) in
            let code := generateId codeBytes in
            let sessionId := generateId sessionBytes in
            let st2 :=
              setSession sessionId
                (mkSession (orEmpty caspioBaseUrl) (orEmpty caspioClientId)
                   (orEmpty caspioClientSecret) "" ""
                   (nowExpiry + 86400000) nowCreated)
                st1 in
            let st3 :=
              withCodes st2
                (JsMap.set code (mkAuthCode sessionId (nowCode + 600000))
                   (authCodes st2)) in
            if urlParses (redirectUri pending) then
              (withPending st3
                 (JsMap.delete (orEmpty authId) (pendingAuths st3)),
               Redirect302
                 (mkRedirectUrl (redirectUri pending) code
                    (if String.eqb (state pending) "" then None
                     else Some (state pending))))
            else (st3, internalError)
        end
    end.

(** [handleAuthorizeSubmit] up to the await: the reply that is sent
    without a connection test, if any.  The registries are read, not
    written. *)
Definition submitBegin (body : Params) (st : State) : option Response :=
  let authId := paramGet "auth_id" body in
  let caspioBaseUrl :=
    option_map stripTrailingSlash (paramGet "caspio_base_url" body) in
  let caspioClientId := paramGet "caspio_client_id" body in
  let caspioClientSecret := paramGet "caspio_client_secret" body in
  if negb (present authId) || negb (JsMap.has (orEmpty authId) (pendingAuths st))
  then Some (oauthError "invalid_request" "Invalid or expired authorization")
  else if negb (present caspioBaseUrl) || negb (present caspioClientId)
          || negb (present caspioClientSecret)
  then Some (formError (orEmpty authId) "Please fill in all fields")
  else None.

(** [handleAuthorizeSubmit] from the point where it resumes with the
    outcome [conn] of the connection test, in the state [st] that the
    registries are in by then: other requests and the janitor may have run
    during the await.  When the pending record is gone,
    [pendingAuths.get(authId)!] is [undefined], the assignment to its
    member throws, and the request listener answers 500. *)
Definition submitResume (body : Params) (conn : ConnResult)
  (codeBytes sessionBytes : list byte) (nowExpiry nowCreated nowCode : Z)
  (st : State) : State * Response :=
  let authId := paramGet "auth_id" body in
  let caspioBaseUrl :=
    option_map stripTrailingSlash (paramGet "caspio_base_url" body) in
  let caspioClientId := paramGet "caspio_client_id" body in
  let caspioClientSecret := paramGet "caspio_client_secret" body in
  match conn with
  | NotConnected =>
      (st, formError (orEmpty authId)
             "Failed to connect to Caspio. Please check your credentials.")
  | ConnThrew e =>
      (st, formError (orEmpty authId)
             ("Connection failed: " ++ messageOr "Unknown error" e))
  | Connected =>
      match JsMap.get (orEmpty authId) (pendingAuths st) with
      | None => (st, internalError)
      | Some pending0 =>
          let pending :=
            mkPending (codeChallenge pending0) (codeChallengeMethod pending0)
              (redirectUri pending0) (state pending0)
              caspioBaseUrl caspioClientId caspioClientSecret
              (pendingCreatedAt pending0) in
          let st1 :=
            withPending st
              (JsMap.set (orEmpty authId) pending (pendingAuths st)) in
          let code := generateId codeBytes in
          let sessionId := generateId sessionBytes in
          let st2 :=
            setSession sessionId
              (mkSession (orEmpty caspioBaseUrl) (orEmpty caspioClientId)
                 (orEmpty caspioClientSecret) "" ""
                 (nowExpiry + 86400000) nowCreated)
              st1 in
          let st3 :=
            withCodes st2
              (JsMap.set code (mkAuthCode sessionId (nowCode + 600000))
                 (authCodes st2)) in
          if urlParses (redirectUri pending) then
            (withPending st3
               (JsMap.delete (orEmpty authId) (pendingAuths st3)),
             Redirect302
               (mkRedirectUrl (redirectUri pending) code
                  (if String.eqb (state pending) "" then None
                   else Some (state pending))))
          else (st3, internalError)
      end
  end.

(** [handleToken].  [nowCheck] is the [Date.now()] of the expiry test of
    the code, [nowIssue] the one that sets [expiresAt]. *)
Definition handleToken (body : Params) (accessBytes refreshBytes : list byte)
  (nowCheck nowIssue : Z) (st : State) : State * Response :=
  let grantType := paramGet "grant_type" body in
  if strictEq grantType "authorization_code" then
      let code := paramGet "code" body in
      let codeVerifier := paramGet "code_verifier" body in
      if negb (present code) || negb (JsMap.has (orEmpty code) (authCodes st))
      then (st, oauthError "invalid_grant" "Invalid or expired code")
      else
        match JsMap.get (orEmpty code) (authCodes st) with
        | None => (st, internalError)
        | Some codeData =>
            if codeExpiresAt codeData <? nowCheck then
              (withCodes st (JsMap.delete (orEmpty code) (authCodes st)),
               oauthError "invalid_grant" "Code expired")
            else
              match JsMap.get (sessionId codeData) (sessions st) with
              | None => (st, oauthError "invalid_grant" "Session not found")
              | Some session =>
                  let newAccessToken := generateId accessBytes in
                  let newRefreshToken := generateId refreshBytes in
                  let session' :=
                    mkSession (caspioBaseUrl session) (caspioClientId session)
                      (caspioClientSecret session)
                      newAccessToken newRefreshToken
                      (nowIssue + 86400000) (createdAt session) in
                  let st1 := setSession (sessionId codeData) session' st in
                  (withCodes st1 (JsMap.delete (orEmpty code) (authCodes st1)),
                   tokenResponse newAccessToken newRefreshToken)
              end
        end
  else if strictEq grantType "refresh_token" then
      let presented := paramGet "refresh_token" body in
      if negb (present presented) then
        (st, oauthError "invalid_request" "refresh_token required")
      else
        match
          JsMap.findEntry
            (fun _ session =>
               String.eqb (refreshToken session) (orEmpty presented))
            (sessions st)
        with
        | None => (st, oauthError "invalid_grant" "Invalid refresh token")
        | Some (foundSessionId, foundSession) =>
            if String.eqb foundSessionId "" then
              (st, oauthError "invalid_grant" "Invalid refresh token")
            else
              let newAccessToken := generateId accessBytes in
              let newRefreshToken := generateId refreshBytes in
              let session' :=
                mkSession (caspioBaseUrl foundSession)
                  (caspioClientId foundSession)
                  (caspioClientSecret foundSession)
                  newAccessToken newRefreshToken
                  (nowIssue + 86400000) (createdAt foundSession) in
              (setSession foundSessionId session' st,
               tokenResponse newAccessToken newRefreshToken)
        end
  else (st, SendJson 400 (VObj [("error", VStr "unsupported_grant_type")])).

(** [getSessionFromRequest]; [authHeader] is [req.headers.authorization]. *)
Definition getSessionFromRequest (authHeader : option string) (st : State)
  : option OAuthSession :=
  match authHeader with
  | None => None
  | Some h =>
      if negb (String.prefix "Bearer " h) then None
      else
        let token := String.substring 7 (String.length h - 7)%nat h in
        option_map snd
          (JsMap.findEntry
             (fun _ session => String.eqb (accessToken session) token)
             (sessions st))
  end.

End OAuth.

(* ================================================================== *)
(** ** Programs over the backend client *)

(** What an awaited method of [CaspioClient] comes back with. *)
Inductive Reply : Type :=
| Returned (v : JsVal)
| Threw (e : Thrown).

(** An [async] function body: it returns, throws, or awaits a method of
    the client and goes on with the reply. *)
Inductive Prog (A : Type) : Type :=
| Ret (a : A)
| Throw (e : Thrown)
| Call (method : string) (args : list JsVal) (k : Reply -> Prog A).

Arguments Ret {A} a.
Arguments Throw {A} e.
Arguments Call {A} method args k.

Fixpoint bind {A B : Type} (p : Prog A) (f : A -> Prog B) : Prog B :=
  match p with
  | Ret a => f a
  | Throw e => Throw e
  | Call m args k => Call m args (fun r => bind (k r) f)
  end.

(** [try { p } catch (e) { h(e) }]. *)
Fixpoint tryCatch {A : Type} (p : Prog A) (h : Thrown -> Prog A) : Prog A :=
  match p with
  | Ret a => Ret a
  | Throw e => h e
  | Call m args k => Call m args (fun r => tryCatch (k r) h)
  end.

(** [await client.method(args)]: a rejected promise is rethrown. *)
Definition await (method : string) (args : list JsVal) : Prog JsVal :=
  Call method args
    (fun r => match r with Returned v => Ret v | Threw e => Throw e end).

Notation "x <- p ;; q" := (bind p (fun x => q))
  (at level 61, p at next level, right associativity).

Definition CallRecord : Type := (string * list JsVal)%type.

(** The backend as seen from the executor: the reply to a call, given the
    calls made before it. *)
Definition Backend : Type := list CallRecord -> string -> list JsVal -> Reply.

(** Run a program against a backend; the result and the calls made. *)
Fixpoint run {A : Type} (backend : Backend) (made : list CallRecord)
  (p : Prog A) : (A + Thrown) * list CallRecord :=
  match p with
  | Ret a => (inl a, made)
  | Throw e => (inr e, made)
  | Call m args k =>
      run backend (made ++ [(m, args)]) (k (backend made m args))
  end.

(** The exception of the first call of the run that the backend answers
    with one, if there is such a call. *)
Fixpoint firstThrown {A : Type} (backend : Backend) (made : list CallRecord)
  (p : Prog A) : option Thrown :=
  match p with
  | Ret _ | Throw _ => None
  | Call m args k =>
      match backend made m args with
      | Threw e => Some e
      | Returned v =>
          firstThrown backend (made ++ [(m, args)]) (k (Returned v))
      end
  end.

(** Every await of the program rethrows the exception it is answered
    with: no [catch] stands between a call and the caller. *)
Fixpoint rethrows {A : Type} (p : Prog A) : Prop :=
  match p with
  | Ret _ | Throw _ => True
  | Call _ _ k =>
      (forall e, k (Threw e) = Throw e) /\ (forall v, rethrows (k (Returned v)))
  end.

(** [switch (s) { case ...: ...; default: ... }] on strings. *)
Fixpoint switch {T : Type} (s : string) (cases : list (string * T))
  (default : T) : T :=
  match cases with
  | [] => default
  | (label, body) :: r => if String.eqb label s then body else switch s r default
  end.

(** The message of the [TypeError] of a property read on [undefined] or
    [null]. *)
Definition cannotRead (base name : string) : string :=
  "Cannot read properties of " ++ base ++ " (reading '" ++ name ++ "')".

(** [v.length] as the executor uses it on a reply: the number of items of
    an array, the length of a string, the own [length] member of an object
    if it has one. *)
Definition lengthOf (v : JsVal) : Prog JsVal :=
  match v with
  | VArr items => Ret (VNum (Z.of_nat (length items)))
  | VStr s => Ret (VNum (Z.of_nat (String.length s)))
  | VObj fields => Ret (prop "length" fields)
  | VUndefined => Throw (ErrorObj (cannotRead "undefined" "length"))
  | VNull => Throw (ErrorObj (cannotRead "null" "length"))
  | VBool _ | VNum _ => Ret VUndefined
  end.

(** [v.name] for a value that may be [undefined] or [null]; the names that
    the handlers read ([name], [arguments], [uri], [Name]) are members of
    no string, number, boolean or array. *)
Definition member (v : JsVal) (name : string) : Prog JsVal :=
  match v with
  | VObj fields => Ret (prop name fields)
  | VUndefined => Throw (ErrorObj (cannotRead "undefined" name))
  | VNull => Throw (ErrorObj (cannotRead "null" name))
  | VBool _ | VNum _ | VStr _ | VArr _ => Ret VUndefined
  end.

(** The own properties of [v || {}] that the executor reads by name. *)
Definition fieldsOf (v : JsVal) : list (string * JsVal) :=
  match v with
  | VObj fields => fields
  | _ => []
  end.

Definition notConfirmed : string :=
  "Deletion not confirmed. Set confirm=true to proceed.".

(** An entry of a tool catalog: its name and the [required] list of its
    input schema (descriptions and property schemas are left out). *)
Record ToolDef : Type := mkTool {
  toolName : string;
  toolRequired : list string
}.

(** The tools of a catalog whose schema requires [confirm]. *)
Definition destructiveTools (catalog : list ToolDef) : list string :=
  map toolName
    (filter (fun d => existsb (String.eqb "confirm") (toolRequired d)) catalog).

Definition successMessage (message : string) : JsVal :=
  VObj [("success", VBool true); ("message", VStr message)].

Definition textContent (text : JsVal) : JsVal :=
  VObj [("content", VArr [VObj [("type", VStr "text"); ("text", text)]])].

(* ------------------------------------------------------------------ *)
(** *** The executor of the remote server *)

Module Remote.

Definition toolDefinitions : list ToolDef :=
  [ mkTool "caspio_list_tables" [];
    mkTool "caspio_get_table_schema" ["tableName"];
    mkTool "caspio_create_table" ["name"; "columns"];
    mkTool "caspio_delete_table" ["tableName"; "confirm"];
    mkTool "caspio_add_field" ["tableName"; "field"];
    mkTool "caspio_delete_field" ["tableName"; "fieldName"; "confirm"];
    mkTool "caspio_get_records" ["tableName"];
    mkTool "caspio_create_record" ["tableName"; "record"];
    mkTool "caspio_create_records" ["tableName"; "records"];
    mkTool "caspio_update_records" ["tableName"; "updates"; "where"];
    mkTool "caspio_delete_records" ["tableName"; "where"; "confirm"];
    mkTool "caspio_list_views" [];
    mkTool "caspio_get_view_schema" ["viewName"];
    mkTool "caspio_get_view_records" ["viewName"];
    mkTool "caspio_list_applications" [];
    mkTool "caspio_get_application" ["appName"];
    mkTool "caspio_list_files" [];
    mkTool "caspio_get_file_metadata" ["filePath"];
    mkTool "caspio_delete_file" ["filePath"; "confirm"];
    mkTool "caspio_list_tasks" [];
    mkTool "caspio_get_task" ["taskName"];
    mkTool "caspio_run_task" ["taskName"];
    mkTool "caspio_test_connection" [];
    mkTool "caspio_get_account_summary" [] ].

Section Executor.

(** The string a template literal makes of a value. *)
Variable toStr : JsVal -> string.
(** [JSON.stringify(v, null, 2)]. *)
Variable stringify : JsVal -> JsVal.

Definition executeTool (name : JsVal) (args : list (string * JsVal))
  : Prog JsVal :=
  let a := fun k => prop k args in
  let unknown := Throw (ErrorObj ("Unknown tool: " ++ toStr name)) in
  result <-
    match name with
    | VStr n =>
      switch n
        [ ("caspio_list_tables",
           tables <- await "listTables" [] ;;
           Ret (VObj [("tables", tables)]));
          ("caspio_get_table_schema",
           await "getTableDefinition" [a "tableName"]);
          ("caspio_create_table",
           _ <- await "createTable"
                  [VObj [("Name", a "name"); ("Note", a "note");
                         ("Columns", a "columns")]] ;;
           Ret (successMessage
                  ("Table '" ++ toStr (a "name") ++ "' created successfully")));
          ("caspio_delete_table",
           if negb (truthy (a "confirm")) then Throw (ErrorObj notConfirmed)
           else
             _ <- await "deleteTable" [a "tableName"] ;;
             Ret (successMessage
                    ("Table '" ++ toStr (a "tableName") ++ "' deleted")));
          ("caspio_add_field",
           _ <- await "addField" [a "tableName"; a "field"] ;;
           Ret (successMessage
                  ("Field added to '" ++ toStr (a "tableName") ++ "'")));
          ("caspio_delete_field",
           if negb (truthy (a "confirm")) then Throw (ErrorObj notConfirmed)
           else
             _ <- await "deleteField" [a "tableName"; a "fieldName"] ;;
             Ret (successMessage
                    ("Field '" ++ toStr (a "fieldName") ++ "' deleted from '"
                     ++ toStr (a "tableName") ++ "'")));
          ("caspio_get_records",
           records <- await "getRecords"
                        [a "tableName";
                         VObj [("where", a "where"); ("orderBy", a "orderBy");
                               ("limit", a "limit");
                               ("pageNumber", a "pageNumber");
                               ("pageSize", a "pageSize");
                               ("select", a "select");
                               ("groupBy", a "groupBy")]] ;;
           count <- lengthOf records ;;
           Ret (VObj [("records", records); ("count", count)]));
          ("caspio_create_record",
           record <- await "createRecord" [a "tableName"; a "record"] ;;
           Ret (VObj [("success", VBool true); ("record", record)]));
          ("caspio_create_records",
           createdRecords <-
             await "createRecords" [a "tableName"; a "records"] ;;
           count <- lengthOf createdRecords ;;
           Ret (VObj [("success", VBool true); ("records", createdRecords);
                      ("count", count)]));
          ("caspio_update_records",
           affected <- await "updateRecords"
                         [a "tableName"; a "updates"; a "where"] ;;
           Ret (VObj [("success", VBool true); ("recordsAffected", affected)]));
          ("caspio_delete_records",
           if negb (truthy (a "confirm")) then Throw (ErrorObj notConfirmed)
           else
             deleted <- await "deleteRecords" [a "tableName"; a "where"] ;;
             Ret (VObj [("success", VBool true); ("recordsDeleted", deleted)]));
          ("caspio_list_views",
           views <- await "listViews" [] ;;
           Ret (VObj [("views", views)]));
          ("caspio_get_view_schema",
           await "getViewDefinition" [a "viewName"]);
          ("caspio_get_view_records",
           viewRecords <- await "getViewRecords"
                            [a "viewName";
                             VObj [("where", a "where");
                                   ("orderBy", a "orderBy");
                                   ("limit", a "limit");
                                   ("pageNumber", a "pageNumber");
                                   ("pageSize", a "pageSize");
                                   ("select", a "select")]] ;;
           count <- lengthOf viewRecords ;;
           Ret (VObj [("records", viewRecords); ("count", count)]));
          ("caspio_list_applications",
           apps <- await "listApplications" [] ;;
           Ret (VObj [("applications", apps)]));
          ("caspio_get_application",
           await "getApplication" [a "appName"]);
          ("caspio_list_files",
           files <- await "listFiles"
                      [if truthy (a "folderPath") then a "folderPath"
                       else VStr "/"] ;;
           Ret (VObj [("files", files)]));
          ("caspio_get_file_metadata",
           await "getFileMetadata" [a "filePath"]);
          ("caspio_delete_file",
           if negb (truthy (a "confirm")) then Throw (ErrorObj notConfirmed)
           else
             _ <- await "deleteFile" [a "filePath"] ;;
             Ret (successMessage
                    ("File '" ++ toStr (a "filePath") ++ "' deleted")));
          ("caspio_list_tasks",
           tasks <- await "listTasks" [] ;;
           Ret (VObj [("tasks", tasks)]));
          ("caspio_get_task",
           await "getTask" [a "taskName"]);
          ("caspio_run_task",
           _ <- await "runTask" [a "taskName"] ;;
           Ret (successMessage
                  ("Task '" ++ toStr (a "taskName") ++ "' has been triggered")));
          ("caspio_test_connection",
           connected <- await "testConnection" [] ;;
           Ret (VObj [("connected", connected);
                      ("message", VStr "Connection successful")]));
          ("caspio_get_account_summary",
           await "getAccountSummary" []) ]
        unknown
    | _ => unknown
    end ;;
  Ret (textContent (stringify result)).

End Executor.

End Remote.

(* ------------------------------------------------------------------ *)
(** *** The protocol endpoint of the remote server *)

(** The body of a POST to [/mcp]: empty (or blank), not JSON, or a
    request envelope; [rpcParams] is [VUndefined] when there are none. *)
Record JsonRpcRequest : Type := mkRpc {
  rpcId : JsVal;
  rpcMethod : string;
  rpcParams : JsVal
}.

Inductive McpBody : Type :=
| EmptyBody
| InvalidJson
| Parsed (rpcRequest : JsonRpcRequest).

Definition rpcResult (id result : JsVal) : Response :=
  SendJson 200 (VObj [("jsonrpc", VStr "2.0"); ("id", id); ("result", result)]).

Definition rpcError (status : Z) (id : JsVal) (code : Z) (message : string)
  : Response :=
  SendJson status
    (VObj [("jsonrpc", VStr "2.0"); ("id", id);
           ("error", VObj [("code", VNum code); ("message", VStr message)])]).

Definition unauthenticatedMethods : list string :=
  ["initialize"; "tools/list"; "notifications/initialized";
   "resources/list"; "resources/read"].

Definition toolsJson (catalog : list ToolDef) : JsVal :=
  VArr (map (fun d =>
               VObj [("name", VStr (toolName d));
                     ("inputSchema",
                      VObj [("type", VStr "object");
                            ("required",
                             VArr (map VStr (toolRequired d)))])])
            catalog).

(** [s] without the prefix [p], when it starts with it. *)
Fixpoint dropPrefix (p s : string) : option string :=
  match p, s with
  | EmptyString, _ => Some s
  | String a p', String b s' =>
      if Ascii.eqb a b then dropPrefix p' s' else None
  | String _ _, EmptyString => None
  end.

(** The group of [^prefix([^/]+)/schema$] in [uri], when it matches. *)
Fixpoint segmentBeforeSchema (rest : string) : option string :=
  match rest with
  | EmptyString => None
  | String c r =>
      if Ascii.eqb c "/"%char then
        if String.eqb r "schema" then Some EmptyString else None
      else option_map (String c) (segmentBeforeSchema r)
  end.

Definition schemaUriName (prefix uri : string) : option string :=
  match dropPrefix prefix uri with
  | None => None
  | Some rest =>
      match segmentBeforeSchema rest with
      | Some EmptyString => None
      | other => other
      end
  end.

(** [v.map(f)] on a reply. *)
Definition mapArray (f : JsVal -> JsVal) (v : JsVal) : Prog (list JsVal) :=
  match v with
  | VArr items => Ret (map f items)
  | _ => Throw (ErrorObj "map is not a function")
  end.

(** The outcome of the protocol handler: the credentials the backend
    client was built with, if the gate was passed, and the program that
    ends in the reply. *)
Record McpRun : Type := mkMcpRun {
  mcpClient : option OAuthSession;
  mcpProgram : Prog Response
}.

Section Protocol.

(** [BASE_URL] of the configuration. *)
Variable BASE_URL : string.
Variable toStr : JsVal -> string.
Variable stringify : JsVal -> JsVal.
(** [decodeURIComponent]; [None] when it throws. *)
Variable decodeURIComponent : string -> option string.

Definition handleMcpMethodUnauthenticated (request : JsonRpcRequest)
  : Prog JsVal :=
  switch (rpcMethod request)
    [ ("initialize",
       Ret (VObj [("protocolVersion", VStr "2024-11-05");
                  ("serverInfo",
                   VObj [("name", VStr "caspio-mcp-server");
                         ("version", VStr "1.0.0")]);
                  ("capabilities", VObj [("tools", VObj [])])]));
      ("notifications/initialized", Ret (VObj []));
      ("tools/list",
       Ret (VObj [("tools", toolsJson Remote.toolDefinitions)]));
      ("resources/list", Ret (VObj [("resources", VArr [])]));
      ("resources/read",
       Throw (ErrorObj
                "Resources not available. Use caspio_get_table_schema or caspio_get_view_schema tools instead.")) ]
    (Throw (ErrorObj
              ("Method " ++ rpcMethod request ++ " requires authentication"))).

Definition schemaContents (uri : string) (schema : JsVal) : JsVal :=
  VObj [("contents",
         VArr [VObj [("uri", VStr uri);
                     ("mimeType", VStr "application/json");
                     ("text", stringify schema)]])].

Definition readSchema (method : string) (uri encoded : string) : Prog JsVal :=
  match decodeURIComponent encoded with
  | None => Throw (ErrorObj "URI malformed")
  | Some name =>
      schema <- await method [VStr name] ;;
      Ret (schemaContents uri schema)
  end.

Definition handleMcpMethodAuthenticated (request : JsonRpcRequest)
  : Prog JsVal :=
  let params :=
    match rpcParams request with
    | VUndefined => VObj []
    | v => v
    end in
  switch (rpcMethod request)
    [ ("tools/call",
       name <- member params "name" ;;
       arguments <- member params "arguments" ;;
       Remote.executeTool toStr stringify name
         (fieldsOf (if truthy arguments then arguments else VObj [])));
      ("resources/list",
       tryCatch
         (tables <- await "listTables" [] ;;
          views <- await "listViews" [] ;;
          ts <- mapArray
                  (fun t =>
                     VObj [("uri",
                            VStr ("caspio://tables/" ++ toStr t ++ "/schema"));
                           ("name", VStr ("Table: " ++ toStr t));
                           ("mimeType", VStr "application/json")])
                  tables ;;
          vs <- mapArray
                  (fun v =>
                     VObj [("uri",
                            VStr ("caspio://views/" ++ toStr v ++ "/schema"));
                           ("name", VStr ("View: " ++ toStr v));
                           ("mimeType", VStr "application/json")])
                  views ;;
          Ret (VObj [("resources", VArr (ts ++ vs))]))
         (fun _ => Ret (VObj [("resources", VArr [])])));
      ("resources/read",
       uriValue <- member params "uri" ;;
       match uriValue with
       | VStr uri =>
           match schemaUriName "caspio://tables/" uri with
           | Some encoded => readSchema "getTableDefinition" uri encoded
           | None =>
               match schemaUriName "caspio://views/" uri with
               | Some encoded => readSchema "getViewDefinition" uri encoded
               | None => Throw (ErrorObj ("Unknown resource: " ++ uri))
               end
           end
       | _ => Throw (ErrorObj "uri.match is not a function")
       end) ]
    (Throw (ErrorObj ("Unknown method: " ++ rpcMethod request))).

(** The [catch] of both [try] blocks of [handleMcpRequest]. *)
Definition rpcCatch (id : JsVal) (e : Thrown) : Prog Response :=
  Ret (rpcError 200 id (-32603) (messageOr "Internal error" e)).

Definition handleMcpRequest (authHeader : option string) (body : McpBody)
  (st : State) : McpRun :=
  match body with
  | EmptyBody =>
      mkMcpRun None
        (Ret (rpcResult VNull
                (VObj [("name", VStr "caspio-mcp-server");
                       ("version", VStr "1.0.0");
                       ("protocolVersion", VStr "2024-11-05")])))
  | InvalidJson =>
      mkMcpRun None
        (Ret (rpcError 400 VNull (-32700) "Parse error: Invalid JSON"))
  | Parsed rpcRequest =>
      if existsb (String.eqb (rpcMethod rpcRequest)) unauthenticatedMethods
      then
        mkMcpRun None
          (tryCatch
             (result <- handleMcpMethodUnauthenticated rpcRequest ;;
              Ret (rpcResult (rpcId rpcRequest) result))
             (rpcCatch (rpcId rpcRequest)))
      else
        match getSessionFromRequest authHeader st with
        | None =>
            mkMcpRun None
              (Ret (Unauthorized401
                      (BASE_URL ++ "/.well-known/oauth-protected-resource")
                      (VObj [("error", VStr "unauthorized")])))
        | Some session =>
            mkMcpRun (Some session)
              (tryCatch
                 (result <- handleMcpMethodAuthenticated rpcRequest ;;
                  Ret (rpcResult (rpcId rpcRequest) result))
                 (rpcCatch (rpcId rpcRequest)))
        end
  end.

End Protocol.

(* ------------------------------------------------------------------ *)
(** *** The executor of the local (stdio) server *)

Module Local.

Definition TOOLS : list ToolDef :=
  [ mkTool "caspio_list_tables" [];
    mkTool "caspio_get_table_schema" ["tableName"];
    mkTool "caspio_create_table" ["name"; "columns"];
    mkTool "caspio_delete_table" ["tableName"; "confirm"];
    mkTool "caspio_add_field" ["tableName"; "field"];
    mkTool "caspio_delete_field" ["tableName"; "fieldName"; "confirm"];
    mkTool "caspio_get_records" ["tableName"];
    mkTool "caspio_create_record" ["tableName"; "record"];
    mkTool "caspio_create_records" ["tableName"; "records"];
    mkTool "caspio_update_records" ["tableName"; "updates"; "where"];
    mkTool "caspio_delete_records" ["tableName"; "where"; "confirm"];
    mkTool "caspio_list_views" [];
    mkTool "caspio_get_view_schema" ["viewName"];
    mkTool "caspio_get_view_records" ["viewName"];
    mkTool "caspio_list_applications" [];
    mkTool "caspio_get_application" ["appName"];
    mkTool "caspio_list_files" [];
    mkTool "caspio_get_file_metadata" ["filePath"];
    mkTool "caspio_delete_file" ["filePath"; "confirm"];
    mkTool "caspio_list_tasks" [];
    mkTool "caspio_get_task" ["taskName"];
    mkTool "caspio_run_task" ["taskName"];
    mkTool "caspio_list_directories" [];
    mkTool "caspio_get_directory" ["directoryName"];
    mkTool "caspio_list_directory_users" ["directoryName"];
    mkTool "caspio_get_directory_user" ["directoryName"; "externalKey"];
    mkTool "caspio_create_directory_user" ["directoryName"; "user"];
    mkTool "caspio_update_directory_user"
      ["directoryName"; "externalKey"; "updates"];
    mkTool "caspio_delete_directory_user"
      ["directoryName"; "externalKey"; "confirm"];
    mkTool "caspio_activate_directory_user" ["directoryName"; "externalKey"];
    mkTool "caspio_deactivate_directory_user" ["directoryName"; "externalKey"];
    mkTool "caspio_authenticate_directory_user"
      ["directoryName"; "username"; "password"];
    mkTool "caspio_test_connection" [];
    mkTool "caspio_get_account_summary" [] ].

Section Executor.

Variable toStr : JsVal -> string.
Variable stringify : JsVal -> JsVal.
(** The message the SDK gives an [McpError] with this code and text. *)
Variable mcpMessage : Z -> string -> string.

(** [ErrorCode.MethodNotFound]. *)
Definition MethodNotFound : Z := -32601.

Definition queryOptions (a : string -> JsVal) (withGroupBy : bool) : JsVal :=
  VObj ([("select", a "select"); ("where", a "where");
         ("orderBy", a "orderBy")]
        ++ (if withGroupBy then [("groupBy", a "groupBy")] else [])
        ++ [("limit", a "limit"); ("pageNumber", a "pageNumber");
            ("pageSize", a "pageSize")]).

Definition executeTool (name : JsVal) (args : list (string * JsVal))
  : Prog JsVal :=
  let a := fun k => prop k args in
  let unknown :=
    Throw (ErrorObj (mcpMessage MethodNotFound
                       ("Unknown tool: " ++ toStr name))) in
  match name with
  | VStr n =>
    switch n
      [ ("caspio_list_tables",
         tables <- await "listTables" [] ;;
         Ret (VObj [("tables", tables)]));
        ("caspio_get_table_schema",
         tableDef <- await "getTableDefinition" [a "tableName"] ;;
         tableFields <- await "getTableFields" [a "tableName"] ;;
         Ret (VObj (JsMap.set "Fields" tableFields (fieldsOf tableDef))));
        ("caspio_create_table",
         _ <- await "createTable"
                [VObj [("Name", a "name"); ("Note", a "note");
                       ("Columns", a "columns")]] ;;
         Ret (successMessage
                ("Table '" ++ toStr (a "name") ++ "' created successfully")));
        ("caspio_delete_table",
         if negb (truthy (a "confirm")) then Throw (ErrorObj notConfirmed)
         else
           _ <- await "deleteTable" [a "tableName"] ;;
           Ret (successMessage
                  ("Table '" ++ toStr (a "tableName")
                   ++ "' deleted successfully")));
        ("caspio_add_field",
         _ <- await "addField" [a "tableName"; a "field"] ;;
         fieldName <- member (a "field") "Name" ;;
         Ret (successMessage
                ("Field '" ++ toStr fieldName ++ "' added to table '"
                 ++ toStr (a "tableName") ++ "'")));
        ("caspio_delete_field",
         if negb (truthy (a "confirm")) then Throw (ErrorObj notConfirmed)
         else
           _ <- await "deleteField" [a "tableName"; a "fieldName"] ;;
           Ret (successMessage
                  ("Field '" ++ toStr (a "fieldName")
                   ++ "' deleted from table '"
                   ++ toStr (a "tableName") ++ "'")));
        ("caspio_get_records",
         records <- await "getRecords"
                      [a "tableName"; queryOptions a true] ;;
         count <- lengthOf records ;;
         Ret (VObj [("records", records); ("count", count)]));
        ("caspio_create_record",
         created <- await "createRecord" [a "tableName"; a "record"] ;;
         Ret (VObj [("success", VBool true); ("record", created)]));
        ("caspio_create_records",
         created <- await "createRecords" [a "tableName"; a "records"] ;;
         count <- lengthOf created ;;
         Ret (VObj [("success", VBool true); ("records", created);
                    ("count", count)]));
        ("caspio_update_records",
         affected <- await "updateRecords"
                       [a "tableName"; a "updates"; a "where"] ;;
         Ret (VObj [("success", VBool true); ("recordsAffected", affected)]));
        ("caspio_delete_records",
         if negb (truthy (a "confirm")) then Throw (ErrorObj notConfirmed)
         else
           deleted <- await "deleteRecords" [a "tableName"; a "where"] ;;
           Ret (VObj [("success", VBool true); ("recordsDeleted", deleted)]));
        ("caspio_list_views",
         views <- await "listViews" [] ;;
         Ret (VObj [("views", views)]));
        ("caspio_get_view_schema",
         await "getViewDefinition" [a "viewName"]);
        ("caspio_get_view_records",
         records <- await "getViewRecords"
                      [a "viewName"; queryOptions a false] ;;
         count <- lengthOf records ;;
         Ret (VObj [("records", records); ("count", count)]));
        ("caspio_list_applications",
         apps <- await "listApplications" [] ;;
         Ret (VObj [("applications", apps)]));
        ("caspio_get_application",
         await "getApplication" [a "appName"]);
        ("caspio_list_files",
         files <- await "listFiles"
                    [if truthy (a "folderPath") then a "folderPath"
                     else VStr "/"] ;;
         Ret (VObj [("files", files)]));
        ("caspio_get_file_metadata",
         await "getFileMetadata" [a "filePath"]);
        ("caspio_delete_file",
         if negb (truthy (a "confirm")) then Throw (ErrorObj notConfirmed)
         else
           _ <- await "deleteFile" [a "filePath"] ;;
           Ret (successMessage
                  ("File '" ++ toStr (a "filePath")
                   ++ "' deleted successfully")));
        ("caspio_list_tasks",
         tasks <- await "listTasks" [] ;;
         Ret (VObj [("tasks", tasks)]));
        ("caspio_get_task",
         await "getTask" [a "taskName"]);
        ("caspio_run_task",
         _ <- await "runTask" [a "taskName"] ;;
         Ret (successMessage
                ("Task '" ++ toStr (a "taskName")
                 ++ "' started successfully")));
        ("caspio_list_directories",
         dirs <- await "listDirectories" [] ;;
         Ret (VObj [("directories", dirs)]));
        ("caspio_get_directory",
         await "getDirectory" [a "directoryName"]);
        ("caspio_list_directory_users",
         users <- await "listDirectoryUsers"
                    [a "directoryName"; queryOptions a false] ;;
         count <- lengthOf users ;;
         Ret (VObj [("users", users); ("count", count)]));
        ("caspio_get_directory_user",
         await "getDirectoryUser" [a "directoryName"; a "externalKey"]);
        ("caspio_create_directory_user",
         created <- await "createDirectoryUser"
                      [a "directoryName"; a "user"] ;;
         Ret (VObj [("success", VBool true); ("user", created)]));
        ("caspio_update_directory_user",
         updated <- await "updateDirectoryUser"
                      [a "directoryName"; a "externalKey"; a "updates"] ;;
         Ret (VObj [("success", VBool true); ("user", updated)]));
        ("caspio_delete_directory_user",
         if negb (truthy (a "confirm")) then Throw (ErrorObj notConfirmed)
         else
           _ <- await "deleteDirectoryUser"
                  [a "directoryName"; a "externalKey"] ;;
           Ret (successMessage
                  ("User deleted from directory '"
                   ++ toStr (a "directoryName") ++ "'")));
        ("caspio_activate_directory_user",
         _ <- await "activateDirectoryUser"
                [a "directoryName"; a "externalKey"] ;;
         Ret (successMessage
                ("User activated in directory '"
                 ++ toStr (a "directoryName") ++ "'")));
        ("caspio_deactivate_directory_user",
         _ <- await "deactivateDirectoryUser"
                [a "directoryName"; a "externalKey"] ;;
         Ret (successMessage
                ("User deactivated in directory '"
                 ++ toStr (a "directoryName") ++ "'")));
        ("caspio_authenticate_directory_user",
         authResult <- await "authenticateDirectoryUser"
                         [a "directoryName"; a "username"; a "password"] ;;
         Ret (VObj [("success", VBool true); ("authenticated", VBool true);
                    ("user", authResult)]));
        ("caspio_test_connection",
         connected <- await "testConnection" [] ;;
         Ret (VObj [("connected", connected);
                    ("message",
                     VStr (if truthy connected then "Connection successful"
                           else "Connection failed"))]));
        ("caspio_get_account_summary",
         await "getAccountSummary" []) ]
      unknown
  | _ => unknown
  end.

(** The handler of [CallToolRequestSchema]: [String(error)] is [toStr] of
    the thrown value. *)
Definition callTool (name : JsVal) (arguments : JsVal) : Prog JsVal :=
  tryCatch
    (result <- executeTool name
                 (fieldsOf (if truthy arguments then arguments else VObj [])) ;;
     Ret (textContent (stringify result)))
    (fun error =>
       let errorMessage :=
         match error with
         | ErrorObj m => m
         | ThrownValue v => toStr v
         end in
       Ret (VObj [("content",
                   VArr [VObj [("type", VStr "text");
                               ("text",
                                stringify
                                  (VObj [("error", VStr errorMessage)]))]]);
                  ("isError", VBool true)])).

End Executor.

End Local.

(* ================================================================== *)
(** ** The server as a transition system *)

(** What can happen to the registries: a request to one of the three
    OAuth endpoints, a tick of the janitor, a restart of the process (the
    registries are emptied and the sessions file is loaded), or the data
    directory becoming writable or not. *)
Inductive Event : Type :=
| EvAuthorize (query : Params) (randomBytes : list byte) (now : Z)
| EvSubmit (body : Params) (conn : ConnResult)
    (codeBytes sessionBytes : list byte) (nowExpiry nowCreated nowCode : Z)
| EvToken (body : Params) (accessBytes refreshBytes : list byte)
    (nowCheck nowIssue : Z)
| EvJanitor (now : Z)
| EvRestart (now : Z)
| EvDiskWritable (w : bool).

Definition is32 (bs : list byte) : bool := Nat.eqb (length bs) 32.

Definition heldAccessTokens (st : State) : list string :=
  map accessToken (JsMap.values (sessions st)).
Definition heldRefreshTokens (st : State) : list string :=
  map refreshToken (JsMap.values (sessions st)).

Definition inb (s : string) (l : list string) : bool :=
  existsb (String.eqb s) l.

(** The events the environment produces: [crypto.randomBytes(32)] returns
    32 bytes, and a token drawn from 256 random bits is not one that a
    stored session already holds. *)
Definition admissible (ev : Event) (st : State) : bool :=
  match ev with
  | EvAuthorize _ randomBytes _ => is32 randomBytes
  | EvSubmit _ _ codeBytes sessionBytes _ _ _ =>
      is32 codeBytes && is32 sessionBytes
  | EvToken _ accessBytes refreshBytes _ _ =>
      is32 accessBytes && is32 refreshBytes
      && negb (inb (generateId accessBytes) (heldAccessTokens st))
      && negb (inb (generateId refreshBytes) (heldRefreshTokens st))
  | EvJanitor _ | EvRestart _ | EvDiskWritable _ => true
  end.

(** The event mints the authorization code [c]. *)
Definition mints (c : string) (ev : Event) : bool :=
  match ev with
  | EvSubmit _ _ codeBytes _ _ _ _ => String.eqb (generateId codeBytes) c
  | _ => false
  end.

Section Machine.

Variable urlParses : string -> bool.

Definition dispatch (ev : Event) (st : State) : State * option Response :=
  match ev with
  | EvAuthorize query randomBytes now =>
      let r := handleAuthorize query randomBytes now st in
      (fst r, Some (snd r))
  | EvSubmit body conn codeBytes sessionBytes nowExpiry nowCreated nowCode =>
      let r := handleAuthorizeSubmit urlParses body conn codeBytes
                 sessionBytes nowExpiry nowCreated nowCode st in
      (fst r, Some (snd r))
  | EvToken body accessBytes refreshBytes nowCheck nowIssue =>
      let r := handleToken body accessBytes refreshBytes nowCheck nowIssue st in
      (fst r, Some (snd r))
  | EvJanitor now => (janitor now st, None)
  | EvRestart now => (startup now (disk st), None)
  | EvDiskWritable w =>
      (withDisk st (mkDisk (sessionsFile (disk st)) w), None)
  end.

Definition runEvents (evs : list Event) (st : State) : State :=
  fold_left (fun s ev => fst (dispatch ev s)) evs st.

(** Every event of the list is admissible in the state it meets. *)
Fixpoint admissibleRun (evs : list Event) (st : State) : bool :=
  match evs with
  | [] => true
  | ev :: r => admissible ev st && admissibleRun r (fst (dispatch ev st))
  end.

(** The states of the server: a first start on a disk without sessions
    file, then admissible events. *)
Inductive reachable : State -> Prop :=
| reach_boot (now : Z) (w : bool) :
    reachable (startup now (mkDisk Missing w))
| reach_step (st : State) (ev : Event) :
    reachable st -> admissible ev st = true ->
    reachable (fst (dispatch ev st)).

End Machine.

(** Each registry is a [Map]: one entry per key. *)
Definition wellFormed (st : State) : Prop :=
  NoDup (JsMap.keys (sessions st))
  /\ NoDup (JsMap.keys (pendingAuths st))
  /\ NoDup (JsMap.keys (authCodes st)).

(** No two entries under different keys carry the same non-empty token. *)
Definition tokensDistinct (tok : OAuthSession -> string)
  (m : JsMap.t OAuthSession) : Prop :=
  forall k1 s1 k2 s2,
    In (k1, s1) m -> In (k2, s2) m ->
    tok s1 = tok s2 -> tok s1 <> "" -> k1 = k2.

Definition sessionsOk (m : JsMap.t OAuthSession) : Prop :=
  NoDup (JsMap.keys m)
  /\ ~ In "" (JsMap.keys m)
  /\ tokensDistinct accessToken m
  /\ tokensDistinct refreshToken m
  /\ (forall k s, In (k, s) m -> refreshToken s <> "" -> accessToken s <> "").

Definition diskOk (d : Disk) : Prop :=
  match sessionsFile d with
  | Document data => sessionsOk data
  | Missing | Corrupt => True
  end.

Definition invariant (st : State) : Prop :=
  sessionsOk (sessions st) /\ diskOk (disk st).


(* ================================================================== *)
(** ** A scenario: the end-to-end example of the specification *)

(** A stand-in for the URL parser: an absolute https URL is accepted. *)
Definition httpsOnly (s : string) : bool := String.prefix "https://" s.

(** Thirty-two equal bytes, as a sample of [crypto.randomBytes(32)]. *)
Definition bytes32 (b : byte) : list byte := repeat b 32.

Definition authorizeQuery : Params :=
  [("response_type", "code"); ("client_id", "client-1");
   ("redirect_uri", "https://client.example/cb"); ("state", "xyz");
   ("code_challenge", "abc"); ("code_challenge_method", "S256")].

Definition submitBody (authId : string) : Params :=
  [("auth_id", authId);
   ("caspio_base_url", "https://c1abc123.caspio.com/");
   ("caspio_client_id", "client-id"); ("caspio_client_secret", "secret")].

Definition codeGrant (code : string) : Params :=
  [("grant_type", "authorization_code"); ("code", code)].

Definition refreshGrant (token : string) : Params :=
  [("grant_type", "refresh_token"); ("refresh_token", token)].

(** First start, on a disk without sessions file. *)
Definition booted : State := startup 0 (mkDisk Missing true).

(** Two users authorize and submit working credentials, one after the
    other; neither has exchanged the code yet. *)
Definition twoSubmissions : list Event :=
  [ EvAuthorize authorizeQuery (bytes32 x01) 1000;
    EvSubmit (submitBody (generateId (bytes32 x01))) Connected
      (bytes32 x02) (bytes32 x03) 2000 2000 2000;
    EvAuthorize authorizeQuery (bytes32 x11) 3000;
    EvSubmit (submitBody (generateId (bytes32 x11))) Connected
      (bytes32 x12) (bytes32 x13) 4000 4000 4000 ].

(** One user goes through the whole flow: authorize, submit, exchange. *)
Definition fullFlow : list Event :=
  [ EvAuthorize authorizeQuery (bytes32 x01) 1000;
    EvSubmit (submitBody (generateId (bytes32 x01))) Connected
      (bytes32 x02) (bytes32 x03) 2000 2000 2000;
    EvToken (codeGrant (generateId (bytes32 x02)))
      (bytes32 x04) (bytes32 x05) 3000 3000 ].

(** A backend that rejects every call with the text of the HTTP reply. *)
Definition rejecting (detail : string) : Backend :=
  fun _ _ _ => Threw (ErrorObj ("API request failed: 401 - " ++ detail)).

(** A backend that answers every call with an empty list. *)
Definition obliging : Backend := fun _ _ _ => Returned (VArr []).

Definition toolCall (name : string) (arguments : list (string * JsVal))
  : JsonRpcRequest :=
  mkRpc (VNum 7) "tools/call"
    (VObj [("name", VStr name); ("arguments", VObj arguments)]).

(* ================================================================== *)
(** ** Statements of the specification that are put to the test *)



(** Whatever else the request carries, a missing [redirect_uri] is
    answered with [invalid_request] and leaves the state alone. *)
Definition missingRedirectUriIsInvalidRequest : Prop :=
  forall query randomBytes now st,
    paramGet "redirect_uri" query = None ->
    errorCode (snd (handleAuthorize query randomBytes now st))
    = Some "invalid_request"
    /\ fst (handleAuthorize query randomBytes now st) = st.

(** The first token request for a code that a submission has minted
    succeeds, whenever it comes. *)
Definition firstRedemptionAlwaysSucceeds (urlParses : string -> bool) : Prop :=
  forall st body conn codeBytes sessionBytes t1 t2 t3 st1 location
         accessBytes refreshBytes nowCheck nowIssue,
    is32 codeBytes = true ->
    handleAuthorizeSubmit urlParses body conn codeBytes sessionBytes
      t1 t2 t3 st = (st1, Redirect302 location) ->
    snd (handleToken (codeGrant (redirectCode location))
           accessBytes refreshBytes nowCheck nowIssue st1)
    = tokenResponse (generateId accessBytes) (generateId refreshBytes).

(** A submission gets as far as the connection test. *)
Definition reachesConnectionTest (body : Params) (st : State) : Prop :=
  present (paramGet "auth_id" body) = true
  /\ JsMap.has (orEmpty (paramGet "auth_id" body)) (pendingAuths st) = true
  /\ present (option_map stripTrailingSlash (paramGet "caspio_base_url" body))
     = true
  /\ present (paramGet "caspio_client_id" body) = true
  /\ present (paramGet "caspio_client_secret" body) = true.

(** No event of the list mints the code [c] again. *)
Definition neverMints (c : string) (evs : list Event) : bool :=
  forallb (fun ev => negb (mints c ev)) evs.

(** Stand-ins for the library functions the protocol handler is
    parameterised by. *)
Definition showValue (v : JsVal) : string :=
  match v with
  | VStr s => s
  | _ => "[value]"
  end.

Definition keepValue (v : JsVal) : JsVal := v.

Definition decodePlain (s : string) : option string := Some s.

(** The reply to a protocol call does not depend on the text of the
    exception the backend answers with. *)
Definition backendFailureIsOpaque : Prop :=
  forall st authHeader rpcRequest session detail1 detail2,
    existsb (String.eqb (rpcMethod rpcRequest)) unauthenticatedMethods = false ->
    getSessionFromRequest authHeader st = Some session ->
    let program :=
      mcpProgram
        (handleMcpRequest "https://mcp.example" showValue keepValue
           decodePlain authHeader (Parsed rpcRequest) st) in
    fst (run (rejecting detail1) [] program)
    = fst (run (rejecting detail2) [] program).

(* ================================================================== *)
(** ** Notions used by the further properties *)

(** The credentials of a submission are all there. *)
Definition credentialsGiven (body : Params) : Prop :=
  present (option_map stripTrailingSlash (paramGet "caspio_base_url" body))
  = true
  /\ present (paramGet "caspio_client_id" body) = true
  /\ present (paramGet "caspio_client_secret" body) = true.

(** The program makes at most [n] calls, whatever the backend answers. *)
Fixpoint callsAtMost {A : Type} (n : nat) (p : Prog A) {struct p} : Prop :=
  match p with
  | Ret _ | Throw _ => True
  | Call _ _ k =>
      match n with
      | O => False
      | S n' => forall r, callsAtMost n' (k r)
      end
  end.

(** Every call the program can make satisfies [P]. *)
Fixpoint everyCall {A : Type} (P : string -> list JsVal -> Prop)
  (p : Prog A) : Prop :=
  match p with
  | Ret _ | Throw _ => True
  | Call m args k => P m args /\ forall r, everyCall P (k r)
  end.

(** A delete method is called only when [confirm] is truthy. *)
Definition deleteNeedsConfirm (args : list (string * JsVal))
  (method : string) (_ : list JsVal) : Prop :=
  String.prefix "delete" method = true -> truthy (prop "confirm" args) = true.

(** ** Reading an identifier back *)

(** The value of a hex digit: the number below sixteen that [hexDigit]
    writes as [c], if there is one. *)
Definition hexValue (c : ascii) : option N :=
  List.find (fun n => Ascii.eqb (hexDigit n) c)
    (List.map N.of_nat (List.seq 0 16)).

(** The bytes that a string of hex digits stands for: the inverse of
    [toHex], by which an identifier determines the random bytes it was
    made from. *)
Fixpoint fromHex (s : string) : option (list byte) :=
  match s with
  | EmptyString => Some []
  | String hi (String lo rest) =>
      match hexValue hi, hexValue lo, fromHex rest with
      | Some h, Some l, Some bs =>
          match Byte.of_N (16 * h + l) with
          | Some b => Some (b :: bs)
          | None => None
          end
      | _, _, _ => None
      end
  | String _ EmptyString => None
  end.

(** ** Discovery documents, registration and routing *)

Definition scopesSupported : JsVal :=
  VArr [VStr "caspio:read"; VStr "caspio:write"; VStr "caspio:admin"].


(** [handleAuthServerMetadata]. *)
Definition handleAuthServerMetadata (BASE_URL : string) : Response :=
  SendJson 200
    (VObj [("issuer", VStr BASE_URL);
           ("authorization_endpoint", VStr (BASE_URL ++ "/oauth/authorize"));
           ("token_endpoint", VStr (BASE_URL ++ "/oauth/token"));
           ("registration_endpoint", VStr (BASE_URL ++ "/oauth/register"));
           ("scopes_supported", scopesSupported);
           ("response_types_supported", VArr [VStr "code"]);
           ("grant_types_supported",
            VArr [VStr "authorization_code"; VStr "refresh_token"]);
           ("token_endpoint_auth_methods_supported",
            VArr [VStr "client_secret_basic"; VStr "client_secret_post";
                  VStr "none"]);
           ("code_challenge_methods_supported",
            VArr [VStr "S256"; VStr "plain"]);
           ("service_documentation",
            VStr "https://github.com/your-repo/caspio-mcp-server")]).

(** The member [name] of a JSON reply. *)
Definition replyMember (name : string) (r : Response) : JsVal :=
  match r with
  | SendJson _ (VObj fields) => prop name fields
  | _ => VUndefined
  end.

(** The strings of an array value. *)
Definition stringsOf (v : JsVal) : list string :=
  match v with
  | VArr items =>
      flat_map (fun x => match x with VStr s => [s] | _ => [] end) items
  | _ => []
  end.

(** [v || fallback]. *)
Definition orElse (v fallback : JsVal) : JsVal :=
  if truthy v then v else fallback.

(** [handleClientRegistration]; [parsed] is the result of [JSON.parse] on
    the body, [None] when it throws.  The body [null] parses, and reading
    its members throws, which the request listener answers with 500. *)
Definition handleClientRegistration (parsed : option JsVal)
  (idBytes secretBytes : list byte) : Response :=
  match parsed with
  | None => oauthError "invalid_request" "Invalid JSON"
  | Some VNull => internalError
  | Some data =>
      let clientId := generateId idBytes in
      let clientSecret := generateId secretBytes in
      SendJson 201
        (VObj [("client_id", VStr clientId);
               ("client_secret", VStr clientSecret);
               ("client_name",
                orElse (prop "client_name" (fieldsOf data)) (VStr "MCP Client"));
               ("redirect_uris",
                orElse (prop "redirect_uris" (fieldsOf data)) (VArr []));
               ("grant_types",
                VArr [VStr "authorization_code"; VStr "refresh_token"]);
               ("response_types", VArr [VStr "code"]);
               ("token_endpoint_auth_method",
                orElse (prop "token_endpoint_auth_method" (fieldsOf data))
                  (VStr "client_secret_basic"))])
  end.



(** ** [parseBasicAuth] *)

(** [s.split(sep)] for a separator of one character. *)
Fixpoint splitOn (sep : ascii) (s : string) : list string :=
  match s with
  | EmptyString => [EmptyString]
  | String c r =>
      if Ascii.eqb c sep then EmptyString :: splitOn sep r
      else
        match splitOn sep r with
        | piece :: pieces => String c piece :: pieces
        | [] => [String c EmptyString]
        end
  end.

(** [parseBasicAuth]; [base64Decode] is
    [Buffer.from(s, 'base64').toString()]. *)
Definition parseBasicAuth (base64Decode : string -> string) (header : string)
  : option (string * string) :=
  if negb (String.prefix "Basic " header) then None
  else
    let decoded :=
      base64Decode
        (String.substring 6 (String.length header - 6) header) in
    let pieces := splitOn ":" decoded in
    let clientId := nth_error pieces 0 in
    let clientSecret := nth_error pieces 1 in
    if negb (present clientId) then None
    else Some (orEmpty clientId, orEmpty clientSecret).

(** The character [sep] does not occur in [s]. *)
Fixpoint freeOf (sep : ascii) (s : string) : bool :=
  match s with
  | EmptyString => true
  | String c r => negb (Ascii.eqb c sep) && freeOf sep r
  end.

(** ** The configuration of the local server *)

(** What [parseArgs] returns: each member may be missing. *)
Record CliArgs : Type := mkCliArgs {
  argBaseUrl : option string;
  argClientId : option string;
  argClientSecret : option string
}.

(** [arg.split('=')[1]]. *)
Definition afterEquals (arg : string) : option string :=
  nth_error (splitOn "=" arg) 1.

(** The three last tests of the loop of [parseArgs], for an argument of
    the form [--name=value]. *)
Definition assignInline (arg : string) (config : CliArgs) : CliArgs :=
  if String.prefix "--base-url=" arg then
    mkCliArgs (afterEquals arg) (argClientId config) (argClientSecret config)
  else if String.prefix "--client-id=" arg then
    mkCliArgs (argBaseUrl config) (afterEquals arg) (argClientSecret config)
  else if String.prefix "--client-secret=" arg then
    mkCliArgs (argBaseUrl config) (argClientId config) (afterEquals arg)
  else config.

(** The loop of [parseArgs] from position [i], with the configuration
    built so far; the argument after a flag is taken as its value when it
    is there and not empty, and is then skipped. *)
Fixpoint parseArgsFrom (args : list string) (config : CliArgs) : CliArgs :=
  match args with
  | [] => config
  | arg :: rest =>
      match rest with
      | nextArg :: rest' =>
          if String.eqb arg "--base-url" && negb (String.eqb nextArg "") then
            parseArgsFrom rest'
              (mkCliArgs (Some nextArg) (argClientId config)
                 (argClientSecret config))
          else if String.eqb arg "--client-id"
                  && negb (String.eqb nextArg "") then
            parseArgsFrom rest'
              (mkCliArgs (argBaseUrl config) (Some nextArg)
                 (argClientSecret config))
          else if String.eqb arg "--client-secret"
                  && negb (String.eqb nextArg "") then
            parseArgsFrom rest'
              (mkCliArgs (argBaseUrl config) (argClientId config)
                 (Some nextArg))
          else parseArgsFrom rest (assignInline arg config)
      | [] => assignInline arg config
      end
  end.

(** [parseArgs]; [argv] is [process.argv.slice(2)]. *)
Definition parseArgs (argv : list string) : CliArgs :=
  parseArgsFrom argv (mkCliArgs None None None).

(** The three variables of the environment that [getConfig] reads. *)
Record Environment : Type := mkEnvironment {
  CASPIO_BASE_URL : option string;
  CASPIO_CLIENT_ID : option string;
  CASPIO_CLIENT_SECRET : option string
}.

Record CaspioConfig : Type := mkCaspioConfig {
  baseUrl : string;
  clientId : string;
  clientSecret : string
}.

(** [a || b] for two values that are a string or missing. *)
Definition orOption (a b : option string) : option string :=
  if present a then a else b.

Definition missingConfiguration : string :=
  "Missing required configuration.

Option 1 - Command-line arguments:
  --base-url <url>        Caspio base URL (e.g., https://c1abc123.caspio.com)
  --client-id <id>        API Client ID
  --client-secret <secret> API Client Secret

Option 2 - Environment variables:
  CASPIO_BASE_URL
  CASPIO_CLIENT_ID
  CASPIO_CLIENT_SECRET".

(** [getConfig]: the command line first, then the environment. *)
Definition getConfig (argv : list string) (env : Environment)
  : CaspioConfig + Thrown :=
  let args := parseArgs argv in
  let baseUrl := orOption (argBaseUrl args) (CASPIO_BASE_URL env) in
  let clientId := orOption (argClientId args) (CASPIO_CLIENT_ID env) in
  let clientSecret :=
    orOption (argClientSecret args) (CASPIO_CLIENT_SECRET env) in
  if negb (present baseUrl) || negb (present clientId)
     || negb (present clientSecret)
  then inr (ErrorObj missingConfiguration)
  else inl (mkCaspioConfig (orEmpty baseUrl) (orEmpty clientId)
              (orEmpty clientSecret)).

(* ================================================================== *)
(** ** Notions used for the tokens a refresh retires *)










(* ================================================================== *)
(** ** The [Authorization] header as the handler receives it *)

(** Space and horizontal tab, the optional white space around the value
    of a header field. *)
Definition isBlank (c : ascii) : bool :=
  Ascii.eqb c " " || Ascii.eqb c "009".

Fixpoint dropBlanks (s : string) : string :=
  match s with
  | EmptyString => EmptyString
  | String c r => if isBlank c then dropBlanks r else s
  end.

Fixpoint dropTrailingBlanks (s : string) : string :=
  match s with
  | EmptyString => EmptyString
  | String c r =>
      match dropTrailingBlanks r with
      | EmptyString => if isBlank c then EmptyString else String c EmptyString
      | kept => String c kept
      end
  end.

(** What Node's HTTP parser makes of the value of a header line: the
    blanks before and after it are not part of [req.headers[name]]. *)
Definition fieldValue (line : string) : string :=
  dropTrailingBlanks (dropBlanks line).

(** [req.headers.authorization] for a request whose [Authorization] line,
    if it has one, carries [line] after the colon. *)
Definition authorizationOf (line : option string) : option string :=
  option_map fieldValue line.

Fixpoint endsWithBlank (s : string) : bool :=
  match s with
  | EmptyString => false
  | String c EmptyString => isBlank c
  | String _ r => endsWithBlank r
  end.

(** For some state of the server, a request with the header line
    [Authorization: Bearer ] and nothing after the blank resolves a session
    at the gate. *)
Definition emptyBearerRequestPassesGate (urlParses : string -> bool) : Prop :=
  exists st session,
    reachable urlParses st
    /\ getSessionFromRequest (authorizationOf (Some " Bearer ")) st
       = Some session.

(* ================================================================== *)
(** * Properties *)

(** ** Facts about [JsMap] *)

Module JsMapFacts.
Import JsMap.

Section Facts.
Context {V : Type}.
Implicit Types (m : JsMap.t V) (k : string) (v : V).

Lemma get_set_same k v m : get k (set k v m) = Some v.
Proof.
  induction m as [|[k' v'] r IH]; simpl.
  - now rewrite String.eqb_refl.
  - destruct (String.eqb k' k) eqn:E; simpl; rewrite E; auto.
Qed.

Lemma get_set_other k k' v m : k <> k' -> get k' (set k v m) = get k' m.
Proof.
  intros Hne. induction m as [|[k0 v0] r IH]; simpl.
  - destruct (String.eqb k k') eqn:E; auto.
    apply String.eqb_eq in E. contradiction.
  - destruct (String.eqb k0 k) eqn:E; simpl.
    + apply String.eqb_eq in E. subst k0.
      destruct (String.eqb k k') eqn:E'; auto.
      apply String.eqb_eq in E'. contradiction.
    + now rewrite IH.
Qed.

Lemma get_delete_same k m : get k (delete k m) = None.
Proof.
  unfold delete. induction m as [|[k' v'] r IH]; simpl; auto.
  destruct (String.eqb k' k) eqn:E; simpl; auto. now rewrite E.
Qed.

Lemma get_delete_other k k' m : k <> k' -> get k' (delete k m) = get k' m.
Proof.
  intros Hne. unfold delete. induction m as [|[k0 v0] r IH]; simpl; auto.
  destruct (String.eqb k0 k) eqn:E; simpl.
  - apply String.eqb_eq in E. subst k0.
    destruct (String.eqb k k') eqn:E'; auto.
    apply String.eqb_eq in E'. contradiction.
  - now rewrite IH.
Qed.

Lemma get_In k v m : get k m = Some v -> In (k, v) m.
Proof.
  induction m as [|[k' v'] r IH]; simpl; try discriminate.
  destruct (String.eqb k' k) eqn:E; intros H.
  - apply String.eqb_eq in E. injection H as ->. subst. now left.
  - right. auto.
Qed.

Lemma get_None_notin k m : get k m = None -> ~ In k (keys m).
Proof.
  induction m as [|[k' v'] r IH]; simpl; auto.
  destruct (String.eqb k' k) eqn:E; try discriminate.
  intros H [Hk|Hk]; [|now apply IH].
  subst. now rewrite String.eqb_refl in E.
Qed.

Lemma notin_get_None k m : ~ In k (keys m) -> get k m = None.
Proof.
  induction m as [|[k' v'] r IH]; simpl; auto.
  intros H. destruct (String.eqb k' k) eqn:E.
  - apply String.eqb_eq in E. exfalso. apply H. now left.
  - apply IH. intros Hin. apply H. now right.
Qed.

Lemma In_keys k v m : In (k, v) m -> In k (keys m).
Proof. intros H. unfold keys. change k with (fst (k, v)). now apply in_map. Qed.

Lemma In_get k v m : NoDup (keys m) -> In (k, v) m -> get k m = Some v.
Proof.
  induction m as [|[k' v'] r IH]; simpl; [tauto|].
  intros Hnd [Heq|Hin]; inversion Hnd as [|? ? Hnotin Hnd']; subst.
  - injection Heq as -> ->. now rewrite String.eqb_refl.
  - destruct (String.eqb k' k) eqn:E; auto.
    apply String.eqb_eq in E. subst k'.
    exfalso. apply Hnotin. eapply In_keys; eauto.
Qed.

Lemma has_true k m : has k m = true <-> exists v, get k m = Some v.
Proof.
  unfold has. destruct (get k m); split; intros H; eauto; try discriminate.
  destruct H as [? H]. discriminate.
Qed.

Lemma has_false k m : has k m = false <-> get k m = None.
Proof.
  unfold has. destruct (get k m); split; intros H; auto; discriminate.
Qed.

Lemma in_set k v k0 v0 m :
  In (k, v) (set k0 v0 m) -> (k, v) = (k0, v0) \/ In (k, v) m.
Proof.
  induction m as [|[k' v'] r IH]; simpl.
  - intros [H|[]]. left. now symmetry.
  - destruct (String.eqb k' k0) eqn:E; simpl.
    + apply String.eqb_eq in E. subst k'.
      intros [H|H]; [left; now symmetry | right; now right].
    + intros [H|H]; [right; now left|].
      destruct (IH H); [now left | right; now right].
Qed.

Lemma keys_set k v m :
  keys (set k v m) = if has k m then keys m else (keys m ++ [k])%list.
Proof.
  unfold has. induction m as [|[k' v'] r IH]; simpl; auto.
  destruct (String.eqb k' k) eqn:E; simpl; auto.
  rewrite IH. now destruct (get k r).
Qed.

Lemma set_fresh k v m :
  ~ In k (keys m) -> set k v m = (m ++ [(k, v)])%list.
Proof.
  induction m as [|[k' v'] r IH]; simpl; auto.
  intros H. destruct (String.eqb k' k) eqn:E.
  - apply String.eqb_eq in E. exfalso. apply H. now left.
  - f_equal. apply IH. intros Hin. apply H. now right.
Qed.

Lemma NoDup_keys_set k v m : NoDup (keys m) -> NoDup (keys (set k v m)).
Proof.
  intros Hnd. rewrite keys_set. destruct (has k m) eqn:E; auto.
  apply has_false, get_None_notin in E.
  apply NoDup_app; auto.
  - constructor; [intros []|constructor].
  - intros x Hx [Hx'|[]]. subst. contradiction.
Qed.

Lemma keys_filter_incl (p : string * V -> bool) m x :
  In x (keys (filter p m)) -> In x (keys m).
Proof.
  unfold keys. rewrite !in_map_iff. intros [e [He Hin]].
  apply filter_In in Hin. exists e. tauto.
Qed.

Lemma NoDup_keys_filter (p : string * V -> bool) m :
  NoDup (keys m) -> NoDup (keys (filter p m)).
Proof.
  induction m as [|e r IH]; simpl; auto.
  intros Hnd. inversion Hnd as [|? ? Hnotin Hnd']; subst.
  destruct (p e); simpl; auto.
  constructor; auto. intros Hin. apply Hnotin.
  eapply keys_filter_incl; eauto.
Qed.

Lemma NoDup_keys_delete k m : NoDup (keys m) -> NoDup (keys (delete k m)).
Proof. apply NoDup_keys_filter. Qed.

Lemma in_delete k e m : In e (delete k m) -> In e m.
Proof. unfold delete. intros H. apply filter_In in H. tauto. Qed.

Lemma sweep_fold (dead : V -> bool) (l : JsMap.t V) : forall acc n,
  fst (fold_left (sweepStep dead) l (acc, n))
  = filter (fun e => negb (existsb (String.eqb (fst e)) (deadKeys dead l))) acc.
Proof.
  induction l as [|e r IH]; intros acc n; simpl.
  - induction acc as [|x acc' IHa]; simpl; auto. now f_equal.
  - unfold deadKeys, sweepStep at 2. simpl. destruct (dead (snd e)); simpl.
    + rewrite IH. unfold delete.
      induction acc as [|x acc' IHa]; simpl; auto.
      rewrite (String.eqb_sym (fst x) (fst e)).
      destruct (String.eqb (fst e) (fst x)); simpl; auto.
      destruct (existsb _ _); simpl; auto. now f_equal.
    + apply IH.
Qed.

Lemma sweep_sub (dead : V -> bool) m :
  exists p, fst (sweep dead m) = filter p m.
Proof. unfold sweep. rewrite sweep_fold. eauto. Qed.

Lemma sweep_filter (dead : V -> bool) m :
  NoDup (keys m) ->
  fst (sweep dead m) = filter (fun e => negb (dead (snd e))) m.
Proof.
  intros Hnd. unfold sweep. rewrite sweep_fold.
  apply filter_ext_in. intros [k v] Hin. simpl. f_equal.
  destruct (dead v) eqn:Ed.
  - apply existsb_exists. exists k. split; [|apply String.eqb_refl].
    unfold deadKeys. apply In_keys with (v := v).
    apply filter_In. auto.
  - apply not_true_is_false. intros H. apply existsb_exists in H.
    destruct H as [k' [Hk' Heq]]. apply String.eqb_eq in Heq. subst k'.
    unfold deadKeys, keys in Hk'. apply in_map_iff in Hk'.
    destruct Hk' as [[k2 v2] [Hfst Hin2]]. simpl in Hfst. subst k2.
    apply filter_In in Hin2. destruct Hin2 as [Hin2 Hd]. simpl in Hd.
    assert (get k m = Some v) as G1 by now apply In_get.
    assert (get k m = Some v2) as G2 by now apply In_get.
    congruence.
Qed.

Lemma get_filter_None (p : string * V -> bool) k m :
  get k m = None -> get k (filter p m) = None.
Proof.
  intros H. apply notin_get_None. intros Hin.
  apply (get_None_notin _ _ H). eapply keys_filter_incl; eauto.
Qed.

Lemma get_filter_Some (p : string * V -> bool) k v m :
  NoDup (keys m) -> get k m = Some v -> p (k, v) = true ->
  get k (filter p m) = Some v.
Proof.
  intros Hnd Hg Hp. apply In_get; [now apply NoDup_keys_filter|].
  apply filter_In. split; auto. now apply get_In.
Qed.

(** Copying a map entry by entry gives the map back. *)
Lemma fold_set_filter (p : string * V -> bool) (l : JsMap.t V) : forall acc,
  NoDup (keys (acc ++ l)%list) ->
  fold_left (fun a e => if p e then set (fst e) (snd e) a else a) l acc
  = (acc ++ filter p l)%list.
Proof.
  induction l as [|[k v] r IH]; intros acc Hnd; simpl.
  - now rewrite app_nil_r.
  - assert (NoDup (keys ((acc ++ [(k, v)]) ++ r)%list)) as Hnd'
      by now rewrite <- app_assoc.
    assert (~ In k (keys acc)) as Hk.
    { unfold keys in Hnd. rewrite map_app in Hnd. simpl in Hnd.
      intros Hin. apply NoDup_remove_2 in Hnd. apply Hnd.
      apply in_or_app. now left. }
    destruct (p (k, v)).
    + rewrite set_fresh by assumption. rewrite IH by assumption.
      now rewrite <- app_assoc.
    + apply IH. unfold keys in *. rewrite map_app in *. simpl in Hnd.
      now apply NoDup_remove_1 in Hnd.
Qed.

Lemma fold_set_id (m : JsMap.t V) :
  NoDup (keys m) ->
  fold_left (fun a e => set (fst e) (snd e) a) m empty = m.
Proof.
  intros Hnd.
  rewrite (fold_set_filter (fun _ => true) m empty Hnd). simpl.
  induction m as [|e r IH]; simpl; auto. f_equal. apply IH.
  now inversion Hnd.
Qed.

End Facts.
End JsMapFacts.

(** ** The functions on small inputs *)

Example generateId_sample :
  generateId [x00; x0f; xa5; xff] = "000fa5ff"
  /\ String.length (generateId (bytes32 x7e)) = 64%nat.
Proof. split; reflexivity. Qed.

Example stripTrailingSlash_sample :
  stripTrailingSlash "https://c1abc123.caspio.com/"
  = "https://c1abc123.caspio.com"
  /\ stripTrailingSlash "https://c1abc123.caspio.com//"
     = "https://c1abc123.caspio.com/"
  /\ stripTrailingSlash "a/b" = "a/b".
Proof. repeat split; reflexivity. Qed.

Example schemaUriName_sample :
  schemaUriName "caspio://tables/" "caspio://tables/Orders/schema"
  = Some "Orders"
  /\ schemaUriName "caspio://tables/" "caspio://tables//schema" = None
  /\ schemaUriName "caspio://tables/" "caspio://tables/a/b/schema" = None
  /\ schemaUriName "caspio://views/" "caspio://tables/Orders/schema" = None.
Proof. repeat split; reflexivity. Qed.

Example jsmap_sample :
  JsMap.set "b" 5 (JsMap.set "a" 2 (JsMap.set "b" 1 (JsMap.set "a" 0 [])))
  = [("a", 2); ("b", 5)]
  /\ JsMap.sweep (fun n => n <? 3) [("a", 2); ("b", 5); ("c", 1)]
     = ([("b", 5)], 2%nat).
Proof. split; reflexivity. Qed.

(** The end-to-end scenario of the specification: authorize, submit, the
    redirect with the code and the state, the exchange, a protocol call
    with the bearer token, and the same call without it. *)
Example end_to_end_scenario :
  let st := runEvents httpsOnly fullFlow booted in
  let call (header : option string) :=
    handleMcpRequest "https://mcp.example" showValue keepValue decodePlain
      header (Parsed (toolCall "caspio_list_tables" [])) st in
  snd (dispatch httpsOnly
         (EvSubmit (submitBody (generateId (bytes32 x01))) Connected
            (bytes32 x02) (bytes32 x03) 2000 2000 2000)
         (runEvents httpsOnly
            [EvAuthorize authorizeQuery (bytes32 x01) 1000] booted))
  = Some (Redirect302
            (mkRedirectUrl "https://client.example/cb"
               (generateId (bytes32 x02)) (Some "xyz")))
  /\ pendingAuths st = []
  /\ authCodes st = []
  /\ sessionsFile (disk st) = Document (sessions st)
  /\ run obliging []
       (mcpProgram (call (Some ("Bearer " ++ generateId (bytes32 x04)))))
     = (inl (rpcResult (VNum 7)
               (textContent (VObj [("tables", VArr [])]))),
        [("listTables", [])])
  /\ run obliging [] (mcpProgram (call None))
     = (inl (Unauthorized401
               "https://mcp.example/.well-known/oauth-protected-resource"
               (VObj [("error", VStr "unauthorized")])),
        []).
Proof. cbv zeta. repeat split; vm_compute; reflexivity. Qed.

(** ** Persistence and the janitor, field by field *)

Lemma saveSessions_sessions st : sessions (saveSessions st) = sessions st.
Proof. unfold saveSessions. now destruct (writable (disk st)). Qed.

Lemma saveSessions_pending st : pendingAuths (saveSessions st) = pendingAuths st.
Proof. unfold saveSessions. now destruct (writable (disk st)). Qed.

Lemma saveSessions_codes st : authCodes (saveSessions st) = authCodes st.
Proof. unfold saveSessions. now destruct (writable (disk st)). Qed.

Lemma saveSessions_disk st :
  NoDup (JsMap.keys (sessions st)) ->
  disk (saveSessions st)
  = if writable (disk st) then mkDisk (Document (sessions st)) true
    else disk st.
Proof.
  intros Hnd. unfold saveSessions. destruct (writable (disk st)); auto.
  simpl. now rewrite JsMapFacts.fold_set_id.
Qed.

Lemma setSession_sessions sid s st :
  sessions (setSession sid s st) = JsMap.set sid s (sessions st).
Proof. unfold setSession. now rewrite saveSessions_sessions. Qed.

Lemma setSession_pending sid s st :
  pendingAuths (setSession sid s st) = pendingAuths st.
Proof. unfold setSession. now rewrite saveSessions_pending. Qed.

Lemma setSession_codes sid s st :
  authCodes (setSession sid s st) = authCodes st.
Proof. unfold setSession. now rewrite saveSessions_codes. Qed.

Lemma startup_sessions now d :
  sessions (startup now d)
  = match sessionsFile d with
    | Document data =>
        fold_left
          (fun m e =>
             if expiresAt (snd e) >? now then JsMap.set (fst e) (snd e) m
             else m)
          data JsMap.empty
    | Missing | Corrupt => JsMap.empty
    end.
Proof. unfold startup, loadSessions. simpl. now destruct (sessionsFile d). Qed.

Lemma startup_disk now d : disk (startup now d) = d.
Proof. unfold startup, loadSessions. simpl. now destruct (sessionsFile d). Qed.

Lemma janitor_sessions now st :
  sessions (janitor now st)
  = fst (JsMap.sweep (fun s => expiresAt s <? now) (sessions st)).
Proof.
  unfold janitor.
  destruct (JsMap.sweep (fun s => expiresAt s <? now) (sessions st))
    as [live n]. simpl.
  destruct (0 <? n)%nat; simpl; auto. now rewrite saveSessions_sessions.
Qed.

Lemma janitor_pending now st :
  pendingAuths (janitor now st)
  = fst (JsMap.sweep (fun p => pendingCreatedAt p + 600000 <? now)
           (pendingAuths st)).
Proof.
  unfold janitor.
  destruct (JsMap.sweep (fun s => expiresAt s <? now) (sessions st))
    as [live n]. simpl.
  destruct (0 <? n)%nat; simpl; auto. now rewrite saveSessions_pending.
Qed.

Lemma janitor_codes now st :
  authCodes (janitor now st)
  = fst (JsMap.sweep (fun c => codeExpiresAt c <? now) (authCodes st)).
Proof.
  unfold janitor.
  destruct (JsMap.sweep (fun s => expiresAt s <? now) (sessions st))
    as [live n]. simpl.
  destruct (0 <? n)%nat; simpl; auto. now rewrite saveSessions_codes.
Qed.

(** ** Round trip through the sessions file *)

(** C7.  Saving a session store (one entry per key, on a disk that takes
    the write) and then starting the process at time [now] loads exactly
    the sessions with [expiresAt > now], in their order and with their
    records unchanged; a store without expired sessions comes back as it
    was. *)
Theorem save_then_load_keeps_live_sessions (st : State) (now : Z) :
  NoDup (JsMap.keys (sessions st)) ->
  writable (disk st) = true ->
  let reloaded := sessions (startup now (disk (saveSessions st))) in
  reloaded = filter (fun e => expiresAt (snd e) >? now) (sessions st)
  /\ (forall k s,
        JsMap.get k reloaded = Some s
        <-> JsMap.get k (sessions st) = Some s /\ expiresAt s > now)
  /\ ((forall k s, In (k, s) (sessions st) -> expiresAt s > now) ->
      reloaded = sessions st).
Proof.
  intros Hnd Hw reloaded.
  assert (reloaded = filter (fun e => expiresAt (snd e) >? now) (sessions st))
    as Hre.
  { unfold reloaded. rewrite startup_sessions, saveSessions_disk by assumption.
    rewrite Hw. simpl.
    exact (JsMapFacts.fold_set_filter
             (fun e => expiresAt (snd e) >? now) (sessions st) JsMap.empty Hnd). }
  split; [exact Hre|]. split.
  - intros k s. rewrite Hre. split.
    + intros Hg. apply JsMapFacts.get_In, filter_In in Hg.
      destruct Hg as [Hin Hlive]. simpl in Hlive. split.
      * now apply JsMapFacts.In_get.
      * lia.
    + intros [Hg Hlive]. apply JsMapFacts.get_filter_Some; auto.
      simpl. lia.
  - intros Hall. rewrite Hre.
    clear Hre reloaded Hnd. induction (sessions st) as [|[k s] r IH]; simpl; auto.
    assert (expiresAt s > now) as Hs by (apply (Hall k); now left).
    replace (expiresAt s >? now) with true by lia.
    f_equal. apply IH. intros k' s' Hin. apply (Hall k'). now right.
Qed.

(** ** The authorize endpoint *)

(** C6, as stated, fails: a request without [redirect_uri] and without
    [response_type=code] is answered with [unsupported_response_type],
    the test that the handler makes first. *)
Lemma missing_redirect_uri_not_always_invalid_request :
  ~ missingRedirectUriIsInvalidRequest.
Proof.
  intros H.
  destruct (H [("client_id", "client-1")] (bytes32 x01) 0 booted eq_refl)
    as [Hcode _].
  vm_compute in Hcode. discriminate.
Qed.

(** C6, amended.  An authorize request whose [redirect_uri] is missing (or
    empty) never adds a pending record: the state is unchanged.  With
    [response_type=code] the answer is 400 [invalid_request]; otherwise
    the answer is 400 [unsupported_response_type]. *)
Theorem authorize_without_redirect_uri
  (query : Params) (randomBytes : list byte) (now : Z) (st : State) :
  present (paramGet "redirect_uri" query) = false ->
  fst (handleAuthorize query randomBytes now st) = st
  /\ (paramGet "response_type" query = Some "code" ->
      snd (handleAuthorize query randomBytes now st)
      = oauthError "invalid_request" "redirect_uri required")
  /\ (paramGet "response_type" query <> Some "code" ->
      snd (handleAuthorize query randomBytes now st)
      = SendJson 400 (VObj [("error", VStr "unsupported_response_type")])).
Proof.
  intros Hmiss. unfold handleAuthorize. rewrite Hmiss. simpl.
  destruct (paramGet "response_type" query) as [rt|] eqn:Ert; simpl.
  - destruct (String.eqb rt "code") eqn:E; simpl.
    + apply String.eqb_eq in E. subst rt.
      repeat split; auto. intros Hne. now contradiction Hne.
    + apply String.eqb_neq in E.
      repeat split; auto. intros Heq. injection Heq as ->. contradiction.
  - repeat split; auto. discriminate.
Qed.

Lemma authorize_without_redirect_uri_witness :
  present (paramGet "redirect_uri" [("response_type", "code")]) = false
  /\ handleAuthorize [("response_type", "code")] (bytes32 x01) 0 booted
     = (booted, oauthError "invalid_request" "redirect_uri required").
Proof.
  split; [reflexivity|].
  pose proof (authorize_without_redirect_uri
                [("response_type", "code")] (bytes32 x01) 0 booted eq_refl)
    as [Hst [Hcode _]].
  specialize (Hcode eq_refl).
  rewrite <- Hst at 2. rewrite <- Hcode. now destruct (handleAuthorize _ _ _ _).
Defined.

(** ** The submission handler *)

Section Submission.

Variable urlParses : string -> bool.




End Submission.


(** ** The token endpoint and the code verifier *)

Lemma handleToken_reads body1 body2 ab rb n1 n2 st :
  paramGet "grant_type" body1 = paramGet "grant_type" body2 ->
  paramGet "code" body1 = paramGet "code" body2 ->
  paramGet "refresh_token" body1 = paramGet "refresh_token" body2 ->
  handleToken body1 ab rb n1 n2 st = handleToken body2 ab rb n1 n2 st.
Proof.
  intros Hg Hc Hr. unfold handleToken. now rewrite Hg, Hc, Hr.
Qed.

Lemma handleToken_frames_pending body ab rb n1 n2 st pend :
  handleToken body ab rb n1 n2 (withPending st pend)
  = (withPending (fst (handleToken body ab rb n1 n2 st)) pend,
     snd (handleToken body ab rb n1 n2 st)).
Proof.
  destruct st as [ss ps cs [file w]].
  unfold handleToken, setSession, saveSessions, withPending, withCodes,
    withSessions, withDisk. simpl.
  repeat match goal with
         | |- context [if ?c then _ else _] => destruct c; simpl
         | |- context [match ?o with Some _ => _ | None => _ end] =>
             destruct o; simpl
         | |- context [let (_, _) := ?p in _] => destruct p; simpl
         end; reflexivity.
Qed.

(** C8.  For the [authorization_code] grant, two token requests that agree
    on every parameter other than [code_verifier] (one of them may lack
    it) get the same answer and leave the same state.  The PKCE challenge
    is kept in the pending record only, and the endpoint neither reads nor
    writes the pending registry. *)
Theorem token_endpoint_ignores_code_verifier
  (body1 body2 : Params) (accessBytes refreshBytes : list byte)
  (nowCheck nowIssue : Z) (st : State) :
  (forall name, name <> "code_verifier" ->
                paramGet name body1 = paramGet name body2) ->
  paramGet "grant_type" body1 = Some "authorization_code" ->
  handleToken body1 accessBytes refreshBytes nowCheck nowIssue st
  = handleToken body2 accessBytes refreshBytes nowCheck nowIssue st
  /\ forall pending,
       handleToken body1 accessBytes refreshBytes nowCheck nowIssue
         (withPending st pending)
       = (withPending
            (fst (handleToken body1 accessBytes refreshBytes nowCheck
                    nowIssue st)) pending,
          snd (handleToken body1 accessBytes refreshBytes nowCheck
                 nowIssue st)).
Proof.
  intros Hagree _. split.
  - apply handleToken_reads; apply Hagree; discriminate.
  - intros pending. apply handleToken_frames_pending.
Qed.

Lemma token_endpoint_ignores_code_verifier_witness :
  let st := runEvents httpsOnly
              [ EvAuthorize authorizeQuery (bytes32 x01) 1000;
                EvSubmit (submitBody (generateId (bytes32 x01))) Connected
                  (bytes32 x02) (bytes32 x03) 2000 2000 2000 ] booted in
  let plain := codeGrant (generateId (bytes32 x02)) in
  let wrong := (plain ++ [("code_verifier", "not-the-verifier")])%list in
  verifyCodeChallenge (fun v => v) "not-the-verifier" "abc" "S256" = false
  /\ paramGet "grant_type" plain = Some "authorization_code"
  /\ handleToken wrong (bytes32 x04) (bytes32 x05) 3000 3000 st
     = handleToken plain (bytes32 x04) (bytes32 x05) 3000 3000 st
  /\ snd (handleToken wrong (bytes32 x04) (bytes32 x05) 3000 3000 st)
     = tokenResponse (generateId (bytes32 x04)) (generateId (bytes32 x05)).
Proof.
  cbv zeta. split; [reflexivity|]. split; [reflexivity|]. split.
  - symmetry.
    refine (proj1 (token_endpoint_ignores_code_verifier _ _ _ _ _ _ _ _ _)).
    + intros name Hne. unfold codeGrant. cbn [paramGet app].
      destruct (String.eqb "grant_type" name); auto.
      destruct (String.eqb "code" name); auto.
      destruct (String.eqb "code_verifier" name) eqn:E; auto.
      apply String.eqb_eq in E. subst name. now contradiction Hne.
    + reflexivity.
  - vm_compute. reflexivity.
Defined.

(** ** Identifiers *)

Lemma generateId_nonempty (bs : list byte) :
  is32 bs = true -> generateId bs <> "".
Proof.
  destruct bs as [|b r]; [discriminate|]. intros _.
  unfold generateId. simpl. discriminate.
Qed.

Lemma inb_false (s : string) (l : list string) :
  inb s l = false <-> ~ In s l.
Proof.
  unfold inb. split.
  - intros H Hin. assert (existsb (String.eqb s) l = true) as E.
    { apply existsb_exists. exists s. split; auto. apply String.eqb_refl. }
    congruence.
  - intros H. apply not_true_is_false. intros E.
    apply existsb_exists in E. destruct E as [x [Hin Heq]].
    apply String.eqb_eq in Heq. now subst.
Qed.

(** ** The invariant of the session store *)

Lemma In_token (tok : OAuthSession -> string) k s (m : JsMap.t OAuthSession) :
  In (k, s) m -> In (tok s) (map tok (JsMap.values m)).
Proof.
  intros H. apply in_map. unfold JsMap.values.
  change s with (snd (k, s)). now apply in_map.
Qed.

Lemma tokensDistinct_set tok m k s :
  tokensDistinct tok m ->
  (tok s = "" \/ ~ In (tok s) (map tok (JsMap.values m))) ->
  tokensDistinct tok (JsMap.set k s m).
Proof.
  intros Hm Hfresh k1 s1 k2 s2 H1 H2 Heq Hne.
  apply JsMapFacts.in_set in H1. apply JsMapFacts.in_set in H2.
  destruct H1 as [E1|H1], H2 as [E2|H2].
  - congruence.
  - injection E1 as -> ->. destruct Hfresh as [Hf|Hf]; [contradiction|].
    exfalso. apply Hf. rewrite Heq. eapply In_token; eauto.
  - injection E2 as -> ->. destruct Hfresh as [Hf|Hf]; [congruence|].
    exfalso. apply Hf. rewrite <- Heq. eapply In_token; eauto.
  - eapply Hm; eauto.
Qed.

Lemma tokensDistinct_filter tok (p : string * OAuthSession -> bool) m :
  tokensDistinct tok m -> tokensDistinct tok (filter p m).
Proof.
  intros Hm k1 s1 k2 s2 H1 H2. apply filter_In in H1, H2.
  apply Hm; tauto.
Qed.

Lemma sessionsOk_empty : sessionsOk JsMap.empty.
Proof.
  unfold sessionsOk, tokensDistinct, JsMap.empty. simpl.
  split; [constructor|]. repeat split; try tauto; intros ? ? ? ? [].
Qed.

Lemma sessionsOk_set m k s :
  sessionsOk m -> k <> "" ->
  (accessToken s = "" \/
   ~ In (accessToken s) (map accessToken (JsMap.values m))) ->
  (refreshToken s = "" \/
   ~ In (refreshToken s) (map refreshToken (JsMap.values m))) ->
  (refreshToken s <> "" -> accessToken s <> "") ->
  sessionsOk (JsMap.set k s m).
Proof.
  intros (Hnd & Hkeys & Ha & Hr & Hra) Hk Hfa Hfr Hs.
  split; [now apply JsMapFacts.NoDup_keys_set|].
  split; [|split; [|split]].
  - rewrite JsMapFacts.keys_set. destruct (JsMap.has k m); auto.
    intros Hin. apply in_app_or in Hin. destruct Hin as [Hin|[Hin|[]]]; auto.
  - now apply tokensDistinct_set.
  - now apply tokensDistinct_set.
  - intros k' s' Hin. apply JsMapFacts.in_set in Hin.
    destruct Hin as [E|Hin]; [injection E as -> ->; auto|eauto].
Qed.

Lemma sessionsOk_filter (p : string * OAuthSession -> bool) m :
  sessionsOk m -> sessionsOk (filter p m).
Proof.
  intros (Hnd & Hkeys & Ha & Hr & Hra).
  split; [now apply JsMapFacts.NoDup_keys_filter|].
  split; [|split; [|split]].
  - intros Hin. apply Hkeys. eapply JsMapFacts.keys_filter_incl; eauto.
  - now apply tokensDistinct_filter.
  - now apply tokensDistinct_filter.
  - intros k s Hin. apply filter_In in Hin. apply (Hra k). tauto.
Qed.

Lemma invariant_frame st st' :
  sessions st' = sessions st -> disk st' = disk st ->
  invariant st -> invariant st'.
Proof. unfold invariant. intros -> ->. auto. Qed.

Lemma invariant_saveSessions st : invariant st -> invariant (saveSessions st).
Proof.
  intros [Hs Hd]. split.
  - now rewrite saveSessions_sessions.
  - rewrite saveSessions_disk by apply Hs.
    destruct (writable (disk st)); auto.
Qed.

Lemma invariant_withSessions st m :
  invariant st -> sessionsOk m -> invariant (withSessions st m).
Proof. intros [_ Hd] Hm. split; auto. Qed.

Lemma invariant_setSession st k s :
  invariant st -> sessionsOk (JsMap.set k s (sessions st)) ->
  invariant (setSession k s st).
Proof.
  intros Hinv Hok. unfold setSession.
  now apply invariant_saveSessions, invariant_withSessions.
Qed.

Lemma invariant_janitor now st : invariant st -> invariant (janitor now st).
Proof.
  intros Hinv. unfold janitor.
  destruct (JsMap.sweep (fun s => expiresAt s <? now) (sessions st))
    as [live n] eqn:Esw.
  assert (invariant (withSessions st live)) as H1.
  { apply invariant_withSessions; auto.
    destruct (JsMapFacts.sweep_sub (fun s => expiresAt s <? now) (sessions st))
      as [p Hp].
    rewrite Esw in Hp. simpl in Hp. subst live.
    apply sessionsOk_filter, Hinv. }
  assert (invariant (if (0 <? n)%nat then saveSessions (withSessions st live)
                     else withSessions st live)) as H2.
  { destruct (0 <? n)%nat; [now apply invariant_saveSessions|exact H1]. }
  eapply invariant_frame; [| |exact H2]; reflexivity.
Qed.

Lemma invariant_startup now d : diskOk d -> invariant (startup now d).
Proof.
  intros Hd. split; [|now rewrite startup_disk].
  rewrite startup_sessions. unfold diskOk in Hd.
  destruct (sessionsFile d) as [| |data]; try apply sessionsOk_empty.
  rewrite (JsMapFacts.fold_set_filter
             (fun e => expiresAt (snd e) >? now) data JsMap.empty)
    by apply Hd.
  now apply sessionsOk_filter.
Qed.

Section Invariant.

Variable urlParses : string -> bool.

Lemma invariant_authorize query rb now st :
  invariant st -> invariant (fst (handleAuthorize query rb now st)).
Proof.
  intros Hinv. unfold handleAuthorize.
  destruct (negb (strictEq _ _)); auto.
  destruct (negb (present _)); auto.
Qed.

Lemma invariant_submit body conn cb sb t1 t2 t3 st :
  is32 sb = true -> invariant st ->
  invariant (fst (handleAuthorizeSubmit urlParses body conn cb sb t1 t2 t3 st)).
Proof.
  intros Hsb Hinv. unfold handleAuthorizeSubmit.
  destruct (_ || _); auto. destruct (_ || _); auto.
  destruct conn; auto.
  destruct (JsMap.get _ _) as [pending0|]; auto.
  match goal with
  | |- context [setSession ?k ?s ?st1] =>
      assert (invariant (setSession k s st1)) as Hset
  end.
  { apply invariant_setSession.
    - eapply invariant_frame; [| |exact Hinv]; reflexivity.
    - simpl. apply sessionsOk_set; simpl; auto.
      + apply Hinv.
      + now apply generateId_nonempty. }
  destruct (urlParses _); simpl;
    (eapply invariant_frame; [| |exact Hset]; reflexivity).
Qed.

Lemma invariant_token body ab rb n1 n2 st :
  admissible (EvToken body ab rb n1 n2) st = true -> invariant st ->
  invariant (fst (handleToken body ab rb n1 n2 st)).
Proof.
  intros Hadm Hinv. simpl in Hadm.
  apply andb_prop in Hadm. destruct Hadm as [Hadm Hfr].
  apply andb_prop in Hadm. destruct Hadm as [Hadm Hfa].
  apply andb_prop in Hadm. destruct Hadm as [Hab Hrb].
  apply negb_true_iff, inb_false in Hfa, Hfr.
  assert (forall k s,
             In k (JsMap.keys (sessions st)) ->
             sessionsOk
               (JsMap.set k
                  (mkSession (caspioBaseUrl s) (caspioClientId s)
                     (caspioClientSecret s) (generateId ab) (generateId rb)
                     (n2 + 86400000) (createdAt s))
                  (sessions st))) as Hok.
  { intros k s Hk. apply sessionsOk_set; simpl; auto.
    - apply Hinv.
    - intros ->. destruct Hinv as [(_ & Hkeys & _) _]. contradiction.
    - intros _. now apply generateId_nonempty. }
  unfold handleToken.
  destruct (strictEq _ "authorization_code").
  - destruct (_ || _); auto.
    destruct (JsMap.get _ (authCodes st)) as [codeData|]; auto.
    destruct (codeExpiresAt codeData <? n1); [exact Hinv|].
    destruct (JsMap.get (sessionId codeData) (sessions st)) as [s|] eqn:Es;
      auto.
    simpl. eapply invariant_frame; [reflexivity|reflexivity|].
    apply invariant_setSession; auto. apply Hok.
    eapply JsMapFacts.In_keys, JsMapFacts.get_In; eauto.
  - destruct (strictEq _ "refresh_token"); auto.
    destruct (negb (present _)); auto.
    destruct (JsMap.findEntry _ _) as [[fid fs]|] eqn:Ef; auto.
    destruct (String.eqb fid ""); auto.
    simpl. apply invariant_setSession; auto. apply Hok.
    apply find_some in Ef. eapply JsMapFacts.In_keys. apply Ef.
Qed.

Lemma invariant_dispatch ev st :
  admissible ev st = true -> invariant st ->
  invariant (fst (dispatch urlParses ev st)).
Proof.
  intros Hadm Hinv. destruct ev; simpl.
  - now apply invariant_authorize.
  - simpl in Hadm. apply andb_prop in Hadm. now apply invariant_submit.
  - now apply invariant_token.
  - now apply invariant_janitor.
  - apply invariant_startup, Hinv.
  - split; [apply Hinv|]. destruct Hinv as [_ Hd]. exact Hd.
Qed.

Lemma reachable_invariant st : reachable urlParses st -> invariant st.
Proof.
  induction 1 as [now w|st ev _ IH Hadm].
  - apply invariant_startup. exact I.
  - now apply invariant_dispatch.
Qed.

Lemma reachable_run evs : forall st,
  reachable urlParses st -> admissibleRun urlParses evs st = true ->
  reachable urlParses (runEvents urlParses evs st).
Proof.
  induction evs as [|ev r IH]; intros st Hr Hadm; simpl; auto.
  simpl in Hadm. apply andb_prop in Hadm. destruct Hadm as [Ha Hrest].
  apply IH; auto. now apply reach_step.
Qed.

End Invariant.

(** ** Uniqueness of access tokens *)




(** The proviso on the drawn tokens is needed: nothing in the token
    endpoint compares a new token with the stored ones, so a second
    exchange that is handed the bytes of the first leaves two sessions
    with the same non-empty access token. *)
Example repeated_draw_gives_equal_tokens :
  let st := runEvents httpsOnly
              (twoSubmissions
               ++ [EvToken (codeGrant (generateId (bytes32 x02)))
                     (bytes32 x04) (bytes32 x05) 5000 5000])%list
              booted in
  let again :=
    EvToken (codeGrant (generateId (bytes32 x12)))
      (bytes32 x04) (bytes32 x15) 6000 6000 in
  admissible again st = false
  /\ map (fun e => accessToken (snd e))
       (sessions (fst (dispatch httpsOnly again st)))
     = [generateId (bytes32 x04); generateId (bytes32 x04)].
Proof. cbv zeta. split; vm_compute; reflexivity. Qed.

(** ** Refresh rotates both tokens *)

Lemma in_set_strong {V : Type} k (v : V) k0 v0 (m : JsMap.t V) :
  NoDup (JsMap.keys m) ->
  In (k, v) (JsMap.set k0 v0 m) ->
  (k, v) = (k0, v0) \/ (k <> k0 /\ In (k, v) m).
Proof.
  intros Hnd Hin. destruct (string_dec k k0) as [->|Hne].
  - left. f_equal.
    apply JsMapFacts.In_get in Hin;
      [|now apply JsMapFacts.NoDup_keys_set].
    rewrite JsMapFacts.get_set_same in Hin. congruence.
  - right. split; auto. apply JsMapFacts.in_set in Hin.
    destruct Hin as [E|Hin]; auto. congruence.
Qed.

Lemma substring_all (s : string) : String.substring 0 (String.length s) s = s.
Proof. induction s as [|c r IH]; simpl; auto. now rewrite IH. Qed.

Lemma bearer_slice (token : string) :
  String.substring 7 (String.length ("Bearer " ++ token) - 7)
    ("Bearer " ++ token) = token.
Proof.
  change ("Bearer " ++ token)
    with (String "B" (String "e" (String "a" (String "r" (String "e"
            (String "r" (String " " token))))))).
  cbn [String.length Nat.sub String.substring].
  rewrite Nat.sub_0_r. apply substring_all.
Qed.

Lemma bearer_prefix (token : string) :
  String.prefix "Bearer " ("Bearer " ++ token) = true.
Proof. simpl. now destruct token. Qed.

Lemma bearer_token (token : string) (st : State) :
  getSessionFromRequest (Some ("Bearer " ++ token)) st
  = option_map snd
      (JsMap.findEntry (fun _ s => String.eqb (accessToken s) token)
         (sessions st)).
Proof.
  unfold getSessionFromRequest.
  now rewrite bearer_prefix, bearer_slice.
Qed.

(** No session of [m] satisfies [p]: the scan finds nothing. *)
Lemma findEntry_none {V : Type} (p : string -> V -> bool) (m : JsMap.t V) :
  (forall k v, In (k, v) m -> p k v = false) -> JsMap.findEntry p m = None.
Proof.
  intros H. unfold JsMap.findEntry.
  destruct (find _ m) as [[k v]|] eqn:E; auto.
  apply find_some in E. destruct E as [Hin Hp]. simpl in Hp.
  rewrite (H _ _ Hin) in Hp. discriminate.
Qed.

(** After a session has been given fresh tokens, a token that only it
    held is held by no session. *)
Lemma retired_token_is_gone (tok : OAuthSession -> string) m sid s s' :
  NoDup (JsMap.keys m) -> tokensDistinct tok m ->
  In (sid, s) m -> tok s <> "" -> tok s' <> tok s ->
  JsMap.findEntry (fun _ x => String.eqb (tok x) (tok s)) (JsMap.set sid s' m)
  = None.
Proof.
  intros Hnd Hd Hin Hne Hnew. apply findEntry_none. intros k v Hkv.
  apply String.eqb_neq. intros Heq.
  apply in_set_strong in Hkv; auto. destruct Hkv as [E|[Hk Hkv]].
  - injection E as -> ->. contradiction.
  - apply Hk. eapply Hd; eauto.
    rewrite Heq. exact Hne.
Qed.

(** *** Tokens that no session holds stay away *)



Section Retirement.

Variable urlParses : string -> bool.
Variables a r : string.








Hypothesis a_issued : a <> "".
Hypothesis r_issued : r <> "".





End Retirement.




(** ** Authorization codes are used once *)

Section SingleUse.

Variable urlParses : string -> bool.

(** What a submission that ends in a redirect has done. *)
Lemma submit_redirect_inv body conn cb sb t1 t2 t3 st st1 location :
  handleAuthorizeSubmit urlParses body conn cb sb t1 t2 t3 st
  = (st1, Redirect302 location) ->
  redirectCode location = generateId cb
  /\ authCodes st1
     = JsMap.set (generateId cb)
         (mkAuthCode (generateId sb) (t3 + 600000)) (authCodes st)
  /\ exists created,
       sessions st1 = JsMap.set (generateId sb) created (sessions st)
       /\ accessToken created = "" /\ refreshToken created = "".
Proof.
  unfold handleAuthorizeSubmit, oauthError, formError, internalError.
  destruct (_ || _); [discriminate|]. destruct (_ || _); [discriminate|].
  destruct conn; try discriminate.
  destruct (JsMap.get _ _) as [pending0|]; [|discriminate].
  destruct (urlParses _); [|discriminate].
  intros H. injection H as <- <-. simpl.
  rewrite setSession_codes, setSession_sessions. simpl.
  split; [reflexivity|]. split; [reflexivity|].
  eexists. split; [reflexivity|]. simpl. auto.
Qed.

(** A token request for a code that is not registered. *)
Lemma unknown_code_is_invalid_grant body ab rb n1 n2 st c :
  paramGet "grant_type" body = Some "authorization_code" ->
  paramGet "code" body = Some c ->
  JsMap.get c (authCodes st) = None ->
  handleToken body ab rb n1 n2 st
  = (st, oauthError "invalid_grant" "Invalid or expired code").
Proof.
  intros Hg Hc Hnone. unfold handleToken. rewrite Hg, Hc. simpl strictEq.
  cbv iota. simpl orEmpty. apply JsMapFacts.has_false in Hnone.
  rewrite Hnone. now rewrite orb_true_r.
Qed.

(** A code that is not registered stays so, unless a submission mints it. *)
Lemma absent_code_stays_absent c ev st :
  JsMap.get c (authCodes st) = None -> mints c ev = false ->
  JsMap.get c (authCodes (fst (dispatch urlParses ev st))) = None.
Proof.
  intros Hnone Hmint. destruct ev; simpl.
  - unfold handleAuthorize.
    destruct (negb (strictEq _ _)); auto. destruct (negb (present _)); auto.
  - simpl in Hmint. apply String.eqb_neq in Hmint.
    unfold handleAuthorizeSubmit.
    destruct (_ || _); auto. destruct (_ || _); auto.
    destruct conn; auto.
    destruct (JsMap.get _ (pendingAuths st)); auto.
    destruct (urlParses _); simpl; rewrite setSession_codes; simpl;
      now rewrite JsMapFacts.get_set_other.
  - unfold handleToken.
    destruct (strictEq _ "authorization_code").
    + destruct (_ || _); auto.
      destruct (JsMap.get (orEmpty (paramGet "code" body)) (authCodes st))
        as [codeData|]; auto.
      destruct (codeExpiresAt codeData <? nowCheck); simpl.
      * now apply JsMapFacts.get_filter_None.
      * destruct (JsMap.get _ (sessions st)); auto. simpl.
        apply JsMapFacts.get_filter_None. now rewrite setSession_codes.
    + destruct (strictEq _ "refresh_token"); auto.
      destruct (negb (present _)); auto.
      destruct (JsMap.findEntry _ _) as [[fid fs]|]; auto.
      destruct (String.eqb fid ""); auto. simpl.
      now rewrite setSession_codes.
  - rewrite janitor_codes.
    destruct (JsMapFacts.sweep_sub (fun x => codeExpiresAt x <? now)
                (authCodes st)) as [p ->].
    now apply JsMapFacts.get_filter_None.
  - unfold startup, loadSessions. simpl.
    now destruct (sessionsFile (disk st)).
  - exact Hnone.
Qed.

Lemma absent_code_stays_absent_run c evs : forall st,
  JsMap.get c (authCodes st) = None -> neverMints c evs = true ->
  JsMap.get c (authCodes (runEvents urlParses evs st)) = None.
Proof.
  induction evs as [|ev r IH]; intros st Hnone Hnever; simpl; auto.
  simpl in Hnever. apply andb_prop in Hnever. destruct Hnever as [Hev Hr].
  apply IH; auto. apply absent_code_stays_absent; auto.
  now apply negb_true_iff.
Qed.

(** A token request for a registered code that has not expired and whose
    session is stored. *)
Lemma redeem_registered_code request ab rb nowCheck nowIssue st c codeData s :
  paramGet "grant_type" request = Some "authorization_code" ->
  paramGet "code" request = Some c ->
  c <> "" ->
  JsMap.get c (authCodes st) = Some codeData ->
  JsMap.get (sessionId codeData) (sessions st) = Some s ->
  nowCheck <= codeExpiresAt codeData ->
  handleToken request ab rb nowCheck nowIssue st
  = (withCodes
       (setSession (sessionId codeData)
          (mkSession (caspioBaseUrl s) (caspioClientId s)
             (caspioClientSecret s) (generateId ab) (generateId rb)
             (nowIssue + 86400000) (createdAt s)) st)
       (JsMap.delete c (authCodes st)),
     tokenResponse (generateId ab) (generateId rb)).
Proof.
  intros Hgrant Hcode Hne Hgetc Hgets Hlive.
  assert (present (Some c) = true) as Hpres
    by (simpl; now apply negb_true_iff, String.eqb_neq).
  assert (JsMap.has c (authCodes st) = true) as Hhas
    by (apply JsMapFacts.has_true; eauto).
  unfold handleToken. rewrite Hgrant, Hcode. simpl strictEq.
  cbv iota. simpl orEmpty. rewrite Hpres, Hhas. simpl orb. cbv iota.
  rewrite Hgetc.
  replace (codeExpiresAt codeData <? nowCheck) with false by lia.
  rewrite Hgets. now rewrite setSession_codes.
Qed.

(** C1, amended.  A submission that ends in a redirect registers the code
    it hands out, for ten minutes and bound to the session it stored.  A
    token request with that code, made while the code is registered, its
    session stored and its expiry time not passed, is answered with a pair
    of tokens and removes the code.  After that, whatever happens to the
    server short of a submission minting the very same code again, every
    token request with the code is answered with [invalid_grant]. *)
Theorem authorization_code_is_single_use
  (st : State) (body : Params) (conn : ConnResult)
  (codeBytes sessionBytes : list byte) (nowExpiry nowCreated nowCode : Z)
  (st1 : State) (location : RedirectUrl) :
  is32 codeBytes = true ->
  handleAuthorizeSubmit urlParses body conn codeBytes sessionBytes
    nowExpiry nowCreated nowCode st = (st1, Redirect302 location) ->
  let code := redirectCode location in
  (exists created,
      JsMap.get code (authCodes st1)
      = Some (mkAuthCode (generateId sessionBytes) (nowCode + 600000))
      /\ JsMap.get (generateId sessionBytes) (sessions st1) = Some created)
  /\ (forall st2 codeData session request accessBytes refreshBytes
             nowCheck nowIssue,
        JsMap.get code (authCodes st2) = Some codeData ->
        JsMap.get (sessionId codeData) (sessions st2) = Some session ->
        nowCheck <= codeExpiresAt codeData ->
        paramGet "grant_type" request = Some "authorization_code" ->
        paramGet "code" request = Some code ->
        let first :=
          handleToken request accessBytes refreshBytes nowCheck nowIssue st2 in
        snd first
        = tokenResponse (generateId accessBytes) (generateId refreshBytes)
        /\ JsMap.has code (authCodes (fst first)) = false
        /\ (forall later request' ab rb n1 n2,
              neverMints code later = true ->
              paramGet "grant_type" request' = Some "authorization_code" ->
              paramGet "code" request' = Some code ->
              snd (handleToken request' ab rb n1 n2
                     (runEvents urlParses later (fst first)))
              = oauthError "invalid_grant" "Invalid or expired code")).
Proof.
  intros Hcb Hsubmit code.
  destruct (submit_redirect_inv _ _ _ _ _ _ _ _ _ _ Hsubmit)
    as (Hloc & Hcodes & created & Hsess & _).
  unfold code. rewrite Hloc. split.
  - exists created. rewrite Hcodes, Hsess.
    split; apply JsMapFacts.get_set_same.
  - intros st2 codeData session request accessBytes refreshBytes
      nowCheck nowIssue Hgetc Hgets Hlive Hgrant Hcode.
    cbv zeta.
    set (first := handleToken request accessBytes refreshBytes
                    nowCheck nowIssue st2).
    assert (generateId codeBytes <> "") as Hne
      by now apply generateId_nonempty.
    assert (JsMap.get (generateId codeBytes) (authCodes (fst first)) = None)
      as Hgone.
    { unfold first. erewrite redeem_registered_code; eauto.
      simpl. apply JsMapFacts.get_delete_same. }
    split; [|split].
    + unfold first. erewrite redeem_registered_code; eauto.
    + now apply JsMapFacts.has_false.
    + intros later request' ab rb n1 n2 Hnever Hg' Hc'.
      erewrite unknown_code_is_invalid_grant; eauto.
      now apply absent_code_stays_absent_run.
Qed.

End SingleUse.

(** C1, as stated, fails: a first token request that comes after the ten
    minutes of the code is answered with [invalid_grant]. *)
Lemma late_first_redemption_is_refused :
  ~ firstRedemptionAlwaysSucceeds httpsOnly.
Proof.
  intros H.
  pose (st := runEvents httpsOnly
                [EvAuthorize authorizeQuery (bytes32 x01) 1000] booted).
  pose (r := handleAuthorizeSubmit httpsOnly
               (submitBody (generateId (bytes32 x01))) Connected
               (bytes32 x02) (bytes32 x03) 2000 2000 2000 st).
  assert (r = (fst r,
               Redirect302
                 (mkRedirectUrl "https://client.example/cb"
                    (generateId (bytes32 x02)) (Some "xyz")))) as Hsubmit
    by (vm_compute; reflexivity).
  pose proof (H st (submitBody (generateId (bytes32 x01))) Connected
                (bytes32 x02) (bytes32 x03) 2000 2000 2000 _ _
                (bytes32 x04) (bytes32 x05) 700000 700000 eq_refl Hsubmit)
    as Hsucc.
  apply (f_equal errorCode) in Hsucc.
  vm_compute in Hsucc. discriminate.
Qed.

Lemma authorization_code_is_single_use_witness :
  let st := runEvents httpsOnly
              [EvAuthorize authorizeQuery (bytes32 x01) 1000] booted in
  let submitted :=
    handleAuthorizeSubmit httpsOnly (submitBody (generateId (bytes32 x01)))
      Connected (bytes32 x02) (bytes32 x03) 2000 2000 2000 st in
  let code := generateId (bytes32 x02) in
  let first :=
    handleToken (codeGrant code) (bytes32 x04) (bytes32 x05) 3000 3000
      (fst submitted) in
  is32 (bytes32 x02) = true
  /\ snd submitted
     = Redirect302 (mkRedirectUrl "https://client.example/cb" code (Some "xyz"))
  /\ snd first
     = tokenResponse (generateId (bytes32 x04)) (generateId (bytes32 x05))
  /\ snd (handleToken (codeGrant code) (bytes32 x06) (bytes32 x07) 4000 4000
            (runEvents httpsOnly [EvJanitor 3500] (fst first)))
     = oauthError "invalid_grant" "Invalid or expired code".
Proof.
  cbv zeta.
  set (st := runEvents httpsOnly
               [EvAuthorize authorizeQuery (bytes32 x01) 1000] booted).
  set (submitted :=
         handleAuthorizeSubmit httpsOnly
           (submitBody (generateId (bytes32 x01)))
           Connected (bytes32 x02) (bytes32 x03) 2000 2000 2000 st).
  assert (submitted
          = (fst submitted,
             Redirect302
               (mkRedirectUrl "https://client.example/cb"
                  (generateId (bytes32 x02)) (Some "xyz")))) as Hsubmit
    by (vm_compute; reflexivity).
  destruct (authorization_code_is_single_use httpsOnly st
              (submitBody (generateId (bytes32 x01))) Connected
              (bytes32 x02) (bytes32 x03) 2000 2000 2000
              (fst submitted) _ eq_refl Hsubmit)
    as ((created & Hcode & Hsession) & Hredeem).
  assert (3000 <= codeExpiresAt
                    (mkAuthCode (generateId (bytes32 x03)) (2000 + 600000)))
    as Hlive by (simpl; lia).
  destruct (Hredeem (fst submitted) _ _
              (codeGrant (generateId (bytes32 x02)))
              (bytes32 x04) (bytes32 x05) 3000 3000
              Hcode Hsession Hlive eq_refl eq_refl)
    as (Hfirst & _ & Hlater).
  split; [reflexivity|]. split; [now rewrite Hsubmit|]. split; [exact Hfirst|].
  exact (Hlater [EvJanitor 3500] (codeGrant (generateId (bytes32 x02)))
           (bytes32 x06) (bytes32 x07) 4000 4000 eq_refl eq_refl eq_refl).
Defined.


(** ** Programs: running, catching, rethrowing *)

Section Programs.
Context {A B : Type}.

Lemma rethrows_bind (p : Prog A) (f : A -> Prog B) :
  rethrows p -> (forall a, rethrows (f a)) -> rethrows (bind p f).
Proof.
  intros Hp Hf. induction p as [a|e|m args k IH]; simpl; auto.
  destruct Hp as [Hthrow Hret]. split.
  - intros e. now rewrite Hthrow.
  - intros v. apply IH, Hret.
Qed.

Lemma rethrows_switch (s : string) (cases : list (string * Prog A))
  (default : Prog A) :
  Forall (fun c => rethrows (snd c)) cases -> rethrows default ->
  rethrows (switch s cases default).
Proof.
  intros Hcases Hdef. induction Hcases as [|[label body] r Hb _ IH]; simpl; auto.
  now destruct (String.eqb label s).
Qed.

(** A [try] whose [catch] returns a value always ends in a value. *)
Lemma run_tryCatch_total (backend : Backend) (h : Thrown -> A) (p : Prog A) :
  forall made,
    exists a made',
      run backend made (tryCatch p (fun e => Ret (h e))) = (inl a, made').
Proof.
  induction p as [a|e|m args k IH]; intros made; simpl; eauto.
Qed.

(** When the backend answers a call of a rethrowing program with an
    exception, the [catch] around it is what the caller gets. *)
Lemma run_tryCatch_thrown (backend : Backend) (f : A -> B) (h : Thrown -> B)
  (p : Prog A) : forall made e,
  rethrows p ->
  firstThrown backend made
    (tryCatch (bind p (fun a => Ret (f a))) (fun x => Ret (h x))) = Some e ->
  fst (run backend made
         (tryCatch (bind p (fun a => Ret (f a))) (fun x => Ret (h x))))
  = inl (h e).
Proof.
  induction p as [a|e0|m args k IH]; intros made e Hre Hfirst; simpl in *;
    try discriminate.
  destruct Hre as [Hthrow Hret].
  destruct (backend made m args) as [v|e'] eqn:Eb.
  - apply IH; auto.
  - injection Hfirst as ->. now rewrite Hthrow.
Qed.

End Programs.

Lemma rethrows_await method args : rethrows (await method args).
Proof. simpl. auto. Qed.

Lemma rethrows_lengthOf v : rethrows (lengthOf v).
Proof. now destruct v. Qed.

Lemma rethrows_member v name : rethrows (member v name).
Proof. now destruct v. Qed.

(** One step of the proof that an executor rethrows. *)
Ltac rethrows_step :=
  match goal with
  | |- rethrows (bind _ _) => apply rethrows_bind; [|intros ?]
  | |- rethrows (await _ _) => apply rethrows_await
  | |- rethrows (lengthOf _) => apply rethrows_lengthOf
  | |- rethrows (member _ _) => apply rethrows_member
  | |- rethrows (if ?c then _ else _) => destruct c
  | |- rethrows (Ret _) => exact I
  | |- rethrows (Throw _) => exact I
  end.

Section ExecutorFacts.

Variable toStr : JsVal -> string.
Variable stringify : JsVal -> JsVal.

Lemma remote_executeTool_rethrows name args :
  rethrows (Remote.executeTool toStr stringify name args).
Proof.
  unfold Remote.executeTool. apply rethrows_bind; [|intros; exact I].
  destruct name; try exact I.
  apply rethrows_switch; [|exact I].
  repeat (apply Forall_cons; [cbn [snd]; repeat rethrows_step|]).
  apply Forall_nil.
Qed.

End ExecutorFacts.

(** ** The protocol endpoint *)

Section ProtocolFacts.

Variable BASE_URL : string.
Variable toStr : JsVal -> string.
Variable stringify : JsVal -> JsVal.
Variable decodeURIComponent : string -> option string.

Lemma authenticated_method_rethrows request :
  existsb (String.eqb (rpcMethod request)) unauthenticatedMethods = false ->
  rethrows
    (handleMcpMethodAuthenticated toStr stringify decodeURIComponent request).
Proof.
  intros Hgate. unfold unauthenticatedMethods in Hgate. simpl in Hgate.
  repeat (apply orb_false_elim in Hgate; destruct Hgate as [? Hgate]).
  unfold handleMcpMethodAuthenticated. cbn [switch].
  rewrite (String.eqb_sym "resources/list"), (String.eqb_sym "resources/read").
  destruct (String.eqb "tools/call" (rpcMethod request)).
  - repeat rethrows_step. apply remote_executeTool_rethrows.
  - repeat match goal with
           | H : String.eqb _ _ = false |- _ => rewrite H; clear H
           end.
    exact I.
Qed.

Lemma gate_passed authHeader request st session :
  existsb (String.eqb (rpcMethod request)) unauthenticatedMethods = false ->
  getSessionFromRequest authHeader st = Some session ->
  handleMcpRequest BASE_URL toStr stringify decodeURIComponent
    authHeader (Parsed request) st
  = mkMcpRun (Some session)
      (tryCatch
         (result <- handleMcpMethodAuthenticated toStr stringify
                      decodeURIComponent request ;;
          Ret (rpcResult (rpcId request) result))
         (rpcCatch (rpcId request))).
Proof.
  intros Hgate Hsession. unfold handleMcpRequest. now rewrite Hgate, Hsession.
Qed.

(** C9, amended.  For a protocol call that passes the gate, whatever the
    backend does, the handler ends with a reply (no exception leaves it),
    and when the backend answers a call with an exception the reply is a
    200 with the JSON-RPC error object of code -32603 whose message is the
    message of that exception (or [Internal error] when what was thrown is
    not an [Error]). *)
Theorem backend_failure_becomes_rpc_error
  (st : State) (authHeader : option string) (request : JsonRpcRequest)
  (session : OAuthSession) (backend : Backend) :
  existsb (String.eqb (rpcMethod request)) unauthenticatedMethods = false ->
  getSessionFromRequest authHeader st = Some session ->
  let outcome :=
    handleMcpRequest BASE_URL toStr stringify decodeURIComponent
      authHeader (Parsed request) st in
  mcpClient outcome = Some session
  /\ (exists reply made,
        run backend [] (mcpProgram outcome) = (inl reply, made))
  /\ (forall e,
        firstThrown backend [] (mcpProgram outcome) = Some e ->
        fst (run backend [] (mcpProgram outcome))
        = inl (rpcError 200 (rpcId request) (-32603)
                 (messageOr "Internal error" e))).
Proof.
  intros Hgate Hsession outcome. unfold outcome.
  rewrite (gate_passed _ _ _ _ Hgate Hsession). simpl.
  split; [reflexivity|]. split.
  - apply (run_tryCatch_total backend
             (fun e => rpcError 200 (rpcId request) (-32603)
                         (messageOr "Internal error" e))).
  - intros e Hfirst.
    apply (run_tryCatch_thrown backend
             (fun result => rpcResult (rpcId request) result)
             (fun x => rpcError 200 (rpcId request) (-32603)
                         (messageOr "Internal error" x))); auto.
    now apply authenticated_method_rethrows.
Qed.

End ProtocolFacts.

(** C9, as stated, fails: the text of the exception of the backend client,
    which carries the HTTP status and body of the backend's answer, is the
    message of the error object that the caller receives. *)
Lemma backend_error_text_reaches_the_caller : ~ backendFailureIsOpaque.
Proof.
  intros H.
  assert (getSessionFromRequest
            (Some ("Bearer " ++ generateId (bytes32 x04)))
            (runEvents httpsOnly fullFlow booted)
          = Some (mkSession "https://c1abc123.caspio.com" "client-id" "secret"
                    (generateId (bytes32 x04)) (generateId (bytes32 x05))
                    86403000 2000)) as Hsession
    by (vm_compute; reflexivity).
  specialize (H _ _ (toolCall "caspio_list_tables" []) _
                "invalid_client" "table quota exceeded" eq_refl Hsession).
  vm_compute in H. discriminate.
Qed.

Lemma backend_failure_becomes_rpc_error_witness :
  let st := runEvents httpsOnly fullFlow booted in
  let header := Some ("Bearer " ++ generateId (bytes32 x04)) in
  let request := toolCall "caspio_list_tables" [] in
  let outcome :=
    handleMcpRequest "https://mcp.example" showValue keepValue decodePlain
      header (Parsed request) st in
  existsb (String.eqb (rpcMethod request)) unauthenticatedMethods = false
  /\ option_map accessToken (getSessionFromRequest header st)
     = Some (generateId (bytes32 x04))
  /\ firstThrown (rejecting "invalid_client") [] (mcpProgram outcome)
     = Some (ErrorObj "API request failed: 401 - invalid_client")
  /\ fst (run (rejecting "invalid_client") [] (mcpProgram outcome))
     = inl (rpcError 200 (VNum 7) (-32603)
              "API request failed: 401 - invalid_client").
Proof.
  cbv zeta.
  assert (getSessionFromRequest
            (Some ("Bearer " ++ generateId (bytes32 x04)))
            (runEvents httpsOnly fullFlow booted)
          = Some (mkSession "https://c1abc123.caspio.com" "client-id" "secret"
                    (generateId (bytes32 x04)) (generateId (bytes32 x05))
                    86403000 2000)) as Hsession
    by (vm_compute; reflexivity).
  pose proof (backend_failure_becomes_rpc_error
                "https://mcp.example" showValue keepValue decodePlain
                _ _ (toolCall "caspio_list_tables" []) _
                (rejecting "invalid_client") eq_refl Hsession)
    as (_ & _ & Hthrown).
  split; [reflexivity|]. split; [now rewrite Hsession|].
  split; [vm_compute; reflexivity|].
  apply (Hthrown (ErrorObj "API request failed: 401 - invalid_client")).
  vm_compute. reflexivity.
Defined.

(** ** The gate and sessions that have no token yet *)

Lemma findEntry_some {V : Type} (p : string -> V -> bool) (m : JsMap.t V) k v :
  In (k, v) m -> p k v = true ->
  exists k' v',
    JsMap.findEntry p m = Some (k', v') /\ In (k', v') m /\ p k' v' = true.
Proof.
  intros Hin Hp. unfold JsMap.findEntry.
  destruct (find _ m) as [[k' v']|] eqn:E.
  - apply find_some in E. exists k', v'. tauto.
  - apply (find_none _ _ E) in Hin. simpl in Hin. congruence.
Qed.

(** *** The header value that reaches the gate *)

Example fieldValue_sample :
  fieldValue " Bearer abc " = "Bearer abc"
  /\ fieldValue " Bearer " = "Bearer"
  /\ fieldValue (String "009" "Bearer  x") = "Bearer  x"
  /\ fieldValue "  " = "".
Proof. repeat split; reflexivity. Qed.

Lemma dropTrailingBlanks_end (s : string) :
  endsWithBlank (dropTrailingBlanks s) = false.
Proof.
  induction s as [|c s IH]; simpl; [reflexivity|].
  destruct (dropTrailingBlanks s) as [|c' kept].
  - destruct (isBlank c) eqn:E; simpl; auto.
  - exact IH.
Qed.

Lemma fieldValue_end (line : string) : endsWithBlank (fieldValue line) = false.
Proof. apply dropTrailingBlanks_end. Qed.

Lemma prefix_app (p s : string) :
  String.prefix p s = true -> exists t, s = p ++ t.
Proof.
  revert s. induction p as [|a p IH]; intros s.
  - intros _. now exists s.
  - destruct s as [|b s]; simpl; [discriminate|].
    destruct (ascii_dec a b) as [<-|]; [|discriminate].
    intros H. destruct (IH _ H) as [t ->]. now exists t.
Qed.

(** A header value without a blank at its end that passes the test
    [startsWith('Bearer ')] carries a token that is not empty, and the
    session it resolves has that token. *)
Lemma delivered_token_is_not_empty (value : string) (st : State)
  (session : OAuthSession) :
  endsWithBlank value = false ->
  getSessionFromRequest (Some value) st = Some session ->
  accessToken session <> "".
Proof.
  intros Hend. unfold getSessionFromRequest.
  destruct (String.prefix "Bearer " value) eqn:Hp; [|discriminate].
  apply prefix_app in Hp. destruct Hp as [token ->].
  simpl negb. cbv iota. cbv zeta. rewrite bearer_slice.
  unfold JsMap.findEntry.
  destruct (find _ (sessions st)) as [[k s]|] eqn:E; [|discriminate].
  simpl. intros H. injection H as <-.
  apply find_some in E. destruct E as [_ E]. simpl in E.
  apply String.eqb_eq in E. rewrite E.
  intros ->. discriminate Hend.
Qed.

(** C10, as stated, fails.  The blank after [Bearer] is the end of the
    header line, and the HTTP parser does not hand it to the handler: the
    value the gate sees is [Bearer], which does not start with [Bearer]
    and a blank, and no session is resolved. *)
Lemma empty_bearer_request_is_stopped :
  ~ emptyBearerRequestPassesGate httpsOnly.
Proof.
  intros (st & session & _ & H).
  change (authorizationOf (Some " Bearer ")) with (Some "Bearer") in H.
  discriminate H.
Qed.

(** C10, amended.  After a submission that ended in a redirect, the
    session it created has the empty string as access token, and the gate,
    which compares strings and looks at neither the emptiness of the token
    nor [expiresAt], resolves a session with the empty access token when
    it is given the value [Bearer ] with nothing after the blank (the
    created session, when every session stored before had a non-empty
    access token).  No request delivers that value: the value of a header
    comes without the blanks at its end, so a request whose header is
    [Bearer] and blanks is answered with 401, and every request that
    passes the gate carries a token that is not empty and resolves a
    session whose access token is not empty, never one whose code has not
    been exchanged. *)
Theorem empty_token_resolves_only_untrimmed
  (urlParses : string -> bool) (BASE_URL : string)
  (toStr : JsVal -> string) (stringify : JsVal -> JsVal)
  (decodeURIComponent : string -> option string)
  (st : State) (body : Params) (conn : ConnResult)
  (codeBytes sessionBytes : list byte) (nowExpiry nowCreated nowCode : Z)
  (st1 : State) (location : RedirectUrl) :
  handleAuthorizeSubmit urlParses body conn codeBytes sessionBytes
    nowExpiry nowCreated nowCode st = (st1, Redirect302 location) ->
  (exists created resolved,
      JsMap.get (generateId sessionBytes) (sessions st1) = Some created
      /\ accessToken created = ""
      /\ getSessionFromRequest (Some "Bearer ") st1 = Some resolved
      /\ accessToken resolved = ""
      /\ ((forall k s, In (k, s) (sessions st) -> accessToken s <> "") ->
          resolved = created))
  /\ (forall line, authorizationOf line <> Some "Bearer ")
  /\ (forall line request,
        fieldValue line = "Bearer" ->
        existsb (String.eqb (rpcMethod request)) unauthenticatedMethods
        = false ->
        handleMcpRequest BASE_URL toStr stringify decodeURIComponent
          (authorizationOf (Some line)) (Parsed request) st1
        = mkMcpRun None
            (Ret (Unauthorized401
                    (BASE_URL ++ "/.well-known/oauth-protected-resource")
                    (VObj [("error", VStr "unauthorized")]))))
  /\ (forall line st' session,
        getSessionFromRequest (authorizationOf line) st' = Some session ->
        accessToken session <> "").
Proof.
  intros Hsubmit.
  destruct (submit_redirect_inv _ _ _ _ _ _ _ _ _ _ _ Hsubmit)
    as (_ & _ & created & Hsess & Hacc & _).
  assert (JsMap.get (generateId sessionBytes) (sessions st1) = Some created)
    as Hget by (rewrite Hsess; apply JsMapFacts.get_set_same).
  destruct (findEntry_some
              (fun _ s => String.eqb (accessToken s) "") (sessions st1)
              (generateId sessionBytes) created)
    as (k & resolved & Hfind & Hin & Hempty).
  { now apply JsMapFacts.get_In. }
  { rewrite Hacc. reflexivity. }
  apply String.eqb_eq in Hempty.
  assert (getSessionFromRequest (Some "Bearer ") st1 = Some resolved) as Hgate.
  { change "Bearer " with ("Bearer " ++ ""). rewrite bearer_token.
    now rewrite Hfind. }
  split; [|split; [|split]].
  - exists created, resolved. repeat split; auto.
    intros Hold. rewrite Hsess in Hin. apply JsMapFacts.in_set in Hin.
    destruct Hin as [E|Hin]; [congruence|].
    exfalso. eapply Hold; eauto.
  - intros [line|]; [|discriminate]. simpl. intros H. injection H as H.
    pose proof (fieldValue_end line) as Hend. rewrite H in Hend.
    discriminate Hend.
  - intros line request Hline Hmethod. unfold handleMcpRequest.
    rewrite Hmethod. simpl authorizationOf. rewrite Hline. reflexivity.
  - intros [line|] st' session; [|discriminate]. simpl authorizationOf.
    apply delivered_token_is_not_empty, fieldValue_end.
Qed.

Lemma empty_token_resolves_only_untrimmed_witness :
  let st := runEvents httpsOnly
              [EvAuthorize authorizeQuery (bytes32 x01) 1000] booted in
  let submitted :=
    handleAuthorizeSubmit httpsOnly (submitBody (generateId (bytes32 x01)))
      Connected (bytes32 x02) (bytes32 x03) 2000 2000 2000 st in
  reachable httpsOnly (fst submitted)
  /\ snd submitted
     = Redirect302
         (mkRedirectUrl "https://client.example/cb"
            (generateId (bytes32 x02)) (Some "xyz"))
  /\ (exists resolved,
         getSessionFromRequest (Some "Bearer ") (fst submitted) = Some resolved
         /\ JsMap.get (generateId (bytes32 x03)) (sessions (fst submitted))
            = Some resolved
         /\ accessToken resolved = "")
  /\ authorizationOf (Some " Bearer ") = Some "Bearer"
  /\ handleMcpRequest "https://mcp.example" showValue keepValue decodePlain
       (authorizationOf (Some " Bearer "))
       (Parsed (toolCall "caspio_list_tables" [])) (fst submitted)
     = mkMcpRun None
         (Ret (Unauthorized401
                 "https://mcp.example/.well-known/oauth-protected-resource"
                 (VObj [("error", VStr "unauthorized")]))).
Proof.
  cbv zeta.
  set (st := runEvents httpsOnly
               [EvAuthorize authorizeQuery (bytes32 x01) 1000] booted).
  set (submitted :=
         handleAuthorizeSubmit httpsOnly
           (submitBody (generateId (bytes32 x01)))
           Connected (bytes32 x02) (bytes32 x03) 2000 2000 2000 st).
  assert (submitted
          = (fst submitted,
             Redirect302
               (mkRedirectUrl "https://client.example/cb"
                  (generateId (bytes32 x02)) (Some "xyz")))) as Hsubmit
    by (vm_compute; reflexivity).
  assert (reachable httpsOnly (fst submitted)) as Hr.
  { apply (reachable_run httpsOnly
             [EvAuthorize authorizeQuery (bytes32 x01) 1000;
              EvSubmit (submitBody (generateId (bytes32 x01))) Connected
                (bytes32 x02) (bytes32 x03) 2000 2000 2000] booted);
      [apply reach_boot | vm_compute; reflexivity]. }
  destruct (empty_token_resolves_only_untrimmed httpsOnly
              "https://mcp.example" showValue keepValue decodePlain
              _ _ _ _ _ _ _ _ _ _ Hsubmit)
    as ((created & resolved & Hget & _ & Hgate & Hempty & Hsame)
        & _ & Hrefused & _).
  split; [exact Hr|]. split; [now rewrite Hsubmit|].
  split; [|split; [reflexivity|]].
  - exists resolved. split; [exact Hgate|]. split; [|exact Hempty].
    rewrite Hget. f_equal. symmetry. apply Hsame.
    intros k s []. 
  - exact (Hrefused " Bearer " (toolCall "caspio_list_tables" [])
             eq_refl eq_refl).
Defined.

(** ** Destructive tools need a confirmation *)

Section Confirmation.

Variable BASE_URL : string.
Variable toStr : JsVal -> string.
Variable stringify : JsVal -> JsVal.
Variable decodeURIComponent : string -> option string.
Variable mcpMessage : Z -> string -> string.

Lemma unconfirmed_is_falsy args :
  prop "confirm" args = VUndefined \/ prop "confirm" args = VBool false ->
  truthy (prop "confirm" args) = false.
Proof. intros [-> | ->]; reflexivity. Qed.

Lemma remote_unconfirmed name args :
  In name (destructiveTools Remote.toolDefinitions) ->
  truthy (prop "confirm" args) = false ->
  Remote.executeTool toStr stringify (VStr name) args
  = Throw (ErrorObj notConfirmed).
Proof.
  intros Hname Hfalsy. cbn in Hname.
  repeat (destruct Hname as [<- | Hname];
          [unfold Remote.executeTool; cbn; rewrite Hfalsy; reflexivity|]).
  destruct Hname.
Qed.

Lemma local_unconfirmed name args :
  In name (destructiveTools Local.TOOLS) ->
  truthy (prop "confirm" args) = false ->
  Local.executeTool toStr mcpMessage (VStr name) args
  = Throw (ErrorObj notConfirmed).
Proof.
  intros Hname Hfalsy. cbn in Hname.
  repeat (destruct Hname as [<- | Hname];
          [unfold Local.executeTool; cbn; rewrite Hfalsy; reflexivity|]).
  destruct Hname.
Qed.

(** C3.  The tools whose schema requires [confirm] are the deletions of a
    table, a field, records and a file, and in the local server also of a
    directory user.  Called with [confirm] absent or false, each of them
    throws the error [Deletion not confirmed...] before any method of the
    backend client is called: whatever the backend, the run makes no call.
    Through the protocol endpoint of the remote server the caller gets
    that message in an error object; the call-tool handler of the local
    server returns it as an error result. *)
Theorem destructive_tools_need_confirmation
  (name : string) (args : list (string * JsVal)) :
  prop "confirm" args = VUndefined \/ prop "confirm" args = VBool false ->
  destructiveTools Remote.toolDefinitions
  = ["caspio_delete_table"; "caspio_delete_field"; "caspio_delete_records";
     "caspio_delete_file"]
  /\ destructiveTools Local.TOOLS
     = ["caspio_delete_table"; "caspio_delete_field"; "caspio_delete_records";
        "caspio_delete_file"; "caspio_delete_directory_user"]
  /\ (In name (destructiveTools Remote.toolDefinitions) ->
      Remote.executeTool toStr stringify (VStr name) args
      = Throw (ErrorObj notConfirmed)
      /\ (forall backend,
            run backend [] (Remote.executeTool toStr stringify (VStr name) args)
            = (inr (ErrorObj notConfirmed), []))
      /\ (forall backend st authHeader session id,
            getSessionFromRequest authHeader st = Some session ->
            run backend []
              (mcpProgram
                 (handleMcpRequest BASE_URL toStr stringify decodeURIComponent
                    authHeader
                    (Parsed
                       (mkRpc id "tools/call"
                          (VObj [("name", VStr name);
                                 ("arguments", VObj args)])))
                    st))
            = (inl (rpcError 200 id (-32603) notConfirmed), [])))
  /\ (In name (destructiveTools Local.TOOLS) ->
      Local.executeTool toStr mcpMessage (VStr name) args
      = Throw (ErrorObj notConfirmed)
      /\ (forall backend,
            run backend []
              (Local.callTool toStr stringify mcpMessage (VStr name) (VObj args))
            = (inl (VObj [("content",
                           VArr [VObj [("type", VStr "text");
                                       ("text",
                                        stringify
                                          (VObj [("error",
                                                  VStr notConfirmed)]))]]);
                          ("isError", VBool true)]),
               []))).
Proof.
  intros Hconfirm. apply unconfirmed_is_falsy in Hconfirm.
  split; [reflexivity|]. split; [reflexivity|]. split.
  - intros Hname.
    pose proof (remote_unconfirmed name args Hname Hconfirm) as Hthrow.
    split; [exact Hthrow|]. split.
    + intros backend. now rewrite Hthrow.
    + intros backend st authHeader session id Hsession.
      rewrite (gate_passed BASE_URL toStr stringify decodeURIComponent
                 authHeader
                 (mkRpc id "tools/call"
                    (VObj [("name", VStr name); ("arguments", VObj args)]))
                 st session eq_refl Hsession).
      unfold handleMcpMethodAuthenticated. cbn -[Remote.executeTool].
      now rewrite Hthrow.
  - intros Hname.
    pose proof (local_unconfirmed name args Hname Hconfirm) as Hthrow.
    split; [exact Hthrow|].
    intros backend. unfold Local.callTool. cbn -[Local.executeTool].
    now rewrite Hthrow.
Qed.

End Confirmation.

Lemma destructive_tools_need_confirmation_witness :
  let args := [("tableName", VStr "Orders"); ("confirm", VBool false)] in
  (prop "confirm" args = VUndefined \/ prop "confirm" args = VBool false)
  /\ In "caspio_delete_table" (destructiveTools Remote.toolDefinitions)
  /\ run obliging []
       (Remote.executeTool showValue keepValue (VStr "caspio_delete_table") args)
     = (inr (ErrorObj notConfirmed), [])
  /\ snd (run obliging []
            (Remote.executeTool showValue keepValue
               (VStr "caspio_delete_table")
               [("tableName", VStr "Orders"); ("confirm", VBool true)]))
     = [("deleteTable", [VStr "Orders"])].
Proof.
  cbv zeta.
  assert (prop "confirm" [("tableName", VStr "Orders"); ("confirm", VBool false)]
          = VUndefined
          \/ prop "confirm"
               [("tableName", VStr "Orders"); ("confirm", VBool false)]
             = VBool false) as Hconfirm by (right; reflexivity).
  assert (In "caspio_delete_table" (destructiveTools Remote.toolDefinitions))
    as Hname by (left; reflexivity).
  destruct (destructive_tools_need_confirmation
              "https://mcp.example" showValue keepValue decodePlain
              (fun _ m => m) "caspio_delete_table" _ Hconfirm)
    as (_ & _ & Hremote & _).
  destruct (Hremote Hname) as (_ & Hrun & _).
  split; [exact Hconfirm|]. split; [exact Hname|].
  split; [apply Hrun|]. vm_compute. reflexivity.
Defined.

Lemma save_then_load_keeps_live_sessions_witness :
  let st := runEvents httpsOnly twoSubmissions booted in
  NoDup (JsMap.keys (sessions st))
  /\ writable (disk st) = true
  /\ JsMap.keys (sessions st)
     = [generateId (bytes32 x03); generateId (bytes32 x13)]
  /\ sessions (startup 86403000 (disk (saveSessions st)))
     = [(generateId (bytes32 x13),
         mkSession "https://c1abc123.caspio.com" "client-id" "secret"
           "" "" 86404000 4000)]
  /\ sessions (startup 5000 (disk (saveSessions st))) = sessions st.
Proof.
  cbv zeta.
  assert (NoDup (JsMap.keys
                   (sessions (runEvents httpsOnly twoSubmissions booted))))
    as Hnd.
  { assert (reachable httpsOnly (runEvents httpsOnly twoSubmissions booted))
      as Hr
      by (apply reachable_run; [apply reach_boot | vm_compute; reflexivity]).
    apply reachable_invariant in Hr. apply Hr. }
  assert (writable (disk (runEvents httpsOnly twoSubmissions booted)) = true)
    as Hw by (vm_compute; reflexivity).
  destruct (save_then_load_keeps_live_sessions _ 86403000 Hnd Hw)
    as (Hlate & _ & _).
  destruct (save_then_load_keeps_live_sessions _ 5000 Hnd Hw)
    as (_ & _ & Hearly).
  split; [exact Hnd|]. split; [exact Hw|].
  split; [vm_compute; reflexivity|]. split.
  - rewrite Hlate. vm_compute. reflexivity.
  - apply Hearly. intros k s Hin.
    assert (forallb (fun e => expiresAt (snd e) >? 5000)
              (sessions (runEvents httpsOnly twoSubmissions booted)) = true)
      as Hall by (vm_compute; reflexivity).
    rewrite forallb_forall in Hall. specialize (Hall _ Hin). simpl in Hall.
    lia.
Defined.

(* ================================================================== *)
(** * Further properties of the server *)

(** ** The janitor *)

Lemma get_filter_iff {V : Type} (p : string * V -> bool) (m : JsMap.t V) k v :
  NoDup (JsMap.keys m) ->
  JsMap.get k (filter p m) = Some v
  <-> JsMap.get k m = Some v /\ p (k, v) = true.
Proof.
  intros Hnd. split.
  - intros Hg. apply JsMapFacts.get_In, filter_In in Hg.
    destruct Hg as [Hin Hp]. split; auto. now apply JsMapFacts.In_get.
  - intros [Hg Hp]. now apply JsMapFacts.get_filter_Some.
Qed.

Lemma sweep_get {V : Type} (dead : V -> bool) (m : JsMap.t V) k v :
  NoDup (JsMap.keys m) ->
  JsMap.get k (fst (JsMap.sweep dead m)) = Some v
  <-> JsMap.get k m = Some v /\ dead v = false.
Proof.
  intros Hnd. rewrite JsMapFacts.sweep_filter by assumption.
  rewrite get_filter_iff by assumption. simpl.
  now rewrite negb_true_iff.
Qed.

Lemma sweep_count_fold {V : Type} (dead : V -> bool) (l : JsMap.t V) :
  forall acc n,
    snd (fold_left (JsMap.sweepStep dead) l (acc, n))
    = (n + length (filter (fun e => dead (snd e)) l))%nat.
Proof.
  induction l as [|e r IH]; intros acc n; simpl.
  - now rewrite Nat.add_0_r.
  - unfold JsMap.sweepStep at 2. simpl. destruct (dead (snd e)); simpl.
    + rewrite IH. lia.
    + apply IH.
Qed.

Lemma sweep_count {V : Type} (dead : V -> bool) (m : JsMap.t V) :
  snd (JsMap.sweep dead m) = length (filter (fun e => dead (snd e)) m).
Proof. unfold JsMap.sweep. now rewrite sweep_count_fold. Qed.

Lemma filter_none {X : Type} (p : X -> bool) (l : list X) :
  (forall x, In x l -> p x = false) -> filter p l = [].
Proof.
  induction l as [|x r IH]; simpl; auto. intros H.
  rewrite (H x) by now left. apply IH. intros y Hy. apply H. now right.
Qed.

Lemma filter_all {X : Type} (p : X -> bool) (l : list X) :
  (forall x, In x l -> p x = true) -> filter p l = l.
Proof.
  induction l as [|x r IH]; simpl; auto. intros H.
  rewrite (H x) by now left. f_equal. apply IH. intros y Hy. apply H. now right.
Qed.

Lemma filter_idem {X : Type} (p : X -> bool) (l : list X) :
  filter p (filter p l) = filter p l.
Proof.
  apply filter_all. intros x Hx. apply filter_In in Hx. tauto.
Qed.

(** A sweep that finds nothing dead leaves the map as it is. *)
Lemma sweep_nothing {V : Type} (dead : V -> bool) (m : JsMap.t V) :
  NoDup (JsMap.keys m) ->
  (forall e, In e m -> dead (snd e) = false) ->
  JsMap.sweep dead m = (m, O).
Proof.
  intros Hnd Hlive.
  rewrite (surjective_pairing (JsMap.sweep dead m)).
  rewrite JsMapFacts.sweep_filter, sweep_count by assumption.
  rewrite (filter_none (fun e => dead (snd e))) by (intros; now apply Hlive).
  simpl. f_equal.
  apply filter_all. intros e He. now rewrite Hlive.
Qed.

(** X1.  One tick of the janitor at time [now] keeps, in each registry,
    exactly the entries that have not expired: a session with
    [expiresAt >= now], a pending record created no more than ten minutes
    before [now], a code with [expiresAt >= now]; what is kept is
    unchanged. *)
Theorem janitor_keeps_exactly_the_live_entries (now : Z) (st : State) :
  wellFormed st ->
  (forall k s,
      JsMap.get k (sessions (janitor now st)) = Some s
      <-> JsMap.get k (sessions st) = Some s /\ now <= expiresAt s)
  /\ (forall k p,
        JsMap.get k (pendingAuths (janitor now st)) = Some p
        <-> JsMap.get k (pendingAuths st) = Some p
            /\ now <= pendingCreatedAt p + 600000)
  /\ (forall k c,
        JsMap.get k (authCodes (janitor now st)) = Some c
        <-> JsMap.get k (authCodes st) = Some c /\ now <= codeExpiresAt c).
Proof.
  intros (Hs & Hp & Hc).
  rewrite janitor_sessions, janitor_pending, janitor_codes.
  split; [|split]; intros k v; rewrite sweep_get by assumption;
    rewrite Z.ltb_ge; reflexivity.
Qed.

Lemma janitor_keeps_exactly_the_live_entries_witness :
  let st := runEvents httpsOnly twoSubmissions booted in
  let later :=
    mkSession "https://c1abc123.caspio.com" "client-id" "secret"
      "" "" 86404000 4000 in
  wellFormed st
  /\ JsMap.keys (sessions st)
     = [generateId (bytes32 x03); generateId (bytes32 x13)]
  /\ JsMap.get (generateId (bytes32 x13)) (sessions (janitor 86403000 st))
     = Some later
  /\ JsMap.get (generateId (bytes32 x03)) (sessions (janitor 86403000 st))
     = None.
Proof.
  cbv zeta.
  assert (wellFormed (runEvents httpsOnly twoSubmissions booted)) as Hwf.
  { unfold wellFormed. vm_compute.
    repeat split; repeat constructor; simpl; intuition discriminate. }
  destruct (janitor_keeps_exactly_the_live_entries 86403000 _ Hwf)
    as (Hsessions & _ & _).
  split; [exact Hwf|]. split; [vm_compute; reflexivity|]. split.
  - apply Hsessions. split; [vm_compute; reflexivity|simpl; lia].
  - vm_compute. reflexivity.
Defined.

Lemma janitor_disk now st :
  disk (janitor now st)
  = if Nat.ltb 0 (snd (JsMap.sweep (fun s => expiresAt s <? now)
                           (sessions st)))
    then disk (saveSessions
                 (withSessions st
                    (fst (JsMap.sweep (fun s => expiresAt s <? now)
                            (sessions st)))))
    else disk st.
Proof.
  unfold janitor.
  destruct (JsMap.sweep (fun s => expiresAt s <? now) (sessions st))
    as [live n]. simpl.
  now destruct (0 <? n)%nat.
Qed.

Lemma wellFormed_janitor now st : wellFormed st -> wellFormed (janitor now st).
Proof.
  intros (Hs & Hp & Hc). unfold wellFormed.
  rewrite janitor_sessions, janitor_pending, janitor_codes.
  rewrite !JsMapFacts.sweep_filter by assumption.
  repeat split; now apply JsMapFacts.NoDup_keys_filter.
Qed.

(** A state in which nothing has expired is a fixed point of the tick. *)
Lemma janitor_nothing_expired now st :
  wellFormed st ->
  (forall e, In e (sessions st) -> (expiresAt (snd e) <? now) = false) ->
  (forall e, In e (pendingAuths st) ->
             (pendingCreatedAt (snd e) + 600000 <? now) = false) ->
  (forall e, In e (authCodes st) -> (codeExpiresAt (snd e) <? now) = false) ->
  janitor now st = st.
Proof.
  intros (Hs & Hp & Hc) Ls Lp Lc. unfold janitor.
  rewrite (sweep_nothing (fun s => expiresAt s <? now)) by assumption.
  simpl.
  rewrite (sweep_nothing (fun p => pendingCreatedAt p + 600000 <? now))
    by assumption.
  simpl.
  rewrite (sweep_nothing (fun c => codeExpiresAt c <? now)) by assumption.
  now destruct st.
Qed.

Lemma swept_entries_are_live {V : Type} (dead : V -> bool) (m : JsMap.t V) e :
  NoDup (JsMap.keys m) ->
  In e (fst (JsMap.sweep dead m)) -> dead (snd e) = false.
Proof.
  intros Hnd. rewrite JsMapFacts.sweep_filter by assumption.
  intros Hin. apply filter_In in Hin. now apply negb_true_iff.
Qed.

(** X2.  A second tick of the janitor at the same time changes nothing.
    A tick that finds no expired session leaves the session store and the
    disk as they are (the file is not rewritten); a tick that removes a
    session on a writable disk leaves the file holding exactly the
    sessions that are left. *)
Theorem janitor_is_idempotent_and_writes_on_removal (now : Z) (st : State) :
  wellFormed st ->
  janitor now (janitor now st) = janitor now st
  /\ ((forall k s, In (k, s) (sessions st) -> now <= expiresAt s) ->
      sessions (janitor now st) = sessions st
      /\ disk (janitor now st) = disk st)
  /\ (forall k s,
        In (k, s) (sessions st) -> expiresAt s < now ->
        writable (disk st) = true ->
        sessionsFile (disk (janitor now st))
        = Document (sessions (janitor now st))).
Proof.
  intros Hwf. pose proof Hwf as (Hs & Hp & Hc). split; [|split].
  - apply janitor_nothing_expired.
    + now apply wellFormed_janitor.
    + rewrite janitor_sessions. intros e.
      now apply (swept_entries_are_live (fun x => expiresAt x <? now)).
    + rewrite janitor_pending. intros e.
      now apply (swept_entries_are_live
                   (fun x => pendingCreatedAt x + 600000 <? now)).
    + rewrite janitor_codes. intros e.
      now apply (swept_entries_are_live (fun x => codeExpiresAt x <? now)).
  - intros Hlive.
    assert (JsMap.sweep (fun s => expiresAt s <? now) (sessions st)
            = (sessions st, O)) as Hsweep.
    { apply sweep_nothing; auto. intros [k s] Hin. simpl.
      apply Z.ltb_ge. eapply Hlive; eauto. }
    rewrite janitor_sessions, janitor_disk, Hsweep. auto.
  - intros k s Hin Hdead Hw.
    assert (Nat.ltb 0 (snd (JsMap.sweep (fun x => expiresAt x <? now)
                              (sessions st))) = true) as Hsome.
    { rewrite sweep_count. apply Nat.ltb_lt.
      assert (In (k, s) (filter (fun e => expiresAt (snd e) <? now)
                           (sessions st))) as Hf.
      { apply filter_In. split; auto. simpl. now apply Z.ltb_lt. }
      destruct (filter _ (sessions st)); [destruct Hf|simpl; lia]. }
    rewrite janitor_disk, Hsome, janitor_sessions.
    rewrite saveSessions_disk.
    + simpl. now rewrite Hw.
    + simpl. rewrite JsMapFacts.sweep_filter by assumption.
      now apply JsMapFacts.NoDup_keys_filter.
Qed.

Lemma janitor_is_idempotent_and_writes_on_removal_witness :
  let st := runEvents httpsOnly twoSubmissions booted in
  wellFormed st
  /\ janitor 86403000 (janitor 86403000 st) = janitor 86403000 st
  /\ sessionsFile (disk (janitor 86403000 st))
     = Document (sessions (janitor 86403000 st))
  /\ disk (janitor 5000 st) = disk st.
Proof.
  cbv zeta.
  assert (wellFormed (runEvents httpsOnly twoSubmissions booted)) as Hwf.
  { unfold wellFormed. vm_compute.
    repeat split; repeat constructor; simpl; intuition discriminate. }
  destruct (janitor_is_idempotent_and_writes_on_removal 86403000 _ Hwf)
    as (Hidem & _ & Hwrite).
  split; [exact Hwf|]. split; [exact Hidem|]. split.
  - apply (Hwrite (generateId (bytes32 x03))
             (mkSession "https://c1abc123.caspio.com" "client-id" "secret"
                "" "" 86402000 2000)).
    + vm_compute. now left.
    + simpl. lia.
    + vm_compute. reflexivity.
  - vm_compute. reflexivity.
Defined.

(** X3.  The janitor and the loader disagree about a session whose
    [expiresAt] equals the current time: the janitor keeps it (it removes
    on [expiresAt < now]), while a start of the process at that time does
    not load it from the file (it loads on [expiresAt > now]). *)
Theorem session_expiring_now_survives_tick_not_restart
  (now : Z) (st : State) (k : string) (s : OAuthSession) :
  NoDup (JsMap.keys (sessions st)) ->
  writable (disk st) = true ->
  JsMap.get k (sessions st) = Some s ->
  expiresAt s = now ->
  JsMap.get k (sessions (janitor now st)) = Some s
  /\ JsMap.get k (sessions (startup now (disk (saveSessions st)))) = None.
Proof.
  intros Hnd Hw Hget Hexp. split.
  - rewrite janitor_sessions. apply sweep_get; auto. split; auto.
    apply Z.ltb_ge. lia.
  - rewrite startup_sessions, saveSessions_disk by assumption.
    rewrite Hw. simpl.
    rewrite (JsMapFacts.fold_set_filter
               (fun e => expiresAt (snd e) >? now) (sessions st) JsMap.empty Hnd).
    simpl.
    destruct (JsMap.get k (filter (fun e => expiresAt (snd e) >? now)
                             (sessions st))) as [s'|] eqn:E; auto.
    apply get_filter_iff in E; auto. destruct E as [E Hlive].
    rewrite Hget in E. injection E as <-. simpl in Hlive. lia.
Qed.

Lemma session_expiring_now_survives_tick_not_restart_witness :
  let st := runEvents httpsOnly twoSubmissions booted in
  let first :=
    mkSession "https://c1abc123.caspio.com" "client-id" "secret"
      "" "" 86402000 2000 in
  NoDup (JsMap.keys (sessions st))
  /\ writable (disk st) = true
  /\ JsMap.get (generateId (bytes32 x03)) (sessions st) = Some first
  /\ JsMap.get (generateId (bytes32 x03)) (sessions (janitor 86402000 st))
     = Some first
  /\ JsMap.get (generateId (bytes32 x03))
       (sessions (startup 86402000 (disk (saveSessions st)))) = None.
Proof.
  cbv zeta.
  assert (NoDup (JsMap.keys
                   (sessions (runEvents httpsOnly twoSubmissions booted))))
    as Hnd
    by (vm_compute; repeat constructor; simpl; intuition discriminate).
  assert (writable (disk (runEvents httpsOnly twoSubmissions booted)) = true)
    as Hw by (vm_compute; reflexivity).
  assert (JsMap.get (generateId (bytes32 x03))
            (sessions (runEvents httpsOnly twoSubmissions booted))
          = Some (mkSession "https://c1abc123.caspio.com" "client-id" "secret"
                    "" "" 86402000 2000)) as Hget
    by (vm_compute; reflexivity).
  destruct (session_expiring_now_survives_tick_not_restart
              86402000 _ _ _ Hnd Hw Hget eq_refl) as [Htick Hload].
  repeat split; assumption.
Defined.

(** ** Expiry and the gate *)

(** A non-empty token that only one session holds: the scan finds that
    session. *)
Lemma unique_token_scan (tok : OAuthSession -> string) m k s :
  NoDup (JsMap.keys m) -> tokensDistinct tok m ->
  In (k, s) m -> tok s <> "" ->
  JsMap.findEntry (fun _ x => String.eqb (tok x) (tok s)) m = Some (k, s).
Proof.
  intros Hnd Hd Hin Hne. unfold JsMap.findEntry.
  destruct (find _ m) as [[k' s']|] eqn:E.
  - apply find_some in E. destruct E as [Hin' Heq]. simpl in Heq.
    apply String.eqb_eq in Heq.
    assert (k' = k) as -> by (eapply Hd; eauto; congruence).
    apply JsMapFacts.In_get in Hin, Hin'; auto. congruence.
  - apply (find_none _ _ E) in Hin. simpl in Hin.
    now rewrite String.eqb_refl in Hin.
Qed.

(** Once its session is filtered out, the token is found nowhere. *)
Lemma dropped_token_scan (tok : OAuthSession -> string)
  (p : string * OAuthSession -> bool) m k s :
  NoDup (JsMap.keys m) -> tokensDistinct tok m ->
  In (k, s) m -> tok s <> "" -> p (k, s) = false ->
  JsMap.findEntry (fun _ x => String.eqb (tok x) (tok s)) (filter p m) = None.
Proof.
  intros Hnd Hd Hin Hne Hp. apply findEntry_none. intros k' s' Hin'.
  apply String.eqb_neq. intros Heq.
  apply filter_In in Hin'. destruct Hin' as [Hin' Hp'].
  assert (k' = k) as -> by (eapply Hd; eauto; congruence).
  apply JsMapFacts.In_get in Hin, Hin'; auto. congruence.
Qed.

(** X4.  The gate does not look at [expiresAt]: in every state of the
    server, the access token of a stored session resolves that session
    even after its expiry time, until a tick of the janitor removes the
    session.  After a tick at a time later than the expiry the session is
    gone, its access token resolves nothing and a refresh grant with its
    refresh token is answered with [invalid_grant]. *)
Theorem expired_session_resolves_until_swept
  (urlParses : string -> bool) (now : Z) (st : State)
  (k : string) (s : OAuthSession) :
  reachable urlParses st ->
  JsMap.get k (sessions st) = Some s ->
  refreshToken s <> "" ->
  expiresAt s < now ->
  getSessionFromRequest (Some ("Bearer " ++ accessToken s)) st = Some s
  /\ JsMap.get k (sessions (janitor now st)) = None
  /\ getSessionFromRequest (Some ("Bearer " ++ accessToken s)) (janitor now st)
     = None
  /\ (forall ab rb n1 n2,
        snd (handleToken (refreshGrant (refreshToken s)) ab rb n1 n2
               (janitor now st))
        = oauthError "invalid_grant" "Invalid refresh token").
Proof.
  intros Hr Hget Hrt Hdead.
  apply reachable_invariant in Hr.
  destruct Hr as [(Hnd & Hkeys & Ha & Hrf & Hra) _].
  assert (In (k, s) (sessions st)) as Hin by now apply JsMapFacts.get_In.
  assert (accessToken s <> "") as Hat by (eapply Hra; eauto).
  assert ((fun e : string * OAuthSession => negb (expiresAt (snd e) <? now))
            (k, s) = false) as Hp.
  { simpl. apply negb_false_iff, Z.ltb_lt. exact Hdead. }
  split; [|split; [|split]].
  - rewrite bearer_token.
    now rewrite (unique_token_scan accessToken _ k s).
  - rewrite janitor_sessions.
    destruct (JsMap.get k (fst (JsMap.sweep _ (sessions st)))) as [s'|] eqn:E;
      auto.
    apply sweep_get in E; auto. destruct E as [E Hlive].
    rewrite Hget in E. injection E as <-.
    apply Z.ltb_ge in Hlive. lia.
  - rewrite bearer_token, janitor_sessions.
    rewrite JsMapFacts.sweep_filter by assumption.
    now rewrite (dropped_token_scan accessToken _ _ k s).
  - intros ab rb n1 n2. unfold handleToken, refreshGrant. simpl paramGet.
    simpl strictEq. cbv iota. simpl orEmpty.
    replace (present (Some (refreshToken s))) with true
      by (simpl; symmetry; now apply negb_true_iff, String.eqb_neq).
    simpl negb. cbv iota.
    rewrite janitor_sessions, JsMapFacts.sweep_filter by assumption.
    now rewrite (dropped_token_scan refreshToken _ _ k s).
Qed.

Lemma expired_session_resolves_until_swept_witness :
  let st := runEvents httpsOnly fullFlow booted in
  let held :=
    mkSession "https://c1abc123.caspio.com" "client-id" "secret"
      (generateId (bytes32 x04)) (generateId (bytes32 x05)) 86403000 2000 in
  reachable httpsOnly st
  /\ JsMap.get (generateId (bytes32 x03)) (sessions st) = Some held
  /\ getSessionFromRequest (Some ("Bearer " ++ generateId (bytes32 x04))) st
     = Some held
  /\ getSessionFromRequest (Some ("Bearer " ++ generateId (bytes32 x04)))
       (janitor 90000000 st) = None.
Proof.
  cbv zeta.
  assert (reachable httpsOnly (runEvents httpsOnly fullFlow booted)) as Hr
    by (apply reachable_run; [apply reach_boot | vm_compute; reflexivity]).
  assert (JsMap.get (generateId (bytes32 x03))
            (sessions (runEvents httpsOnly fullFlow booted))
          = Some (mkSession "https://c1abc123.caspio.com" "client-id" "secret"
                    (generateId (bytes32 x04)) (generateId (bytes32 x05))
                    86403000 2000)) as Hget
    by (vm_compute; reflexivity).
  assert (generateId (bytes32 x05) <> "") as Hne
    by (apply generateId_nonempty; reflexivity).
  assert (86403000 < 90000000) as Hlt by lia.
  destruct (expired_session_resolves_until_swept httpsOnly 90000000 _ _ _
              Hr Hget Hne Hlt) as (Hbefore & _ & Hafter & _).
  repeat split; assumption.
Defined.

(** ** The token endpoint: what a request can change *)

Lemma has_get_some {V : Type} k (m : JsMap.t V) :
  JsMap.has k m = true -> JsMap.get k m <> None.
Proof. unfold JsMap.has. now destruct (JsMap.get k m). Qed.

(** X5.  A token request that is not answered with a pair of tokens is
    answered with status 400 and one of [invalid_grant], [invalid_request]
    and [unsupported_grant_type]; it changes no session, no pending record
    and nothing on the disk, and the only code it can remove is the one it
    presented, when that code has expired. *)
Theorem refused_token_request_changes_no_session
  (body : Params) (accessBytes refreshBytes : list byte)
  (nowCheck nowIssue : Z) (st : State) :
  let result :=
    handleToken body accessBytes refreshBytes nowCheck nowIssue st in
  snd result
  = tokenResponse (generateId accessBytes) (generateId refreshBytes)
  \/ (sessions (fst result) = sessions st
      /\ pendingAuths (fst result) = pendingAuths st
      /\ disk (fst result) = disk st
      /\ (exists code fields,
            snd result = SendJson 400 (VObj (("error", VStr code) :: fields))
            /\ In code ["invalid_grant"; "invalid_request";
                        "unsupported_grant_type"])
      /\ (authCodes (fst result) = authCodes st
          \/ (snd result = oauthError "invalid_grant" "Code expired"
              /\ authCodes (fst result)
                 = JsMap.delete (orEmpty (paramGet "code" body))
                     (authCodes st)))).
Proof.
  cbv zeta. unfold handleToken, oauthError.
  destruct (strictEq _ "authorization_code").
  - destruct (negb (present (paramGet "code" body))) eqn:Ep; simpl orb.
    + right. repeat split; auto. do 2 eexists. split; [reflexivity|].
      simpl. tauto.
    + destruct (JsMap.has _ (authCodes st)) eqn:Eh; simpl negb; cbv iota.
      * apply has_get_some in Eh.
        destruct (JsMap.get _ (authCodes st)) as [codeData|];
          [|contradiction].
        destruct (codeExpiresAt codeData <? nowCheck).
        -- right. simpl. repeat split; auto.
           do 2 eexists. split; [reflexivity|]. simpl. tauto.
        -- destruct (JsMap.get _ (sessions st)) as [s|]; [now left|].
           right. repeat split; auto. do 2 eexists. split; [reflexivity|].
           simpl. tauto.
      * right. repeat split; auto. do 2 eexists. split; [reflexivity|].
        simpl. tauto.
  - destruct (strictEq _ "refresh_token").
    + destruct (negb (present _)).
      * right. repeat split; auto. do 2 eexists. split; [reflexivity|].
        simpl. tauto.
      * destruct (JsMap.findEntry _ _) as [[fid fs]|].
        -- destruct (String.eqb fid ""); [|now left].
           right. repeat split; auto. do 2 eexists. split; [reflexivity|].
           simpl. tauto.
        -- right. repeat split; auto. do 2 eexists. split; [reflexivity|].
           simpl. tauto.
    + right. repeat split; auto. do 2 eexists. split; [reflexivity|].
      simpl. tauto.
Qed.

(** What a token request that is answered with tokens has done. *)
Lemma granted_token_inv body ab rb n1 n2 st :
  snd (handleToken body ab rb n1 n2 st)
  = tokenResponse (generateId ab) (generateId rb) ->
  exists sid old,
    In (sid, old) (sessions st)
    /\ sessions (fst (handleToken body ab rb n1 n2 st))
       = JsMap.set sid
           (mkSession (caspioBaseUrl old) (caspioClientId old)
              (caspioClientSecret old) (generateId ab) (generateId rb)
              (n2 + 86400000) (createdAt old))
           (sessions st)
    /\ pendingAuths (fst (handleToken body ab rb n1 n2 st)) = pendingAuths st.
Proof.
  unfold handleToken, oauthError, internalError, tokenResponse.
  destruct (strictEq _ "authorization_code").
  - destruct (_ || _); [discriminate|].
    destruct (JsMap.get _ (authCodes st)) as [codeData|]; [|discriminate].
    destruct (codeExpiresAt codeData <? n1); [discriminate|].
    destruct (JsMap.get (sessionId codeData) (sessions st)) as [s|] eqn:Es;
      [|discriminate].
    intros _. exists (sessionId codeData), s. simpl.
    rewrite setSession_sessions, setSession_pending.
    split; [now apply JsMapFacts.get_In|]. auto.
  - destruct (strictEq _ "refresh_token"); [|discriminate].
    destruct (negb (present _)); [discriminate|].
    destruct (JsMap.findEntry _ _) as [[fid fs]|] eqn:Ef; [|discriminate].
    destruct (String.eqb fid ""); [discriminate|].
    intros _. exists fid, fs. simpl.
    rewrite setSession_sessions, setSession_pending.
    apply find_some in Ef. split; [apply Ef|]. auto.
Qed.

(** X6.  A token request that is answered with tokens rewrites exactly one
    stored session: that session keeps its backend credentials and its
    creation time, gets the two new tokens and expires 24 hours after the
    request; no session is added or removed, every other session is as it
    was, and the pending registry is untouched. *)
Theorem granted_token_rewrites_one_session
  (body : Params) (accessBytes refreshBytes : list byte)
  (nowCheck nowIssue : Z) (st : State) :
  NoDup (JsMap.keys (sessions st)) ->
  let result :=
    handleToken body accessBytes refreshBytes nowCheck nowIssue st in
  snd result
  = tokenResponse (generateId accessBytes) (generateId refreshBytes) ->
  exists sid old,
    JsMap.get sid (sessions st) = Some old
    /\ JsMap.get sid (sessions (fst result))
       = Some (mkSession (caspioBaseUrl old) (caspioClientId old)
                 (caspioClientSecret old) (generateId accessBytes)
                 (generateId refreshBytes) (nowIssue + 86400000)
                 (createdAt old))
    /\ (forall k, k <> sid ->
                  JsMap.get k (sessions (fst result))
                  = JsMap.get k (sessions st))
    /\ JsMap.keys (sessions (fst result)) = JsMap.keys (sessions st)
    /\ pendingAuths (fst result) = pendingAuths st.
Proof.
  intros Hnd result Hgranted.
  destruct (granted_token_inv _ _ _ _ _ _ Hgranted)
    as (sid & old & Hin & Hsess & Hpend).
  exists sid, old. unfold result. rewrite Hsess.
  assert (JsMap.get sid (sessions st) = Some old) as Hget
    by now apply JsMapFacts.In_get.
  split; [exact Hget|]. split; [apply JsMapFacts.get_set_same|].
  split; [intros k Hk; now apply JsMapFacts.get_set_other|].
  split; [|exact Hpend].
  rewrite JsMapFacts.keys_set.
  replace (JsMap.has sid (sessions st)) with true; auto.
  symmetry. apply JsMapFacts.has_true. eauto.
Qed.

Lemma granted_token_rewrites_one_session_witness :
  let st := runEvents httpsOnly
              (twoSubmissions
               ++ [EvToken (codeGrant (generateId (bytes32 x02)))
                     (bytes32 x04) (bytes32 x05) 5000 5000])%list
              booted in
  let result :=
    handleToken (refreshGrant (generateId (bytes32 x05)))
      (bytes32 x06) (bytes32 x07) 9000 9500 st in
  NoDup (JsMap.keys (sessions st))
  /\ snd result
     = tokenResponse (generateId (bytes32 x06)) (generateId (bytes32 x07))
  /\ JsMap.get (generateId (bytes32 x03)) (sessions (fst result))
     = Some (mkSession "https://c1abc123.caspio.com" "client-id" "secret"
               (generateId (bytes32 x06)) (generateId (bytes32 x07))
               86409500 2000)
  /\ JsMap.keys (sessions (fst result)) = JsMap.keys (sessions st).
Proof.
  cbv zeta.
  set (st := runEvents httpsOnly
               (twoSubmissions
                ++ [EvToken (codeGrant (generateId (bytes32 x02)))
                      (bytes32 x04) (bytes32 x05) 5000 5000])%list
               booted).
  assert (NoDup (JsMap.keys (sessions st))) as Hnd
    by (vm_compute; repeat constructor; simpl; intuition discriminate).
  assert (snd (handleToken (refreshGrant (generateId (bytes32 x05)))
                 (bytes32 x06) (bytes32 x07) 9000 9500 st)
          = tokenResponse (generateId (bytes32 x06))
              (generateId (bytes32 x07))) as Hgranted
    by (vm_compute; reflexivity).
  destruct (granted_token_rewrites_one_session _ _ _ 9000 9500 st
              Hnd Hgranted) as (sid & old & _ & _ & _ & Hkeys & _).
  split; [exact Hnd|]. split; [exact Hgranted|].
  split; [vm_compute; reflexivity|exact Hkeys].
Defined.

(** ** From the authorize request to the redirect *)

Section AuthorizeSubmit.

Variable urlParses : string -> bool.

Lemma present_some s : s <> "" -> present (Some s) = true.
Proof. intros H. simpl. now apply negb_true_iff, String.eqb_neq. Qed.

(** An authorize request that passes both tests. *)
Lemma authorize_accepted query rb now st uri :
  paramGet "response_type" query = Some "code" ->
  paramGet "redirect_uri" query = Some uri -> uri <> "" ->
  handleAuthorize query rb now st
  = (withPending st
       (JsMap.set (generateId rb)
          (mkPending (orEmpty (paramGet "code_challenge" query))
             (if present (paramGet "code_challenge_method" query)
              then orEmpty (paramGet "code_challenge_method" query)
              else "plain")
             uri (orEmpty (paramGet "state" query)) None None None now)
          (pendingAuths st)),
     SendHtml 200
       (mkAuthPage (generateId rb) (orEmpty (paramGet "client_id" query))
          uri (orEmpty (paramGet "state" query)) None)).
Proof.
  intros Hrt Huri Hne. unfold handleAuthorize.
  rewrite Hrt, Huri, (present_some _ Hne). reflexivity.
Qed.

(** A submission for a known pending record, with all credentials and a
    positive connection test: the state it leaves before the redirect URL
    is built. *)
Lemma submit_stores body cb sb t1 t2 t3 st authId pending0 :
  paramGet "auth_id" body = Some authId -> authId <> "" ->
  JsMap.get authId (pendingAuths st) = Some pending0 ->
  credentialsGiven body ->
  let pending :=
    mkPending (codeChallenge pending0) (codeChallengeMethod pending0)
      (redirectUri pending0) (state pending0)
      (option_map stripTrailingSlash (paramGet "caspio_base_url" body))
      (paramGet "caspio_client_id" body)
      (paramGet "caspio_client_secret" body) (pendingCreatedAt pending0) in
  let st3 :=
    withCodes
      (setSession (generateId sb)
         (mkSession
            (orEmpty (option_map stripTrailingSlash
                        (paramGet "caspio_base_url" body)))
            (orEmpty (paramGet "caspio_client_id" body))
            (orEmpty (paramGet "caspio_client_secret" body))
            "" "" (t1 + 86400000) t2)
         (withPending st (JsMap.set authId pending (pendingAuths st))))
      (JsMap.set (generateId cb) (mkAuthCode (generateId sb) (t3 + 600000))
         (authCodes st)) in
  handleAuthorizeSubmit urlParses body Connected cb sb t1 t2 t3 st
  = if urlParses (redirectUri pending0) then
      (withPending st3 (JsMap.delete authId (pendingAuths st3)),
       Redirect302
         (mkRedirectUrl (redirectUri pending0) (generateId cb)
            (if String.eqb (state pending0) "" then None
             else Some (state pending0))))
    else (st3, internalError).
Proof.
  intros Hid Hne Hget (H3 & H4 & H5). cbv zeta.
  unfold handleAuthorizeSubmit.
  rewrite Hid, (present_some _ Hne). simpl orEmpty.
  replace (JsMap.has authId (pendingAuths st)) with true
    by (symmetry; apply JsMapFacts.has_true; eauto).
  rewrite H3, H4, H5, Hget. simpl.
  rewrite !setSession_codes. reflexivity.
Qed.

(** X7.  The flow from the authorize request to the redirect: when the
    authorize request asks for [response_type=code] with a redirect URI
    that the URL parser accepts, and the form comes back with the id of
    the pending record, all three credentials and a positive connection
    test, the answer is a redirect to that very URI, carrying the new code
    and the state of the authorize request (no state parameter when it was
    empty or missing).  The pending record is gone, the session holds the
    credentials (the base URL without its trailing slash) and empty
    tokens, and the code is bound to the session for ten minutes. *)
Theorem authorize_then_submit_redirects_back
  (query body : Params) (idBytes codeBytes sessionBytes : list byte)
  (now nowExpiry nowCreated nowCode : Z) (st : State) (uri : string) :
  paramGet "response_type" query = Some "code" ->
  paramGet "redirect_uri" query = Some uri -> uri <> "" ->
  urlParses uri = true ->
  is32 idBytes = true ->
  paramGet "auth_id" body = Some (generateId idBytes) ->
  credentialsGiven body ->
  let result :=
    handleAuthorizeSubmit urlParses body Connected codeBytes sessionBytes
      nowExpiry nowCreated nowCode
      (fst (handleAuthorize query idBytes now st)) in
  snd result
  = Redirect302
      (mkRedirectUrl uri (generateId codeBytes)
         (if String.eqb (orEmpty (paramGet "state" query)) "" then None
          else Some (orEmpty (paramGet "state" query))))
  /\ JsMap.get (generateId idBytes) (pendingAuths (fst result)) = None
  /\ JsMap.get (generateId sessionBytes) (sessions (fst result))
     = Some (mkSession
               (orEmpty (option_map stripTrailingSlash
                           (paramGet "caspio_base_url" body)))
               (orEmpty (paramGet "caspio_client_id" body))
               (orEmpty (paramGet "caspio_client_secret" body))
               "" "" (nowExpiry + 86400000) nowCreated)
  /\ JsMap.get (generateId codeBytes) (authCodes (fst result))
     = Some (mkAuthCode (generateId sessionBytes) (nowCode + 600000)).
Proof.
  intros Hrt Huri Hne Hurl Hid Hauth Hcreds result. unfold result.
  rewrite (authorize_accepted _ _ _ _ _ Hrt Huri Hne). simpl fst.
  erewrite submit_stores;
    [ | exact Hauth | now apply generateId_nonempty
      | simpl; apply JsMapFacts.get_set_same | exact Hcreds ].
  simpl redirectUri. rewrite Hurl. simpl.
  rewrite setSession_sessions, setSession_pending. simpl.
  repeat split.
  - apply JsMapFacts.get_delete_same.
  - apply JsMapFacts.get_set_same.
  - apply JsMapFacts.get_set_same.
Qed.

(** The handler is its two steps, when the second meets the state that
    the first has seen. *)
Lemma handleAuthorizeSubmit_in_two_steps
  (body : Params) (conn : ConnResult)
  (codeBytes sessionBytes : list byte) (nowExpiry nowCreated nowCode : Z)
  (st : State) :
  handleAuthorizeSubmit urlParses body conn codeBytes sessionBytes
    nowExpiry nowCreated nowCode st
  = match submitBegin body st with
    | Some reply => (st, reply)
    | None =>
        submitResume urlParses body conn codeBytes sessionBytes
          nowExpiry nowCreated nowCode st
    end.
Proof.
  unfold handleAuthorizeSubmit, submitBegin, submitResume.
  destruct (_ || _); [reflexivity|]. destruct (_ || _); reflexivity.
Qed.

(** X8.  The id of a pending record yields one code.  After a submission
    has resumed from its connection test and been answered with the
    redirect, a submission with the same [auth_id] that begins is answered
    with [invalid_request] before any connection test; one that was
    waiting for its connection test at that moment is answered, when it
    resumes, with 500 if the test was positive and with the form
    otherwise.  Neither changes the state, so that neither stores a
    session or registers a code. *)
Theorem pending_id_is_single_use
  (body : Params) (conn : ConnResult)
  (codeBytes sessionBytes : list byte) (nowExpiry nowCreated nowCode : Z)
  (st st1 : State) (location : RedirectUrl) :
  submitResume urlParses body conn codeBytes sessionBytes
    nowExpiry nowCreated nowCode st = (st1, Redirect302 location) ->
  forall body',
    paramGet "auth_id" body' = paramGet "auth_id" body ->
    submitBegin body' st1
    = Some (oauthError "invalid_request" "Invalid or expired authorization")
    /\ (forall conn' cb sb t1 t2 t3,
          submitResume urlParses body' conn' cb sb t1 t2 t3 st1
          = (st1,
             match conn' with
             | Connected => internalError
             | NotConnected =>
                 formError (orEmpty (paramGet "auth_id" body))
                   "Failed to connect to Caspio. Please check your credentials."
             | ConnThrew e =>
                 formError (orEmpty (paramGet "auth_id" body))
                   ("Connection failed: " ++ messageOr "Unknown error" e)
             end)).
Proof.
  unfold submitResume at 1. unfold formError, internalError.
  destruct conn; try discriminate.
  destruct (JsMap.get _ _) as [pending0|]; [|discriminate].
  destruct (urlParses _); [|discriminate].
  intros H. injection H as <- _.
  intros body' Hsame.
  match goal with
  | |- context [submitBegin body' ?s] => set (st1 := s)
  end.
  assert (JsMap.get (orEmpty (paramGet "auth_id" body)) (pendingAuths st1)
          = None) as Hgone by apply JsMapFacts.get_delete_same.
  assert (submitBegin body' st1
          = Some (oauthError "invalid_request"
                    "Invalid or expired authorization")) as Hbegin.
  { unfold submitBegin. rewrite Hsame.
    apply JsMapFacts.has_false in Hgone. rewrite Hgone.
    simpl. now rewrite orb_true_r. }
  split; [exact Hbegin|].
  intros conn' cb sb t1 t2 t3. unfold submitResume. rewrite Hsame.
  destruct conn'; try reflexivity. now rewrite Hgone.
Qed.

(** X9.  The redirect URI is tested for emptiness at the authorize
    endpoint and parsed only at the end of the submission.  For a URI that
    the URL parser rejects, the authorize request is accepted all the same
    and a submission with working credentials is answered with 500, after
    the session has been stored and the code registered; the pending
    record stays, now holding the submitted credentials. *)
Theorem unparsable_redirect_uri_leaves_session_behind
  (query body : Params) (idBytes codeBytes sessionBytes : list byte)
  (now nowExpiry nowCreated nowCode : Z) (st : State) (uri : string) :
  paramGet "response_type" query = Some "code" ->
  paramGet "redirect_uri" query = Some uri -> uri <> "" ->
  urlParses uri = false ->
  is32 idBytes = true ->
  paramGet "auth_id" body = Some (generateId idBytes) ->
  credentialsGiven body ->
  let shown := handleAuthorize query idBytes now st in
  let result :=
    handleAuthorizeSubmit urlParses body Connected codeBytes sessionBytes
      nowExpiry nowCreated nowCode (fst shown) in
  (exists page, snd shown = SendHtml 200 page)
  /\ snd result = internalError
  /\ (exists created,
        JsMap.get (generateId sessionBytes) (sessions (fst result))
        = Some created
        /\ caspioClientSecret created
           = orEmpty (paramGet "caspio_client_secret" body))
  /\ JsMap.get (generateId codeBytes) (authCodes (fst result))
     = Some (mkAuthCode (generateId sessionBytes) (nowCode + 600000))
  /\ (exists kept,
        JsMap.get (generateId idBytes) (pendingAuths (fst result)) = Some kept
        /\ pendingClientSecret kept = paramGet "caspio_client_secret" body).
Proof.
  intros Hrt Huri Hne Hurl Hid Hauth Hcreds shown result.
  unfold result, shown.
  rewrite (authorize_accepted _ _ _ _ _ Hrt Huri Hne). simpl fst. simpl snd.
  split; [eexists; reflexivity|].
  erewrite submit_stores;
    [ | exact Hauth | now apply generateId_nonempty
      | simpl; apply JsMapFacts.get_set_same | exact Hcreds ].
  simpl redirectUri. rewrite Hurl. simpl.
  rewrite setSession_sessions, setSession_pending. simpl.
  split; [reflexivity|]. split; [|split].
  - eexists. split; [apply JsMapFacts.get_set_same|reflexivity].
  - apply JsMapFacts.get_set_same.
  - eexists. split; [apply JsMapFacts.get_set_same|reflexivity].
Qed.

(** X10.  The submission handler writes to the registries only after a
    positive connection test for a known pending record with all three
    credentials: in every other case the state is left as it was. *)
Theorem submission_writes_only_after_connection
  (body : Params) (conn : ConnResult)
  (codeBytes sessionBytes : list byte) (nowExpiry nowCreated nowCode : Z)
  (st : State) :
  fst (handleAuthorizeSubmit urlParses body conn codeBytes sessionBytes
         nowExpiry nowCreated nowCode st) = st
  \/ (conn = Connected /\ reachesConnectionTest body st).
Proof.
  unfold handleAuthorizeSubmit, reachesConnectionTest.
  destruct (present (paramGet "auth_id" body)); simpl; auto.
  destruct (JsMap.has _ (pendingAuths st)); simpl; auto.
  destruct (present (option_map _ _)); simpl; auto.
  destruct (present (paramGet "caspio_client_id" body)); simpl; auto.
  destruct (present (paramGet "caspio_client_secret" body)); simpl; auto.
  destruct conn; simpl; auto.
  right. repeat split; reflexivity.
Qed.

End AuthorizeSubmit.

Lemma authorize_then_submit_redirects_back_witness :
  let body := submitBody (generateId (bytes32 x01)) in
  let result :=
    handleAuthorizeSubmit httpsOnly body Connected (bytes32 x02) (bytes32 x03)
      2000 2000 2000
      (fst (handleAuthorize authorizeQuery (bytes32 x01) 1000 booted)) in
  httpsOnly "https://client.example/cb" = true
  /\ credentialsGiven body
  /\ snd result
     = Redirect302
         (mkRedirectUrl "https://client.example/cb"
            (generateId (bytes32 x02)) (Some "xyz"))
  /\ JsMap.get (generateId (bytes32 x03)) (sessions (fst result))
     = Some (mkSession "https://c1abc123.caspio.com" "client-id" "secret"
               "" "" 86402000 2000).
Proof.
  cbv zeta.
  assert (credentialsGiven (submitBody (generateId (bytes32 x01)))) as Hcreds
    by (repeat split; reflexivity).
  assert ("https://client.example/cb" <> "") as Hne by discriminate.
  destruct (authorize_then_submit_redirects_back httpsOnly
              authorizeQuery (submitBody (generateId (bytes32 x01)))
              (bytes32 x01) (bytes32 x02) (bytes32 x03)
              1000 2000 2000 2000 booted "https://client.example/cb"
              eq_refl eq_refl Hne eq_refl eq_refl eq_refl Hcreds)
    as (Hreply & _ & Hsession & _).
  split; [reflexivity|]. split; [exact Hcreds|].
  split; [exact Hreply|exact Hsession].
Defined.

Lemma pending_id_is_single_use_witness :
  let st := fst (handleAuthorize authorizeQuery (bytes32 x01) 1000 booted) in
  let body := submitBody (generateId (bytes32 x01)) in
  let submitted :=
    submitResume httpsOnly body Connected (bytes32 x02) (bytes32 x03)
      2000 2000 2000 st in
  submitBegin body st = None
  /\ snd submitted
     = Redirect302
         (mkRedirectUrl "https://client.example/cb"
            (generateId (bytes32 x02)) (Some "xyz"))
  /\ submitBegin body (fst submitted)
     = Some (oauthError "invalid_request" "Invalid or expired authorization")
  /\ submitResume httpsOnly body Connected (bytes32 x12) (bytes32 x13)
       3000 3000 3000 (fst submitted)
     = (fst submitted, internalError).
Proof.
  cbv zeta.
  set (st := fst (handleAuthorize authorizeQuery (bytes32 x01) 1000 booted)).
  set (submitted :=
         submitResume httpsOnly
           (submitBody (generateId (bytes32 x01))) Connected
           (bytes32 x02) (bytes32 x03) 2000 2000 2000 st).
  assert (submitted
          = (fst submitted,
             Redirect302
               (mkRedirectUrl "https://client.example/cb"
                  (generateId (bytes32 x02)) (Some "xyz")))) as Hsubmit
    by (vm_compute; reflexivity).
  destruct (pending_id_is_single_use httpsOnly _ _ _ _ _ _ _ _ _ _ Hsubmit
              (submitBody (generateId (bytes32 x01))) eq_refl)
    as (Hbegin & Hresume).
  split; [vm_compute; reflexivity|].
  split; [now rewrite Hsubmit|].
  split; [exact Hbegin|].
  exact (Hresume Connected (bytes32 x12) (bytes32 x13) 3000 3000 3000).
Defined.

Lemma unparsable_redirect_uri_leaves_session_behind_witness :
  let query := [("response_type", "code"); ("redirect_uri", "not a url")] in
  let body := submitBody (generateId (bytes32 x01)) in
  let result :=
    handleAuthorizeSubmit httpsOnly body Connected (bytes32 x02) (bytes32 x03)
      2000 2000 2000
      (fst (handleAuthorize query (bytes32 x01) 1000 booted)) in
  httpsOnly "not a url" = false
  /\ credentialsGiven body
  /\ snd result = internalError
  /\ JsMap.keys (sessions (fst result)) = [generateId (bytes32 x03)]
  /\ JsMap.get (generateId (bytes32 x02)) (authCodes (fst result))
     = Some (mkAuthCode (generateId (bytes32 x03)) 602000).
Proof.
  cbv zeta.
  assert (credentialsGiven (submitBody (generateId (bytes32 x01)))) as Hcreds
    by (repeat split; reflexivity).
  assert ("not a url" <> "") as Hne by discriminate.
  destruct (unparsable_redirect_uri_leaves_session_behind httpsOnly
              [("response_type", "code"); ("redirect_uri", "not a url")]
              (submitBody (generateId (bytes32 x01)))
              (bytes32 x01) (bytes32 x02) (bytes32 x03)
              1000 2000 2000 2000 booted "not a url"
              eq_refl eq_refl Hne eq_refl eq_refl eq_refl Hcreds)
    as (_ & Hreply & _ & Hcode & _).
  split; [reflexivity|]. split; [exact Hcreds|]. split; [exact Hreply|].
  split; [vm_compute; reflexivity|exact Hcode].
Defined.

(** ** The calls of the executors *)

Section Traces.
Context {A : Type}.

Lemma run_trace_grows (backend : Backend) (p : Prog A) : forall made,
  (length made <= length (snd (run backend made p)))%nat.
Proof.
  induction p as [a|e|m args k IH]; intros made; simpl; auto.
  eapply Nat.le_trans; [|apply IH]. rewrite length_app. simpl. lia.
Qed.

Lemma run_trace_atmost (backend : Backend) (p : Prog A) : forall n made,
  callsAtMost n p ->
  (length (snd (run backend made p)) <= length made + n)%nat.
Proof.
  induction p as [a|e|m args k IH]; intros n made Hn; simpl; try lia.
  destruct n as [|n']; [destruct Hn|].
  eapply Nat.le_trans; [apply IH, Hn|]. rewrite length_app. simpl. lia.
Qed.

Lemma run_trace_every (backend : Backend)
  (P : string -> list JsVal -> Prop) (p : Prog A) : forall made,
  everyCall P p ->
  Forall (fun c => P (fst c) (snd c)) made ->
  Forall (fun c => P (fst c) (snd c)) (snd (run backend made p)).
Proof.
  induction p as [a|e|m args k IH]; intros made Hp Hmade; simpl; auto.
  destruct Hp as [Hm Hk]. apply IH; auto.
  apply Forall_app. split; auto.
Qed.

Lemma callsAtMost_mono (p : Prog A) : forall n n',
  (n <= n')%nat -> callsAtMost n p -> callsAtMost n' p.
Proof.
  induction p as [a|e|m args k IH]; intros n n' Hle Hn; simpl; auto.
  destruct n as [|n0]; [destruct Hn|].
  destruct n' as [|n1]; [lia|]. intros r. apply (IH r n0); [lia|apply Hn].
Qed.

(** The law of [switch]: what holds of every case and of the default
    holds of the result. *)
Lemma switch_cases (Q : A -> Prop) (s : string) (cases : list (string * A))
  (default : A) :
  Forall (fun c => Q (snd c)) cases -> Q default ->
  Q (switch s cases default).
Proof.
  intros Hcases Hdef.
  induction Hcases as [|[label body] r Hb _ IH]; simpl; auto.
  now destruct (String.eqb label s).
Qed.

Lemma switch_miss (s : string) (cases : list (string * A)) (default : A) :
  ~ In s (map fst cases) -> switch s cases default = default.
Proof.
  induction cases as [|[label body] r IH]; simpl; auto.
  intros Hnot. destruct (String.eqb label s) eqn:E.
  - apply String.eqb_eq in E. exfalso. apply Hnot. now left.
  - apply IH. intros Hin. apply Hnot. now right.
Qed.

End Traces.

Lemma callsAtMost_bind {A B : Type} (p : Prog A) (f : A -> Prog B) :
  forall n,
    callsAtMost n p -> (forall a, callsAtMost 0 (f a)) ->
    callsAtMost n (bind p f).
Proof.
  induction p as [a|e|m args k IH]; intros n Hp Hf; simpl; auto.
  - apply (callsAtMost_mono _ 0); [lia|apply Hf].
  - destruct n as [|n']; [destruct Hp|]. intros r. apply IH; auto.
Qed.

Lemma callsAtMost_await_then {B : Type} method args (f : JsVal -> Prog B) n :
  (forall v, callsAtMost n (f v)) ->
  callsAtMost (S n) (bind (await method args) f).
Proof. intros Hf. simpl. intros [v|e]; simpl; auto. Qed.

Lemma callsAtMost_await method args n : callsAtMost (S n) (await method args).
Proof. simpl. now intros [v|e]. Qed.

Lemma everyCall_bind {A B : Type} (P : string -> list JsVal -> Prop)
  (p : Prog A) (f : A -> Prog B) :
  everyCall P p -> (forall a, everyCall P (f a)) -> everyCall P (bind p f).
Proof.
  intros Hp Hf. induction p as [a|e|m args k IH]; simpl; auto.
  destruct Hp as [Hm Hk]. split; auto.
Qed.

Lemma everyCall_await (P : string -> list JsVal -> Prop) method args :
  P method args -> everyCall P (await method args).
Proof. intros H. simpl. split; auto. now intros [v|e]. Qed.

Lemma everyCall_silent {A : Type} (P : string -> list JsVal -> Prop)
  (p : Prog A) : callsAtMost 0 p -> everyCall P p.
Proof. destruct p; simpl; tauto. Qed.

Lemma callsAtMost_lengthOf v n : callsAtMost n (lengthOf v).
Proof. now destruct v. Qed.

Lemma callsAtMost_member v name n : callsAtMost n (member v name).
Proof. now destruct v. Qed.

(** One step of the proof that an executor makes few calls. *)
Ltac calls_step :=
  match goal with
  | |- callsAtMost _ (bind (await _ _) _) =>
      apply callsAtMost_await_then; intros ?
  | |- callsAtMost _ (await _ _) => apply callsAtMost_await
  | |- callsAtMost _ (bind (lengthOf _) _) =>
      apply callsAtMost_bind; [apply callsAtMost_lengthOf|intros ?]
  | |- callsAtMost _ (bind (member _ _) _) =>
      apply callsAtMost_bind; [apply callsAtMost_member|intros ?]
  | |- callsAtMost _ (if ?c then _ else _) => destruct c
  | |- callsAtMost _ (Ret _) => exact I
  | |- callsAtMost _ (Throw _) => exact I
  end.

(** One step of the proof of a property of all calls of an executor. *)
Ltac every_step :=
  match goal with
  | |- everyCall _ (bind _ _) => apply everyCall_bind; [|intros ?]
  | |- everyCall _ (await _ _) => apply everyCall_await
  | |- everyCall _ (lengthOf ?v) => destruct v; exact I
  | |- everyCall _ (member ?v _) => destruct v; exact I
  | |- everyCall _ (if ?c then _ else _) => destruct c eqn:?
  | |- everyCall _ (Ret _) => exact I
  | |- everyCall _ (Throw _) => exact I
  end.

Ltac delete_guard :=
  unfold deleteNeedsConfirm; cbn [String.prefix];
  first [ discriminate
        | intros _;
          match goal with
          | H : negb ?b = false |- ?b = true => now apply negb_false_iff
          end
        | intros H; cbn in H; discriminate H ].

Section ExecutorCalls.

Variable toStr : JsVal -> string.
Variable stringify : JsVal -> JsVal.
Variable mcpMessage : Z -> string -> string.

Lemma remote_executeTool_calls_once name args :
  callsAtMost 1 (Remote.executeTool toStr stringify name args).
Proof.
  unfold Remote.executeTool. apply callsAtMost_bind; [|intros; exact I].
  destruct name; try exact I.
  apply (switch_cases (callsAtMost 1)); [|exact I].
  repeat (apply Forall_cons; [cbn [snd]; repeat calls_step|]).
  apply Forall_nil.
Qed.

Lemma local_executeTool_calls_twice name args :
  callsAtMost 2 (Local.executeTool toStr mcpMessage name args).
Proof.
  unfold Local.executeTool.
  destruct name; try exact I.
  apply (switch_cases (callsAtMost 2)); [|exact I].
  repeat (apply Forall_cons; [cbn [snd]; repeat calls_step|]).
  apply Forall_nil.
Qed.

Lemma remote_executeTool_guards_delete name args :
  everyCall (deleteNeedsConfirm args)
    (Remote.executeTool toStr stringify name args).
Proof.
  unfold Remote.executeTool. apply everyCall_bind; [|intros; exact I].
  destruct name; try exact I.
  apply (switch_cases (everyCall (deleteNeedsConfirm args))); [|exact I].
  repeat (apply Forall_cons;
          [cbn [snd]; repeat every_step; delete_guard|]).
  apply Forall_nil.
Qed.

Lemma local_executeTool_guards_delete name args :
  everyCall (deleteNeedsConfirm args)
    (Local.executeTool toStr mcpMessage name args).
Proof.
  unfold Local.executeTool.
  destruct name; try exact I.
  apply (switch_cases (everyCall (deleteNeedsConfirm args))); [|exact I].
  repeat (apply Forall_cons;
          [cbn [snd]; repeat every_step; delete_guard|]).
  apply Forall_nil.
Qed.

End ExecutorCalls.

Lemma one_call_exactly {A : Type} (backend : Backend) (p : Prog A) :
  (exists m a k, p = Call m a k) -> callsAtMost 1 p ->
  length (snd (run backend [] p)) = 1%nat.
Proof.
  intros (m & a & k & ->) Hmost.
  apply Nat.le_antisymm.
  - apply (run_trace_atmost backend _ 1 []). exact Hmost.
  - simpl. apply (run_trace_grows backend _ [(m, a)]).
Qed.

Section ToolNames.

Variable BASE_URL : string.
Variable toStr : JsVal -> string.
Variable stringify : JsVal -> JsVal.
Variable decodeURIComponent : string -> option string.
Variable mcpMessage : Z -> string -> string.

Lemma remote_known_tool_calls n args :
  In n (map toolName Remote.toolDefinitions) ->
  ~ In n (destructiveTools Remote.toolDefinitions)
  \/ truthy (prop "confirm" args) = true ->
  exists m a k, Remote.executeTool toStr stringify (VStr n) args = Call m a k.
Proof.
  intros Hin Hok. cbn in Hin.
  repeat (destruct Hin as [<-|Hin];
          [ unfold Remote.executeTool; cbn;
            try (destruct Hok as [Hok|Hok];
                 [exfalso; apply Hok; cbn; tauto | rewrite Hok; cbn]);
            do 3 eexists; reflexivity |]).
  destruct Hin.
Qed.

Lemma local_known_tool_calls n args :
  In n (map toolName Local.TOOLS) ->
  ~ In n (destructiveTools Local.TOOLS)
  \/ truthy (prop "confirm" args) = true ->
  exists m a k, Local.executeTool toStr mcpMessage (VStr n) args = Call m a k.
Proof.
  intros Hin Hok. cbn in Hin.
  repeat (destruct Hin as [<-|Hin];
          [ unfold Local.executeTool; cbn;
            try (destruct Hok as [Hok|Hok];
                 [exfalso; apply Hok; cbn; tauto | rewrite Hok; cbn]);
            do 3 eexists; reflexivity |]).
  destruct Hin.
Qed.

Lemma remote_unknown_tool n args :
  ~ In n (map toolName Remote.toolDefinitions) ->
  Remote.executeTool toStr stringify (VStr n) args
  = Throw (ErrorObj ("Unknown tool: " ++ toStr (VStr n))).
Proof.
  intros Hnot. unfold Remote.executeTool.
  rewrite switch_miss; [reflexivity|exact Hnot].
Qed.

Lemma local_unknown_tool n args :
  ~ In n (map toolName Local.TOOLS) ->
  Local.executeTool toStr mcpMessage (VStr n) args
  = Throw (ErrorObj (mcpMessage Local.MethodNotFound
                       ("Unknown tool: " ++ toStr (VStr n)))).
Proof.
  intros Hnot. unfold Local.executeTool.
  rewrite switch_miss; [reflexivity|exact Hnot].
Qed.

(** X11.  The executor of the remote server makes at most one call to the
    backend client for a tool call, whatever the name, the arguments and
    the answers of the backend; for a tool of the catalog it makes exactly
    one, unless the tool is destructive and [confirm] is not truthy.  The
    executor of the local server makes at most two (two for the schema of
    a table, which it reads in two calls). *)
Theorem executors_call_the_backend_once
  (backend : Backend) (name : JsVal) (args : list (string * JsVal)) :
  (length (snd (run backend []
                  (Remote.executeTool toStr stringify name args))) <= 1)%nat
  /\ (length (snd (run backend []
                     (Local.executeTool toStr mcpMessage name args))) <= 2)%nat
  /\ (forall n,
        name = VStr n ->
        In n (map toolName Remote.toolDefinitions) ->
        ~ In n (destructiveTools Remote.toolDefinitions)
        \/ truthy (prop "confirm" args) = true ->
        length (snd (run backend []
                       (Remote.executeTool toStr stringify name args)))
        = 1%nat).
Proof.
  split; [|split].
  - apply (run_trace_atmost backend _ 1 []).
    apply remote_executeTool_calls_once.
  - apply (run_trace_atmost backend _ 2 []).
    apply local_executeTool_calls_twice.
  - intros n -> Hin Hok. apply one_call_exactly.
    + now apply remote_known_tool_calls.
    + apply remote_executeTool_calls_once.
Qed.

(** X12.  Neither executor ever calls a delete method of the backend
    client for a tool call whose [confirm] argument is not truthy:
    whatever the tool name and the answers of the backend, a call of a
    method whose name starts with [delete] in the run means that [confirm]
    was truthy. *)
Theorem delete_is_called_only_when_confirmed
  (backend : Backend) (name : JsVal) (args : list (string * JsVal))
  (method : string) (callArgs : list JsVal) :
  In (method, callArgs)
    (snd (run backend [] (Remote.executeTool toStr stringify name args)))
  \/ In (method, callArgs)
       (snd (run backend [] (Local.executeTool toStr mcpMessage name args))) ->
  String.prefix "delete" method = true ->
  truthy (prop "confirm" args) = true.
Proof.
  intros Hin Hdelete.
  assert (forall p : Prog JsVal,
             everyCall (deleteNeedsConfirm args) p ->
             In (method, callArgs) (snd (run backend [] p)) ->
             truthy (prop "confirm" args) = true) as Hrun.
  { intros p Hp Hcall.
    pose proof (run_trace_every backend (deleteNeedsConfirm args) p []
                  Hp (Forall_nil _)) as Hall.
    rewrite Forall_forall in Hall. exact (Hall _ Hcall Hdelete). }
  destruct Hin as [Hin|Hin].
  - eapply Hrun; [apply remote_executeTool_guards_delete|exact Hin].
  - eapply Hrun; [apply local_executeTool_guards_delete|exact Hin].
Qed.

(** X13.  A tool name that is not in the catalog is refused without a
    call to the backend: the executor of the remote server throws
    [Unknown tool: ...], which the protocol endpoint turns into an error
    object with that message; the executor of the local server throws the
    SDK's method-not-found error.  A name of the catalog is never refused
    in this way: unless the tool is destructive and unconfirmed, the
    executor starts with a call to the backend. *)
Theorem unknown_tools_are_refused_known_ones_run
  (n : string) (args : list (string * JsVal)) :
  (~ In n (map toolName Remote.toolDefinitions) ->
   Remote.executeTool toStr stringify (VStr n) args
   = Throw (ErrorObj ("Unknown tool: " ++ toStr (VStr n)))
   /\ (forall backend st authHeader session id,
         getSessionFromRequest authHeader st = Some session ->
         run backend []
           (mcpProgram
              (handleMcpRequest BASE_URL toStr stringify decodeURIComponent
                 authHeader
                 (Parsed (mkRpc id "tools/call"
                            (VObj [("name", VStr n);
                                   ("arguments", VObj args)])))
                 st))
         = (inl (rpcError 200 id (-32603)
                   ("Unknown tool: " ++ toStr (VStr n))), [])))
  /\ (~ In n (map toolName Local.TOOLS) ->
      Local.executeTool toStr mcpMessage (VStr n) args
      = Throw (ErrorObj (mcpMessage Local.MethodNotFound
                           ("Unknown tool: " ++ toStr (VStr n)))))
  /\ (In n (map toolName Remote.toolDefinitions) ->
      ~ In n (destructiveTools Remote.toolDefinitions)
      \/ truthy (prop "confirm" args) = true ->
      exists m a k,
        Remote.executeTool toStr stringify (VStr n) args = Call m a k)
  /\ (In n (map toolName Local.TOOLS) ->
      ~ In n (destructiveTools Local.TOOLS)
      \/ truthy (prop "confirm" args) = true ->
      exists m a k,
        Local.executeTool toStr mcpMessage (VStr n) args = Call m a k).
Proof.
  split; [|split; [|split]].
  - intros Hnot. pose proof (remote_unknown_tool n args Hnot) as Hthrow.
    split; [exact Hthrow|].
    intros backend st authHeader session id Hsession.
    rewrite (gate_passed BASE_URL toStr stringify decodeURIComponent
               authHeader
               (mkRpc id "tools/call"
                  (VObj [("name", VStr n); ("arguments", VObj args)]))
               st session eq_refl Hsession).
    unfold handleMcpMethodAuthenticated. cbn -[Remote.executeTool].
    now rewrite Hthrow.
  - apply local_unknown_tool.
  - apply remote_known_tool_calls.
  - apply local_known_tool_calls.
Qed.

End ToolNames.

Lemma delete_is_called_only_when_confirmed_witness :
  let args := [("tableName", VStr "Orders"); ("confirm", VBool true)] in
  In ("deleteTable", [VStr "Orders"])
    (snd (run obliging []
            (Remote.executeTool showValue keepValue
               (VStr "caspio_delete_table") args)))
  /\ String.prefix "delete" "deleteTable" = true
  /\ truthy (prop "confirm" args) = true.
Proof.
  cbv zeta.
  assert (In ("deleteTable", [VStr "Orders"])
            (snd (run obliging []
                    (Remote.executeTool showValue keepValue
                       (VStr "caspio_delete_table")
                       [("tableName", VStr "Orders");
                        ("confirm", VBool true)])))) as Hcall
    by (vm_compute; now left).
  split; [exact Hcall|]. split; [reflexivity|].
  exact (delete_is_called_only_when_confirmed showValue keepValue
           (fun _ m => m) obliging _ _ _ _ (or_introl Hcall) eq_refl).
Defined.

(** ** The call-tool handler of the local server *)

Section LocalHandler.

Variable toStr : JsVal -> string.
Variable stringify : JsVal -> JsVal.
Variable mcpMessage : Z -> string -> string.

Lemma local_executeTool_rethrows name args :
  rethrows (Local.executeTool toStr mcpMessage name args).
Proof.
  unfold Local.executeTool.
  destruct name; try exact I.
  apply rethrows_switch; [|exact I].
  repeat (apply Forall_cons; [cbn [snd]; repeat rethrows_step|]).
  apply Forall_nil.
Qed.

(** X14.  The call-tool handler of the local server never throws: for
    every tool name, arguments and backend it returns a result.  When the
    backend answers a call with an exception, the result is flagged
    [isError] and its text is the serialised object whose [error] member
    is the message of the exception (or the string form of the thrown
    value, when it is not an [Error]). *)
Theorem local_call_tool_always_returns
  (backend : Backend) (name arguments : JsVal) :
  (exists result made,
      run backend [] (Local.callTool toStr stringify mcpMessage name arguments)
      = (inl result, made))
  /\ (forall e,
        firstThrown backend []
          (Local.callTool toStr stringify mcpMessage name arguments) = Some e ->
        fst (run backend []
               (Local.callTool toStr stringify mcpMessage name arguments))
        = inl (VObj [("content",
                      VArr [VObj [("type", VStr "text");
                                  ("text",
                                   stringify
                                     (VObj [("error",
                                             VStr (match e with
                                                   | ErrorObj m => m
                                                   | ThrownValue v => toStr v
                                                   end))]))]]);
                     ("isError", VBool true)])).
Proof.
  unfold Local.callTool. split.
  - apply (run_tryCatch_total backend
             (fun error =>
                VObj [("content",
                       VArr [VObj [("type", VStr "text");
                                   ("text",
                                    stringify
                                      (VObj [("error",
                                              VStr (match error with
                                                    | ErrorObj m => m
                                                    | ThrownValue v => toStr v
                                                    end))]))]]);
                      ("isError", VBool true)])).
  - intros e Hfirst.
    apply (run_tryCatch_thrown backend
             (fun result => textContent (stringify result))
             (fun error =>
                VObj [("content",
                       VArr [VObj [("type", VStr "text");
                                   ("text",
                                    stringify
                                      (VObj [("error",
                                              VStr (match error with
                                                    | ErrorObj m => m
                                                    | ThrownValue v => toStr v
                                                    end))]))]]);
                      ("isError", VBool true)])); auto.
    apply local_executeTool_rethrows.
Qed.

End LocalHandler.

(** ** Methods that need no session *)

Section AllowList.

Variable BASE_URL : string.
Variable toStr : JsVal -> string.
Variable stringify : JsVal -> JsVal.
Variable decodeURIComponent : string -> option string.

Lemma unauthenticated_is_silent request :
  callsAtMost 0 (handleMcpMethodUnauthenticated request).
Proof.
  unfold handleMcpMethodUnauthenticated.
  apply (switch_cases (callsAtMost 0)); [|exact I].
  repeat (apply Forall_cons; [exact I|]). apply Forall_nil.
Qed.

Lemma tryCatch_silent {A B : Type} (p : Prog A) (f : A -> B) (h : Thrown -> B) :
  callsAtMost 0 p ->
  callsAtMost 0 (tryCatch (bind p (fun a => Ret (f a))) (fun e => Ret (h e))).
Proof. destruct p; simpl; tauto. Qed.

(** X15.  A request for one of the five methods of the allow-list
    ([initialize], [tools/list], [notifications/initialized],
    [resources/list], [resources/read]) is answered without looking at
    the [Authorization] header or at the registries, and without a backend
    client or a call to the backend, with status 200.  This holds with a
    valid bearer token as well, so the branches of the authenticated
    handler for [resources/list] and [resources/read] are never taken:
    the first is always answered with the empty list, the second with the
    error [Resources not available...]. *)
Theorem allow_listed_methods_need_no_session
  (request : JsonRpcRequest) (backend : Backend) :
  existsb (String.eqb (rpcMethod request)) unauthenticatedMethods = true ->
  (forall header1 header2 st1 st2,
      handleMcpRequest BASE_URL toStr stringify decodeURIComponent
        header1 (Parsed request) st1
      = handleMcpRequest BASE_URL toStr stringify decodeURIComponent
          header2 (Parsed request) st2)
  /\ (forall header st,
        let outcome :=
          handleMcpRequest BASE_URL toStr stringify decodeURIComponent
            header (Parsed request) st in
        mcpClient outcome = None
        /\ snd (run backend [] (mcpProgram outcome)) = []
        /\ (exists body,
              fst (run backend [] (mcpProgram outcome))
              = inl (SendJson 200 body))
        /\ (rpcMethod request = "resources/list" ->
            fst (run backend [] (mcpProgram outcome))
            = inl (rpcResult (rpcId request)
                     (VObj [("resources", VArr [])])))
        /\ (rpcMethod request = "resources/read" ->
            fst (run backend [] (mcpProgram outcome))
            = inl (rpcError 200 (rpcId request) (-32603)
                     "Resources not available. Use caspio_get_table_schema or caspio_get_view_schema tools instead."))).
Proof.
  intros Hallowed. split.
  - intros header1 header2 st1 st2. unfold handleMcpRequest.
    now rewrite Hallowed.
  - intros header st. cbv zeta. unfold handleMcpRequest. rewrite Hallowed.
    simpl mcpClient. simpl mcpProgram.
    split; [reflexivity|]. split; [|split; [|split]].
    + pose proof (run_trace_atmost backend
                    (tryCatch
                       (result <- handleMcpMethodUnauthenticated request ;;
                        Ret (rpcResult (rpcId request) result))
                       (rpcCatch (rpcId request))) 0 []
                    (tryCatch_silent _ _ _ (unauthenticated_is_silent request)))
        as Hlen.
      simpl in Hlen. now destruct (snd (run backend [] _)); [|simpl in Hlen; lia].
    + pose proof (unauthenticated_is_silent request) as Hsilent.
      destruct (handleMcpMethodUnauthenticated request) as [v|e|m a k];
        simpl; [| |destruct Hsilent]; eexists; reflexivity.
    + intros Hm. unfold handleMcpMethodUnauthenticated. rewrite Hm.
      reflexivity.
    + intros Hm. unfold handleMcpMethodUnauthenticated. rewrite Hm.
      reflexivity.
Qed.

End AllowList.

Lemma allow_listed_methods_need_no_session_witness :
  let request := mkRpc (VNum 1) "resources/read"
                   (VObj [("uri", VStr "caspio://tables/Orders/schema")]) in
  let st := runEvents httpsOnly fullFlow booted in
  let outcome :=
    handleMcpRequest "https://mcp.example" showValue keepValue decodePlain
      (Some ("Bearer " ++ generateId (bytes32 x04))) (Parsed request) st in
  existsb (String.eqb (rpcMethod request)) unauthenticatedMethods = true
  /\ option_map accessToken
       (getSessionFromRequest
          (Some ("Bearer " ++ generateId (bytes32 x04))) st)
     = Some (generateId (bytes32 x04))
  /\ mcpClient outcome = None
  /\ snd (run obliging [] (mcpProgram outcome)) = [].
Proof.
  cbv zeta.
  destruct (allow_listed_methods_need_no_session
              "https://mcp.example" showValue keepValue decodePlain
              (mkRpc (VNum 1) "resources/read"
                 (VObj [("uri", VStr "caspio://tables/Orders/schema")]))
              obliging eq_refl) as [_ Hquiet].
  destruct (Hquiet (Some ("Bearer " ++ generateId (bytes32 x04)))
              (runEvents httpsOnly fullFlow booted))
    as (Hclient & Hcalls & _).
  split; [reflexivity|]. split; [vm_compute; reflexivity|].
  split; [exact Hclient|exact Hcalls].
Defined.

(** ** Identifiers determine their random bytes *)

Lemma fromHex_hexOfByte (b : byte) (s : string) :
  fromHex (hexOfByte b ++ s) = option_map (cons b) (fromHex s).
Proof. destruct b; cbn; destruct (fromHex s); reflexivity. Qed.

Lemma length_hexOfByte (b : byte) (s : string) :
  String.length (hexOfByte b ++ s) = S (S (String.length s)).
Proof. reflexivity. Qed.

(** X16.  [generateId] writes each random byte as two lowercase hex
    digits: the identifier has twice as many characters as there were
    bytes (64 for the 32 bytes of [crypto.randomBytes(32)]), the bytes can
    be read back from it, and so two identifiers are equal only when the
    random bytes were. *)
Theorem generateId_determines_its_bytes (bs : list byte) :
  fromHex (generateId bs) = Some bs
  /\ String.length (generateId bs) = (2 * length bs)%nat
  /\ (forall bs', generateId bs = generateId bs' -> bs = bs').
Proof.
  assert (forall l, fromHex (generateId l) = Some l) as Hback.
  { induction l as [|b r IH]; [reflexivity|].
    unfold generateId in *.
    change (toHex (b :: r)) with (hexOfByte b ++ toHex r).
    now rewrite fromHex_hexOfByte, IH. }
  split; [apply Hback|]. split.
  - unfold generateId. induction bs as [|b r IH]; [reflexivity|].
    change (toHex (b :: r)) with (hexOfByte b ++ toHex r).
    rewrite length_hexOfByte, IH. simpl. lia.
  - intros bs' Heq. pose proof (Hback bs) as H1. rewrite Heq, Hback in H1.
    now injection H1.
Qed.

(** ** Discovery: from the 401 to the endpoints *)



(** ** What the server advertises and what it accepts *)

Section Advertised.

Variable BASE_URL : string.
Variable sha256Base64Url : string -> string.

Lemma strictEq_true s lit : strictEq (Some s) lit = true <-> s = lit.
Proof. simpl. apply String.eqb_eq. Qed.

(** X18.  The authorization-server document tells the truth about the
    handlers.  A grant type is in [grant_types_supported] exactly when
    the token endpoint does not answer [unsupported_grant_type]; a
    response type is in [response_types_supported] exactly when the
    authorize endpoint does not answer [unsupported_response_type]; and a
    challenge method is in [code_challenge_methods_supported] exactly when
    [verifyCodeChallenge] can accept a verifier for it. *)
Theorem advertised_types_are_the_accepted_ones (kind : string) :
  (In kind (stringsOf (replyMember "grant_types_supported"
                         (handleAuthServerMetadata BASE_URL)))
   <-> forall body ab rb n1 n2 st,
         paramGet "grant_type" body = Some kind ->
         errorCode (snd (handleToken body ab rb n1 n2 st))
         <> Some "unsupported_grant_type")
  /\ (In kind (stringsOf (replyMember "response_types_supported"
                            (handleAuthServerMetadata BASE_URL)))
      <-> forall query rb now st,
            paramGet "response_type" query = Some kind ->
            errorCode (snd (handleAuthorize query rb now st))
            <> Some "unsupported_response_type")
  /\ (In kind (stringsOf (replyMember "code_challenge_methods_supported"
                            (handleAuthServerMetadata BASE_URL)))
      <-> exists verifier challenge,
            verifyCodeChallenge sha256Base64Url verifier challenge kind
            = true).
Proof.
  split; [|split].
  - simpl. split.
    + intros Hin body ab rb n1 n2 st Hkind.
      unfold handleToken. rewrite Hkind.
      destruct Hin as [<-|[<-|[]]]; simpl strictEq; cbv iota.
      * destruct (_ || _); [simpl; discriminate|].
        destruct (JsMap.get _ (authCodes st)) as [codeData|];
          [|simpl; discriminate].
        destruct (codeExpiresAt codeData <? n1); [simpl; discriminate|].
        destruct (JsMap.get _ (sessions st)); simpl; discriminate.
      * destruct (negb (present _)); [simpl; discriminate|].
        destruct (JsMap.findEntry _ _) as [[fid fs]|]; [|simpl; discriminate].
        destruct (String.eqb fid ""); simpl; discriminate.
    + intros Hok.
      destruct (String.eqb kind "authorization_code") eqn:E1;
        [apply String.eqb_eq in E1; auto|].
      destruct (String.eqb kind "refresh_token") eqn:E2;
        [apply String.eqb_eq in E2; auto|].
      exfalso.
      apply (Hok [("grant_type", kind)] [] [] 0 0 booted eq_refl).
      unfold handleToken. simpl paramGet. simpl strictEq.
      now rewrite E1, E2.
  - simpl. split.
    + intros [<-|[]] query rb now st Hkind. unfold handleAuthorize.
      rewrite Hkind. simpl strictEq. simpl negb. cbv iota.
      destruct (negb (present _)); simpl; discriminate.
    + intros Hok.
      destruct (String.eqb kind "code") eqn:E;
        [apply String.eqb_eq in E; auto|].
      exfalso.
      apply (Hok [("response_type", kind)] [] 0 booted eq_refl).
      unfold handleAuthorize. simpl paramGet. simpl strictEq.
      now rewrite E.
  - simpl. unfold verifyCodeChallenge. split.
    + intros [<-|[<-|[]]].
      * exists "v", (sha256Base64Url "v"). simpl. apply String.eqb_refl.
      * exists "v", "v". reflexivity.
    + intros (verifier & challenge & Hok).
      destruct (String.eqb kind "plain") eqn:E1;
        [apply String.eqb_eq in E1; auto|].
      destruct (String.eqb kind "S256") eqn:E2;
        [apply String.eqb_eq in E2; auto|].
      discriminate.
Qed.

End Advertised.

(* ------------------------------------------------------------------ *)
(** ** Splitting at a separator *)

Lemma splitOn_free (sep : ascii) (a : string) :
  freeOf sep a = true -> splitOn sep a = [a].
Proof.
  induction a as [|c r IH]; simpl; [reflexivity|].
  intros H. apply andb_true_iff in H as [Hc Hr].
  apply negb_true_iff in Hc. rewrite Hc, (IH Hr). reflexivity.
Qed.

Lemma splitOn_app (sep : ascii) (a b : string) :
  freeOf sep a = true ->
  splitOn sep (a ++ String sep b) = a :: splitOn sep b.
Proof.
  induction a as [|c r IH]; simpl.
  - intros _. now rewrite Ascii.eqb_refl.
  - intros H. apply andb_true_iff in H as [Hc Hr].
    apply negb_true_iff in Hc. rewrite Hc, (IH Hr). reflexivity.
Qed.

(** The first piece of [a ++ tail] is [a] when [a] has no separator and
    [tail] is empty or starts with one. *)
Lemma splitOn_first (sep : ascii) (a tail : string) :
  freeOf sep a = true ->
  tail = "" \/ (exists t, tail = String sep t) ->
  nth_error (splitOn sep (a ++ tail)) 0 = Some a.
Proof.
  intros Ha [->|[t ->]].
  - replace (a ++ "") with a.
    + now rewrite splitOn_free.
    + clear Ha. induction a as [|c r IH]; simpl; congruence.
  - now rewrite splitOn_app.
Qed.

Lemma append_assoc (a b c : string) : (a ++ b) ++ c = a ++ (b ++ c).
Proof. induction a as [|x r IH]; simpl; congruence. Qed.

Lemma basic_slice (encoded : string) :
  String.substring 6 (String.length ("Basic " ++ encoded) - 6)
    ("Basic " ++ encoded) = encoded.
Proof.
  change ("Basic " ++ encoded)
    with (String "B" (String "a" (String "s" (String "i" (String "c"
            (String " " encoded)))))).
  cbn [String.length Nat.sub String.substring].
  rewrite Nat.sub_0_r. apply substring_all.
Qed.

Lemma basic_prefix (encoded : string) :
  String.prefix "Basic " ("Basic " ++ encoded) = true.
Proof. simpl. now destruct encoded. Qed.

Lemma present_nonempty (v : string) : present (Some v) = negb (String.eqb v "").
Proof. reflexivity. Qed.

(** X19.  [parseBasicAuth] cuts the decoded credentials at colons: of
    [id:secret] followed by nothing or by a further colon and anything, it
    returns [id] and [secret], so that a secret with a colon in it loses
    the colon and what follows; with an empty [id] it returns nothing. *)
Theorem basic_credentials_are_cut_at_colons
  (base64Decode : string -> string) (encoded id secret tail : string) :
  base64Decode encoded = id ++ ":" ++ secret ++ tail ->
  freeOf ":" id = true ->
  freeOf ":" secret = true ->
  tail = "" \/ (exists t, tail = ":" ++ t) ->
  parseBasicAuth base64Decode ("Basic " ++ encoded)
  = if String.eqb id "" then None else Some (id, secret).
Proof.
  intros Hdec Hid Hsecret Htail. unfold parseBasicAuth.
  rewrite basic_prefix, basic_slice, Hdec. cbv zeta. simpl negb at 1.
  cbv iota.
  change (id ++ ":" ++ secret ++ tail)
    with (id ++ String ":" (secret ++ tail)).
  rewrite (splitOn_app ":" id _ Hid).
  set (pieces := splitOn ":" (secret ++ tail)).
  change (nth_error (id :: pieces) 0) with (Some id).
  change (nth_error (id :: pieces) 1) with (nth_error pieces 0).
  subst pieces. rewrite present_nonempty.
  rewrite (splitOn_first ":" secret tail Hsecret Htail).
  destruct (String.eqb id ""); reflexivity.
Qed.

Lemma basic_credentials_are_cut_at_colons_witness :
  parseBasicAuth (fun _ => "app:s3cr:et") "Basic YXBwOnMzY3I6ZXQ="
  = Some ("app", "s3cr").
Proof.
  apply (basic_credentials_are_cut_at_colons
           (fun _ => "app:s3cr:et") "YXBwOnMzY3I6ZXQ=" "app" "s3cr" ":et").
  - reflexivity.
  - reflexivity.
  - reflexivity.
  - right. exists "et". reflexivity.
Defined.

(* ------------------------------------------------------------------ *)
(** ** The command line of the local server *)

Lemma afterEquals_inline (flag value tail : string) :
  freeOf "=" flag = true ->
  freeOf "=" value = true ->
  tail = "" \/ (exists t, tail = "=" ++ t) ->
  afterEquals (flag ++ "=" ++ value ++ tail) = Some value.
Proof.
  intros Hflag Hvalue Htail. unfold afterEquals.
  change (flag ++ "=" ++ value ++ tail)
    with (flag ++ String "=" (value ++ tail)).
  rewrite (splitOn_app "=" flag _ Hflag).
  change (nth_error (flag :: splitOn "=" (value ++ tail)) 1)
    with (nth_error (splitOn "=" (value ++ tail)) 0).
  now apply splitOn_first.
Qed.

Lemma nonempty_eqb (v : string) : v <> "" -> String.eqb v "" = false.
Proof. intros H. now apply String.eqb_neq. Qed.

(** One step of the loop on an argument that is none of the three flags
    alone. *)
Lemma parseArgsFrom_inline (arg : string) (rest : list string)
  (config : CliArgs) :
  String.eqb arg "--base-url" = false ->
  String.eqb arg "--client-id" = false ->
  String.eqb arg "--client-secret" = false ->
  parseArgsFrom (arg :: rest) config
  = parseArgsFrom rest (assignInline arg config).
Proof.
  intros H1 H2 H3. destruct rest as [|nextArg rest']; simpl parseArgsFrom.
  - reflexivity.
  - rewrite H1, H2, H3. reflexivity.
Qed.

(** X20.  The two ways of giving a value agree: at any place of the
    command line, [--name value] and [--name=value] set the same member
    to [value], when [value] is not empty and holds no equals sign. *)
Theorem both_flag_styles_agree (value : string) (rest : list string)
  (config : CliArgs) :
  value <> "" ->
  freeOf "=" value = true ->
  (parseArgsFrom ("--base-url" :: value :: rest) config
   = parseArgsFrom rest
       (mkCliArgs (Some value) (argClientId config) (argClientSecret config))
   /\ parseArgsFrom (("--base-url=" ++ value) :: rest) config
      = parseArgsFrom rest
          (mkCliArgs (Some value) (argClientId config)
             (argClientSecret config)))
  /\ (parseArgsFrom ("--client-id" :: value :: rest) config
      = parseArgsFrom rest
          (mkCliArgs (argBaseUrl config) (Some value)
             (argClientSecret config))
      /\ parseArgsFrom (("--client-id=" ++ value) :: rest) config
         = parseArgsFrom rest
             (mkCliArgs (argBaseUrl config) (Some value)
                (argClientSecret config)))
  /\ (parseArgsFrom ("--client-secret" :: value :: rest) config
      = parseArgsFrom rest
          (mkCliArgs (argBaseUrl config) (argClientId config) (Some value))
      /\ parseArgsFrom (("--client-secret=" ++ value) :: rest) config
         = parseArgsFrom rest
             (mkCliArgs (argBaseUrl config) (argClientId config)
                (Some value))).
Proof.
  intros Hne Hfree. apply nonempty_eqb in Hne.
  assert (Hinline : forall flag,
             freeOf "=" flag = true ->
             afterEquals (flag ++ "=" ++ value) = Some value).
  { intros flag Hflag.
    replace (flag ++ "=" ++ value) with (flag ++ "=" ++ value ++ "").
    - apply afterEquals_inline; auto.
    - f_equal. f_equal. clear. induction value; simpl; congruence. }
  repeat split.
  - simpl parseArgsFrom. now rewrite Hne.
  - rewrite parseArgsFrom_inline by reflexivity.
    unfold assignInline.
    replace (String.prefix "--base-url=" ("--base-url=" ++ value)) with true
      by (simpl; now destruct value).
    change ("--base-url=" ++ value) with ("--base-url" ++ "=" ++ value).
    now rewrite (Hinline "--base-url" eq_refl).
  - simpl parseArgsFrom. now rewrite Hne.
  - rewrite parseArgsFrom_inline by reflexivity.
    unfold assignInline.
    replace (String.prefix "--base-url=" ("--client-id=" ++ value))
      with false by reflexivity.
    replace (String.prefix "--client-id=" ("--client-id=" ++ value))
      with true by (simpl; now destruct value).
    change ("--client-id=" ++ value) with ("--client-id" ++ "=" ++ value).
    now rewrite (Hinline "--client-id" eq_refl).
  - simpl parseArgsFrom. now rewrite Hne.
  - rewrite parseArgsFrom_inline by reflexivity.
    unfold assignInline.
    replace (String.prefix "--base-url=" ("--client-secret=" ++ value))
      with false by reflexivity.
    replace (String.prefix "--client-id=" ("--client-secret=" ++ value))
      with false by reflexivity.
    replace (String.prefix "--client-secret=" ("--client-secret=" ++ value))
      with true by (simpl; now destruct value).
    change ("--client-secret=" ++ value) with ("--client-secret" ++ "=" ++ value).
    now rewrite (Hinline "--client-secret" eq_refl).
Qed.

Lemma both_flag_styles_agree_witness :
  parseArgs ["--client-id"; "abc"; "--base-url=https://c1.caspio.com"]
  = parseArgs ["--client-id=abc"; "--base-url"; "https://c1.caspio.com"].
Proof.
  unfold parseArgs.
  destruct (both_flag_styles_agree "abc" ["--base-url=https://c1.caspio.com"]
              (mkCliArgs None None None)) as (_ & [Hspaced _] & _);
    [discriminate | reflexivity |].
  destruct (both_flag_styles_agree "abc" ["--base-url"; "https://c1.caspio.com"]
              (mkCliArgs None None None)) as (_ & [_ Hinline] & _);
    [discriminate | reflexivity |].
  change ("--client-id=abc") with ("--client-id=" ++ "abc").
  rewrite Hspaced, Hinline. reflexivity.
Defined.

(** X21.  A value with an equals sign in it is kept whole after
    [--client-secret] and cut at the sign after [--client-secret=]: the
    two ways of giving it then differ. *)
Theorem inline_value_is_cut_at_equals (value more : string) :
  freeOf "=" value = true ->
  parseArgs ["--client-secret"; value ++ "=" ++ more]
  = mkCliArgs None None (Some (value ++ "=" ++ more))
  /\ parseArgs ["--client-secret=" ++ value ++ "=" ++ more]
     = mkCliArgs None None (Some value).
Proof.
  intros Hfree. unfold parseArgs. split.
  - assert (E : String.eqb (value ++ "=" ++ more) "" = false)
      by (now destruct value).
    simpl parseArgsFrom.
    change (value ++ String "=" more) with (value ++ "=" ++ more).
    rewrite E. reflexivity.
  - change (parseArgsFrom ["--client-secret=" ++ value ++ "=" ++ more]
              (mkCliArgs None None None))
      with (assignInline ("--client-secret=" ++ value ++ "=" ++ more)
              (mkCliArgs None None None)).
    unfold assignInline.
    replace (String.prefix "--base-url="
               ("--client-secret=" ++ value ++ "=" ++ more))
      with false by reflexivity.
    replace (String.prefix "--client-id="
               ("--client-secret=" ++ value ++ "=" ++ more))
      with false by reflexivity.
    replace (String.prefix "--client-secret="
               ("--client-secret=" ++ value ++ "=" ++ more))
      with true by (simpl; now destruct value).
    change ("--client-secret=" ++ value ++ "=" ++ more)
      with ("--client-secret" ++ "=" ++ value ++ "=" ++ more).
    rewrite afterEquals_inline; auto.
    right. now exists more.
Qed.

Lemma inline_value_is_cut_at_equals_witness :
  parseArgs ["--client-secret"; "c2VjcmV0=="]
  = mkCliArgs None None (Some "c2VjcmV0==")
  /\ parseArgs ["--client-secret=c2VjcmV0=="]
     = mkCliArgs None None (Some "c2VjcmV0").
Proof.
  exact (inline_value_is_cut_at_equals "c2VjcmV0" "=" eq_refl).
Defined.

Lemma present_value (x : option string) :
  present x = true -> exists v, x = Some v /\ v <> "".
Proof.
  destruct x as [v|]; [|discriminate]. simpl. intros H. exists v. split; auto.
  apply negb_true_iff in H. now apply String.eqb_neq.
Qed.

Lemma orOption_absent (a e : option string) :
  present (orOption a e) = false <-> present a = false /\ present e = false.
Proof.
  unfold orOption. destruct (present a) eqn:Ha.
  - rewrite Ha. split; [discriminate|intros [H _]; discriminate].
  - tauto.
Qed.

(** X22.  [getConfig] returns only complete configurations: each of the
    three members is not empty, it is the value of the command line when
    that is not empty and the one of the environment otherwise; and it
    throws the error of the missing configuration exactly when some
    member is given by neither. *)
Theorem getConfig_prefers_the_command_line (argv : list string)
  (env : Environment) :
  (forall c, getConfig argv env = inl c ->
     (baseUrl c <> "" /\ clientId c <> "" /\ clientSecret c <> "")
     /\ Some (baseUrl c)
        = orOption (argBaseUrl (parseArgs argv)) (CASPIO_BASE_URL env)
     /\ Some (clientId c)
        = orOption (argClientId (parseArgs argv)) (CASPIO_CLIENT_ID env)
     /\ Some (clientSecret c)
        = orOption (argClientSecret (parseArgs argv))
            (CASPIO_CLIENT_SECRET env))
  /\ (forall e, getConfig argv env = inr e -> e = ErrorObj missingConfiguration)
  /\ ((exists e, getConfig argv env = inr e) <->
      (present (argBaseUrl (parseArgs argv)) = false
       /\ present (CASPIO_BASE_URL env) = false)
      \/ (present (argClientId (parseArgs argv)) = false
          /\ present (CASPIO_CLIENT_ID env) = false)
      \/ (present (argClientSecret (parseArgs argv)) = false
          /\ present (CASPIO_CLIENT_SECRET env) = false)).
Proof.
  unfold getConfig. cbv zeta.
  rewrite <- !orOption_absent.
  set (b := orOption (argBaseUrl (parseArgs argv)) (CASPIO_BASE_URL env)).
  set (i := orOption (argClientId (parseArgs argv)) (CASPIO_CLIENT_ID env)).
  set (s := orOption (argClientSecret (parseArgs argv))
              (CASPIO_CLIENT_SECRET env)).
  destruct (present b) eqn:Hb; simpl.
  2: { split; [discriminate|]. split; [now intros e [= <-]|].
       split; [auto|intros _; eexists; reflexivity]. }
  destruct (present i) eqn:Hi; simpl.
  2: { split; [discriminate|]. split; [now intros e [= <-]|].
       split; [auto|intros _; eexists; reflexivity]. }
  destruct (present s) eqn:Hs; simpl.
  2: { split; [discriminate|]. split; [now intros e [= <-]|].
       split; [auto|intros _; eexists; reflexivity]. }
  apply present_value in Hb as (vb & -> & Hvb).
  apply present_value in Hi as (vi & -> & Hvi).
  apply present_value in Hs as (vs & -> & Hvs).
  split; [|split].
  - intros c [= <-]. simpl. auto.
  - discriminate.
  - split; [intros [e He]; discriminate He|].
    intros [H|[H|H]]; discriminate H.
Qed.
